(** * wp-to-markdown: the content transformation pipeline of [WordPressExporter]

    A shallow embedding of the exporter class (the [codeBlocks] rule of the
    constructor, [isJson], [downloadImage], [processImages],
    [extractTermNames], [extractFeaturedImage], [createFrontMatter],
    [convertPostToMarkdown], [_loadPlugins], [init], [exportPosts]) and of
    the bundled plugins, with the properties the specification states about
    them; then of the parser of the list options of the command line, of
    the plugin loader and of the crawl ([fetchPosts]), with further
    properties of all of these.

    Conventions.
    - A JavaScript string is a sequence of code units; [string] holds the
      code units below 256, one per character.
    - The packages the exporter imports (jsdom, turndown, lang-detector,
      js-yaml, sanitize-filename) and node's [path], [fetch] and [fs] are
      not part of the program: they are the fields of the classes [Jsdom],
      [Paths], [Env], [LangDetector], [TurndownService], [Yaml] and
      [Sources], and every theorem holds for all of them.  Module [Sample]
      gives one concrete choice, used to run the exporter on explicit
      inputs.
    - The file has two parts: the program and the vocabulary of its
      properties first, the properties after. *)

From Stdlib Require Import ZArith Ascii String List Bool Lia DecimalString.
From stdpp Require Import base option list gmap strings.

Local Open Scope Z_scope.
Local Set Warnings "-register-all".

(** ** JavaScript string primitives *)

Module JS.

(** [s.startsWith(p)], the test behind every literal pattern below. *)
Fixpoint startsWith (p s : string) : bool :=
  match p, s with
  | EmptyString, _ => true
  | String a p', String b s' => if Ascii.eqb a b then startsWith p' s' else false
  | String _ _, EmptyString => false
  end.

(** [s.indexOf(p)] counted from position [i]: the first position at which
    [p] occurs, [-1] when there is none. *)
Fixpoint indexOf_from (p s : string) (i : Z) : Z :=
  if startsWith p s then i
  else match s with
       | EmptyString => -1
       | String _ s' => indexOf_from p s' (i + 1)
       end.

Definition indexOf (s p : string) : Z := indexOf_from p s 0.

(** [s.replace(/p/g, r)] for a literal, non-empty pattern [p]: occurrences
    are taken left to right and do not overlap.  [skip] counts the
    characters of the current occurrence that are still to be dropped. *)
Fixpoint replace_go (p r s : string) (skip : nat) : string :=
  match s with
  | EmptyString => EmptyString
  | String c s' =>
      match skip with
      | S k => replace_go p r s' k
      | O =>
          if startsWith p s
          then r +:+ replace_go p r s' (Nat.pred (String.length p))
          else String c (replace_go p r s' O)
      end
  end.

Definition replaceAll (p r s : string) : string :=
  match p with
  | EmptyString => s
  | _ => replace_go p r s O
  end.

(** White space and line terminators of [String.prototype.trim] among the
    code units below 256: TAB, LF, VT, FF, CR, SP and NBSP. *)
Definition isWhiteSpace (c : ascii) : bool :=
  let n := nat_of_ascii c in
  ((9 <=? n) && (n <=? 13) || (n =? 32) || (n =? 160))%nat.

Fixpoint trimStart (s : string) : string :=
  match s with
  | String c s' => if isWhiteSpace c then trimStart s' else s
  | EmptyString => EmptyString
  end.

Fixpoint trimEnd (s : string) : string :=
  match s with
  | EmptyString => EmptyString
  | String c s' =>
      match trimEnd s' with
      | EmptyString => if isWhiteSpace c then EmptyString else String c EmptyString
      | t => String c t
      end
  end.

Definition trim (s : string) : string := trimEnd (trimStart s).

(** [s.split(sep)] for a one-character separator, and the last piece,
    [parts[parts.length - 1]]. *)
Fixpoint split (sep : ascii) (s : string) : list string :=
  match s with
  | EmptyString => [EmptyString]
  | String c s' =>
      if Ascii.eqb c sep then EmptyString :: split sep s'
      else match split sep s' with
           | piece :: rest => String c piece :: rest
           | [] => [String c EmptyString]
           end
  end.

Definition lastOf (parts : list string) : string := List.last parts EmptyString.

(** [s.replace(/\/$/, '')]: one trailing slash is removed. *)
Fixpoint stripTrailingSlash (s : string) : string :=
  match s with
  | EmptyString => EmptyString
  | String c EmptyString => if Ascii.eqb c "/" then EmptyString else s
  | String c s' => String c (stripTrailingSlash s')
  end.

(** The double quote, as a character and as a string. *)
Definition dquote : ascii := ascii_of_nat 34.
Definition DQUOTE : string := String dquote EmptyString.

(** Truthiness of a string value: only the empty string is falsy. *)
Definition truthy (s : string) : bool :=
  match s with EmptyString => false | _ => true end.

End JS.


(** ** [JSON.parse]

    The built-in is needed only for whether it throws.  The grammar of
    ECMA-404 is recognised by a pushdown automaton that reads the text once;
    the result is the kind of the top-level value, [None] for a
    [SyntaxError]. *)

Module JSON.

Inductive kind := KObject | KArray | KString | KNumber | KTrue | KFalse | KNull.

Inductive container := InArray | InObject.

Inductive state :=
| Val                    (* a value is expected *)
| ValOrEnd               (* just after '[' *)
| KeyOrEnd               (* just after '{' *)
| Key                    (* after ',' inside an object *)
| Colon                  (* after a key *)
| After                  (* after a complete value *)
| Str (key : bool)       (* inside a string literal *)
| Esc (key : bool)       (* after a backslash *)
| Hex (key : bool) (n : nat)   (* [S n] hex digits of \u still to come *)
| Lit (rest : string)    (* the rest of true, false or null *)
| NumMinus | NumZero | NumInt | NumDot | NumFrac | NumE | NumESign | NumExp.

Definition isSpace (c : ascii) : bool :=
  let n := nat_of_ascii c in ((n =? 9) || (n =? 10) || (n =? 13) || (n =? 32))%nat.

Definition isDigit (c : ascii) : bool :=
  let n := nat_of_ascii c in ((48 <=? n) && (n <=? 57))%nat.

Definition isHex (c : ascii) : bool :=
  let n := nat_of_ascii c in
  (isDigit c || (65 <=? n) && (n <=? 70) || (97 <=? n) && (n <=? 102))%nat.

Definition isE (c : ascii) : bool := Ascii.eqb c "e" || Ascii.eqb c "E".

Definition cfg : Type := state * list container.

(** A character read where a value may start. *)
Definition startValue (c : ascii) (stack : list container) : option cfg :=
  if Ascii.eqb c "{" then Some (KeyOrEnd, InObject :: stack)
  else if Ascii.eqb c "[" then Some (ValOrEnd, InArray :: stack)
  else if Ascii.eqb c JS.dquote then Some (Str false, stack)
  else if Ascii.eqb c "-" then Some (NumMinus, stack)
  else if Ascii.eqb c "0" then Some (NumZero, stack)
  else if isDigit c then Some (NumInt, stack)
  else if Ascii.eqb c "t" then Some (Lit "rue", stack)
  else if Ascii.eqb c "f" then Some (Lit "alse", stack)
  else if Ascii.eqb c "n" then Some (Lit "ull", stack)
  else None.

(** A character read after a complete value. *)
Definition afterValue (c : ascii) (stack : list container) : option cfg :=
  if isSpace c then Some (After, stack)
  else match stack with
       | InArray :: up =>
           if Ascii.eqb c "," then Some (Val, stack)
           else if Ascii.eqb c "]" then Some (After, up)
           else None
       | InObject :: up =>
           if Ascii.eqb c "," then Some (Key, stack)
           else if Ascii.eqb c "}" then Some (After, up)
           else None
       | [] => None
       end.

Definition step (st : state) (stack : list container) (c : ascii) : option cfg :=
  match st with
  | Val => if isSpace c then Some (Val, stack) else startValue c stack
  | ValOrEnd =>
      if isSpace c then Some (ValOrEnd, stack)
      else if Ascii.eqb c "]" then Some (After, List.tl stack)
      else startValue c stack
  | KeyOrEnd =>
      if isSpace c then Some (KeyOrEnd, stack)
      else if Ascii.eqb c "}" then Some (After, List.tl stack)
      else if Ascii.eqb c JS.dquote then Some (Str true, stack)
      else None
  | Key =>
      if isSpace c then Some (Key, stack)
      else if Ascii.eqb c JS.dquote then Some (Str true, stack)
      else None
  | Colon =>
      if isSpace c then Some (Colon, stack)
      else if Ascii.eqb c ":" then Some (Val, stack)
      else None
  | After => afterValue c stack
  | Str k =>
      if Ascii.eqb c JS.dquote then Some (if k then Colon else After, stack)
      else if Ascii.eqb c "\" then Some (Esc k, stack)
      else if (nat_of_ascii c <? 32)%nat then None
      else Some (Str k, stack)
  | Esc k =>
      if Ascii.eqb c "u" then Some (Hex k 3, stack)
      else if Ascii.eqb c JS.dquote || Ascii.eqb c "\" || Ascii.eqb c "/" || Ascii.eqb c "b"
              || Ascii.eqb c "f" || Ascii.eqb c "n" || Ascii.eqb c "r" || Ascii.eqb c "t"
      then Some (Str k, stack)
      else None
  | Hex k n =>
      if isHex c then Some (match n with O => Str k | S n' => Hex k n' end, stack)
      else None
  | Lit rest =>
      match rest with
      | String c' rest' =>
          if Ascii.eqb c c'
          then Some (match rest' with EmptyString => After | _ => Lit rest' end, stack)
          else None
      | EmptyString => None
      end
  | NumMinus =>
      if Ascii.eqb c "0" then Some (NumZero, stack)
      else if isDigit c then Some (NumInt, stack)
      else None
  | NumZero =>
      if Ascii.eqb c "." then Some (NumDot, stack)
      else if isE c then Some (NumE, stack)
      else afterValue c stack
  | NumInt =>
      if isDigit c then Some (NumInt, stack)
      else if Ascii.eqb c "." then Some (NumDot, stack)
      else if isE c then Some (NumE, stack)
      else afterValue c stack
  | NumDot => if isDigit c then Some (NumFrac, stack) else None
  | NumFrac =>
      if isDigit c then Some (NumFrac, stack)
      else if isE c then Some (NumE, stack)
      else afterValue c stack
  | NumE =>
      if Ascii.eqb c "+" || Ascii.eqb c "-" then Some (NumESign, stack)
      else if isDigit c then Some (NumExp, stack)
      else None
  | NumESign => if isDigit c then Some (NumExp, stack) else None
  | NumExp => if isDigit c then Some (NumExp, stack) else afterValue c stack
  end.

Definition accepting (st : state) (stack : list container) : bool :=
  match stack, st with
  | [], (After | NumZero | NumInt | NumFrac | NumExp) => true
  | _, _ => false
  end.

Fixpoint run (st : state) (stack : list container) (s : string) : bool :=
  match s with
  | EmptyString => accepting st stack
  | String c s' =>
      match step st stack c with
      | Some (st', stack') => run st' stack' s'
      | None => false
      end
  end.

(** The kind of value announced by the first character that is not
    white space. *)
Fixpoint kindOf (s : string) : option kind :=
  match s with
  | EmptyString => None
  | String c s' =>
      if isSpace c then kindOf s'
      else if Ascii.eqb c "{" then Some KObject
      else if Ascii.eqb c "[" then Some KArray
      else if Ascii.eqb c JS.dquote then Some KString
      else if Ascii.eqb c "t" then Some KTrue
      else if Ascii.eqb c "f" then Some KFalse
      else if Ascii.eqb c "n" then Some KNull
      else if Ascii.eqb c "-" || isDigit c then Some KNumber
      else None
  end.

Definition parse (s : string) : option kind :=
  if run Val [] s then kindOf s else None.

End JSON.

(** ** Documents *)

(** The nodes of a document body: text, comments and elements, with the
    attributes of an element in source order. *)
Inductive node :=
| Text (data : string)
| Comment (data : string)
| Element (localName : string) (attributes : list (string * string)) (childNodes : list node).

Module DOM.

Fixpoint getAttribute (name : string) (attrs : list (string * string)) : option string :=
  match attrs with
  | [] => None
  | (k, v) :: rest => if String.eqb k name then Some v else getAttribute name rest
  end.

(** [setAttribute]: an existing attribute keeps its place, a new one goes
    last. *)
Fixpoint setAttribute (name value : string) (attrs : list (string * string))
  : list (string * string) :=
  match attrs with
  | [] => [(name, value)]
  | (k, v) :: rest =>
      if String.eqb k name then (k, value) :: rest
      else (k, v) :: setAttribute name value rest
  end.

(** [node.textContent]: the text of the descendants, in document order. *)
Fixpoint textContent (n : node) : string :=
  match n with
  | Text data => data
  | Comment _ => EmptyString
  | Element _ _ children =>
      (fix all (l : list node) : string :=
         match l with
         | [] => EmptyString
         | c :: l' => textContent c +:+ all l'
         end) children
  end.

(** [node.className]: the [class] attribute, empty when there is none. *)
Definition className (n : node) : string :=
  match n with
  | Element _ attrs _ => default EmptyString (getAttribute "class" attrs)
  | Text _ | Comment _ => EmptyString
  end.

End DOM.

(** ** Results

    A pure call returns or throws. *)

Inductive error :=
| HttpError (status : Z)          (* [new Error(`HTTP error! status: ...`)] *)
| Rejected (message : string).    (* anything thrown by a collaborator *)

Inductive Res (A : Type) :=
| Ok (a : A)
| Throw (e : error).
Arguments Ok {A} a.
Arguments Throw {A} e.

(** ** The code-block rule of the constructor *)

(** The labels lang-detector answers with. *)
Inductive Label :=
| JavaScript | C | Cpp | Python | Java | HTML | CSS | Ruby | Go | PHP | Unknown.

Class LangDetector := { detectLang : string -> Label }.

(** The rule table of a turndown service, as far as [addRule] and the choice
    of the rule for a node go. *)
Module Turndown.

Record Rule := { filter : node -> bool; replacement : string -> node -> string }.

(** [addRule(key, rule)] puts the rule in front of those added before. *)
Definition addRule (r : Rule) (rules : list Rule) : list Rule := r :: rules.

Fixpoint findRule (rules : list Rule) (n : node) (i : nat) : option nat :=
  match rules with
  | [] => None
  | r :: rest => if filter r n then Some i else findRule rest n (S i)
  end.

Inductive choice :=
| Blank                 (* the node is blank *)
| Added (i : nat)       (* the [i]-th rule of the table *)
| Fallback.             (* a keep, remove or default rule *)

(** [rules.forNode(node)]; [blank] is the service's [node.isBlank]. *)
Definition forNode (rules : list Rule) (blank : bool) (n : node) : choice :=
  if blank then Blank
  else match findRule rules n O with
       | Some i => Added i
       | None => Fallback
       end.

End Turndown.

Section CodeBlocks.
Context `{LangDetector}.

(** [filter: (node) => this.codeClasses.some(className =>
    node.className.indexOf(className) !== -1)] *)
Definition codeBlocks_filter (codeClasses : list string) (n : node) : bool :=
  existsb (fun className => negb (JS.indexOf (DOM.className n) className =? -1)) codeClasses.

(** [languageMap]; the label [Unknown] maps to the empty tag. *)
Definition languageMap (l : Label) : string :=
  match l with
  | JavaScript => "javascript"
  | C => "c"
  | Cpp => "cpp"
  | Python => "python"
  | Java => "java"
  | HTML => "html"
  | CSS => "css"
  | Ruby => "ruby"
  | Go => "go"
  | PHP => "php"
  | Unknown => EmptyString
  end.

(** [isJson(code)]: whether [JSON.parse(code)] returns. *)
Definition isJson (code : string) : bool :=
  match JSON.parse code with
  | Some _ => true
  | None => false
  end.

Definition CR : string := String (ascii_of_nat 13) EmptyString.
Definition LF : string := String (ascii_of_nat 10) EmptyString.
Definition CRLF : string := CR +:+ LF.

(** The [code] constant of the replacement. *)
Definition codeOf (n : node) : string :=
  JS.trim
    (JS.replaceAll CR LF
       (JS.replaceAll CRLF LF
          (JS.replaceAll "\n" LF (DOM.textContent n)))).

(** [replacement: (content, node) => ...] *)
Definition codeBlocks_replacement (content : string) (n : node) : string :=
  let code := codeOf n in
  let language := languageMap (detectLang code) in
  let language :=
    if negb (JS.truthy language) && isJson code then "json" else language in
  "```" +:+ (if JS.truthy language then language else EmptyString) +:+ LF
    +:+ code +:+ LF +:+ "```" +:+ LF +:+ LF.

Definition codeBlocks (codeClasses : list string) : Turndown.Rule :=
  {| Turndown.filter := codeBlocks_filter codeClasses;
     Turndown.replacement := codeBlocks_replacement |}.

(** The rule is the one chosen for [n] by a service that got it through
    [addRule] after the rules [rules]. *)
Definition codeBlocks_fires (codeClasses : list string) (rules : list Turndown.Rule)
    (blank : bool) (n : node) : Prop :=
  Turndown.forNode (Turndown.addRule (codeBlocks codeClasses) rules) blank n
  = Turndown.Added 0.

(** *** The fence as the specification words it

    Normalisation: backslash-n sequences become line breaks, then CRLF,
    then CR become LF, then the text is trimmed.  Tag: the lookup table's
    tag for the detected language, else [json] when the text parses as
    JSON, else empty. *)

Definition spec_normalize (text : string) : string :=
  let text := JS.replaceAll "\n" LF text in
  let text := JS.replaceAll CRLF LF text in
  let text := JS.replaceAll CR LF text in
  JS.trim text.

Definition spec_lookup (l : Label) : option string :=
  match l with
  | JavaScript => Some "javascript"
  | C => Some "c"
  | Cpp => Some "cpp"
  | Python => Some "python"
  | Java => Some "java"
  | HTML => Some "html"
  | CSS => Some "css"
  | Ruby => Some "ruby"
  | Go => Some "go"
  | PHP => Some "php"
  | Unknown => None
  end.

Definition spec_tag (code : string) : string :=
  match spec_lookup (detectLang code) with
  | Some tag => tag
  | None =>
      match JSON.parse code with
      | Some _ => "json"
      | None => EmptyString
      end
  end.

(** A fenced block followed by a blank line. *)
Definition spec_fence (tag body : string) : string :=
  "```" +:+ tag +:+ LF +:+ body +:+ LF +:+ "```" +:+ LF +:+ LF.

End CodeBlocks.

(** ** Collaborators *)

(** jsdom.  [JSDOM content] is the list of children of [document.body] after
    [new JSDOM(content)], with lower-case local names; [innerHTML] is
    [document.body.innerHTML]; [parseURL] parses a URL against the document's
    base ([about:blank]) and serialises it, [None] when parsing fails. *)
Class Jsdom := {
  JSDOM : string -> list node;
  innerHTML : list node -> string;
  parseURL : string -> option string }.

(** sanitize-filename and [path.join]. *)
Class Paths := {
  sanitize : string -> string;
  path_join : string -> string -> string }.

(** What ends up on disk. *)
Inductive data :=
| Binary (bytes : list Byte.byte)
| Utf8 (text : string).

Inductive fsop :=
| Mkdir (path : string)
| WriteFile (path : string) (d : data).

(** What the exporter prints. *)
Inductive event :=
| WarnDownloadFailed (imageUrl : string) (e : error)
| UpdatedLink (href newHref : string)
| DownloadedImages (count : nat) (postSlug : string)
| PluginsNotFound (missing available : list string)
| ConvertingPosts
| ProcessingPost (postSlug : string)
| Progress (converted total : nat)
| Exported (total : nat) (baseDir : string)
| ExportFailed (e : error).

(** The world outside the process: the requests made, the file-system
    operations carried out and the console, each oldest first. *)
Record World := {
  requests : list string;
  disk : list fsop;
  console : list event }.

(** [fetch] answers with a status and a body, or rejects; [fs_error] tells
    whether a file-system operation fails.  Both may depend on everything
    that happened before. *)
Class Env := {
  fetch : World -> string -> Res (Z * list Byte.byte);
  fs_error : World -> fsop -> option error }.

(** The collaborators answer the same whenever they are asked. *)
Definition steady `{Env} : Prop :=
  (forall w1 w2 url, fetch w1 url = fetch w2 url)
  /\ (forall w1 w2 op, fs_error w1 op = fs_error w2 op).

(** ** Computations

    An asynchronous method runs in a world and returns, throws, or ends
    the process ([process.exit]). *)

Inductive Out (A : Type) :=
| Return (a : A)
| Raise (e : error)
| Exit (code : Z).
Arguments Return {A} a.
Arguments Raise {A} e.
Arguments Exit {A} code.

Definition M (A : Type) : Type := World -> Out A * World.

Definition ret {A} (a : A) : M A := fun w => (Return a, w).

Definition bind {A B} (m : M A) (k : A -> M B) : M B :=
  fun w =>
    match m w with
    | (Return a, w') => k a w'
    | (Raise e, w') => (Raise e, w')
    | (Exit c, w') => (Exit c, w')
    end.

Definition throw {A} (e : error) : M A := fun w => (Raise e, w).

Definition exit {A} (code : Z) : M A := fun w => (Exit code, w).

Definition lift {A} (r : Res A) : M A :=
  fun w => (match r with Ok a => Return a | Throw e => Raise e end, w).

(** [try { m } catch (error) { handler(error) }] *)
Definition tryCatch {A} (m : M A) (handler : error -> M A) : M A :=
  fun w =>
    match m w with
    | (Raise e, w') => handler e w'
    | r => r
    end.

Declare Scope m_scope.
Delimit Scope m_scope with M.
Notation "'let*' x ':=' m 'in' k" := (bind m (fun x => k))
  (at level 10, x pattern, m at level 100, k at level 200) : m_scope.
Notation "m ';;' k" := (bind m (fun _ => k))
  (at level 100, k at level 200, right associativity) : m_scope.
Local Open Scope m_scope.

(** [for (const x of l) { acc = body(acc, x) }] *)
Fixpoint forOf {A B} (body : A -> B -> M A) (l : list B) (acc : A) : M A :=
  match l with
  | [] => ret acc
  | x :: rest => let* acc' := body acc x in forOf body rest acc'
  end.

(** [console.log(...)] and [console.error(...)] *)
Definition logged (e : event) (w : World) : World :=
  {| requests := requests w; disk := disk w; console := console w ++ [e] |}.

Definition log (e : event) : M unit := fun w => (Return tt, logged e w).

Section Effects.
Context `{Env}.

(** [await fetch(url)] *)
Definition doFetch (url : string) : M (Z * list Byte.byte) :=
  fun w =>
    lift (fetch w url)
      {| requests := requests w ++ [url]; disk := disk w; console := console w |}.

(** [await fs.mkdir(...)] and [await fs.writeFile(...)] *)
Definition doFs (op : fsop) : M unit :=
  fun w =>
    match fs_error w op with
    | Some e => (Raise e, w)
    | None =>
        (Return tt,
         {| requests := requests w; disk := disk w ++ [op]; console := console w |})
    end.

End Effects.

(** ** Post records, frontmatter and plugins *)

(** The values a frontmatter document holds. *)
Inductive value :=
| VString (s : string)
| VNumber (n : Z)
| VNames (names : list string)
| VNull
| VUndefined.

(** A frontmatter document: a JavaScript object with string keys, kept as
    its list of properties in insertion order. *)
Definition FrontMatter : Type := list (string * value).

Module Obj.

Definition keys (o : FrontMatter) : list string := map fst o.

Fixpoint get (k : string) (o : FrontMatter) : value :=
  match o with
  | [] => VUndefined
  | (k', v) :: rest => if String.eqb k' k then v else get k rest
  end.

(** [o.k = v], also one property of an object literal after a spread: an
    existing key keeps its position, a new key is added last. *)
Fixpoint set (k : string) (v : value) (o : FrontMatter) : FrontMatter :=
  match o with
  | [] => [(k, v)]
  | (k', v') :: rest =>
      if String.eqb k' k then (k', v) :: rest else (k', v') :: set k v rest
  end.

End Obj.

Record Term := { term_name : string }.
Record Author := { author_name : option string }.
Record Media := { source_url : string }.

(** [post._embedded]: the taxonomy groups, the authors and the featured
    media, each of which may be missing. *)
Record Embedded := {
  wp_term : option (list (list Term));
  embedded_author : option (list Author);
  wp_featuredmedia : option (list Media) }.

Record Yoast := { description : value }.

Record Post := {
  slug : string;
  title_rendered : string;
  date : string;
  modified : string;
  status : string;
  content_rendered : string;
  excerpt_rendered : string;
  author : value;
  _embedded : option Embedded;
  yoast_head_json : option Yoast }.

(** A plugin class: its static name and its three static hooks, any of
    which may throw. *)
Record Plugin := {
  name : string;
  processFrontMatter : FrontMatter -> Post -> Res FrontMatter;
  processHtml : string -> gmap string string -> Res string;
  processMarkdown : string -> Res string }.

(** turndown: [turndown keep rule html] is [service.turndown(html)] for the
    service of the constructor (ATX headings, fenced code, the gfm plugin),
    keeping the tags [keep] and having [rule] added last. *)
Class TurndownService := {
  turndown : list string -> Turndown.Rule -> string -> Res string }.

(** js-yaml with its default options: [dumpEntry k v] is what [yaml.dump]
    writes for the property [k: v] of a top-level mapping, line break
    included. *)
Class Yaml := { dumpEntry : string -> value -> Res string }.

(** The fields of the exporter object that the pipeline reads. *)
Record Exporter := {
  wpUrl : string;
  baseDir : string;
  imagesDir : string;
  codeClasses : list string;
  preserveTags : list string;
  plugins : list string;
  loadedPlugins : list Plugin }.

(** The arguments of the constructor; [None] is a missing option. *)
Record Config := {
  config_wpUrl : string;
  config_outputDir : string;
  config_imagesDir : string;
  config_codeClasses : option (list string);
  config_preserveTags : option (list string);
  config_plugins : option (list string) }.

(** [constructor(config)] *)
Definition WordPressExporter (config : Config) : Exporter :=
  {| wpUrl := JS.stripTrailingSlash (config_wpUrl config);
     baseDir := config_outputDir config;
     imagesDir := config_imagesDir config;
     codeClasses := default [] (config_codeClasses config);
     preserveTags := default [] (config_preserveTags config);
     plugins := default [] (config_plugins config);
     loadedPlugins := [] |}.

(** ** Walking a document *)

Module Walk.

Definition attrs : Type := list (string * string).

(** [getElementsByTagName(tag)]: the attribute lists of the elements
    named [tag], in document order. *)
Fixpoint elements (tag : string) (n : node) : list attrs :=
  match n with
  | Text _ | Comment _ => []
  | Element t a children =>
      (if String.eqb t tag then [a] else [])
        ++ (fix all (l : list node) : list attrs :=
              match l with
              | [] => []
              | c :: l' => elements tag c ++ all l'
              end) children
  end.

Definition elementsOf (tag : string) (doc : list node) : list attrs :=
  flat_map (elements tag) doc.

Section Loop.
Context {A : Type}.
Variable tag : string.
Variable body : attrs -> A -> M (attrs * A).

(** [for (const el of getElementsByTagName(tag)) body]: the loop body
    reads and writes the attributes of the element it is given and the
    loop's variables [acc]. *)
Fixpoint visit (n : node) (acc : A) : M (node * A) :=
  match n with
  | Text d => ret (Text d, acc)
  | Comment d => ret (Comment d, acc)
  | Element t a children =>
      let* (a', acc1) := (if String.eqb t tag then body a acc else ret (a, acc)) in
      let* (children', acc2) :=
        (fix visitAll (doc : list node) (acc : A) : M (list node * A) :=
           match doc with
           | [] => ret ([], acc)
           | c :: rest =>
               let* (c', acc') := visit c acc in
               let* (rest', acc'') := visitAll rest acc' in
               ret (c' :: rest', acc'')
           end) children acc1 in
      ret (Element t a' children', acc2)
  end.

Fixpoint visitAll (doc : list node) (acc : A) : M (list node * A) :=
  match doc with
  | [] => ret ([], acc)
  | c :: rest =>
      let* (c', acc') := visit c acc in
      let* (rest', acc'') := visitAll rest acc' in
      ret (c' :: rest', acc'')
  end.

(** The same loop over the collection alone. *)
Fixpoint loop (l : list attrs) (acc : A) : M (list attrs * A) :=
  match l with
  | [] => ret ([], acc)
  | a :: rest =>
      let* (a', acc') := body a acc in
      let* (rest', acc'') := loop rest acc' in
      ret (a' :: rest', acc'')
  end.

(** A loop body that always returns. *)
Definition total : Prop :=
  forall a acc w, exists a' acc' w', body a acc w = (Return (a', acc'), w').

(** Walking [doc] did what the loop over the collection does: the
    elements named [tag] got the attributes the loop computes, the loop
    variables and the world ended up the same, and no other element
    changed. *)
Definition walked (doc doc' : list node) (acc acc' : A) (w w' : World) : Prop :=
  loop (elementsOf tag doc) acc w = (Return (elementsOf tag doc', acc'), w')
  /\ forall tag', tag' <> tag -> elementsOf tag' doc' = elementsOf tag' doc.

End Loop.

End Walk.

(** ** The methods of [WordPressExporter] *)

Section Exporter.
Context `{Jsdom} `{Paths} `{Env} `{LangDetector} `{TurndownService} `{Yaml}.
Variable self : Exporter.

(** [element.src] and [element.href]: the attribute read as a URL. *)
Definition urlProperty (name : string) (a : Walk.attrs) : string :=
  match DOM.getAttribute name a with
  | None => EmptyString
  | Some v => default v (parseURL v)
  end.

(** [response.ok] *)
Definition ok (status : Z) : bool := (200 <=? status) && (status <=? 299).

(** The path [downloadImage] writes to and returns. *)
Definition imagePathOf (imageUrl postSlug : string) : string :=
  let urlParts := JS.split "/" imageUrl in
  let originalFilename := JS.lastOf urlParts in
  let postImageDir := path_join (imagesDir self) (sanitize postSlug) in
  path_join postImageDir (sanitize originalFilename).

(** [async downloadImage(imageUrl, postSlug)]; [None] is [null]. *)
Definition downloadImage (imageUrl postSlug : string) : M (option string) :=
  tryCatch
    (let* response := doFetch imageUrl in
     let (status, buffer) := response in
     if negb (ok status) then throw (HttpError status)
     else
       let urlParts := JS.split "/" imageUrl in
       let originalFilename := JS.lastOf urlParts in
       let postImageDir := path_join (imagesDir self) (sanitize postSlug) in
       doFs (Mkdir postImageDir) ;;
       let imagePath := path_join postImageDir (sanitize originalFilename) in
       doFs (WriteFile imagePath (Binary buffer)) ;;
       ret (Some imagePath))
    (fun error => log (WarnDownloadFailed imageUrl error) ;; ret None).

(** The loop variables of [processImages]. *)
Record Images := {
  downloadedImages : list string;
  imageUrlMap : gmap string string }.

(** The body of the first loop, for one [img]. *)
Definition firstPass (postSlug : string) (img : Walk.attrs) (acc : Images)
  : M (Walk.attrs * Images) :=
  let imageUrl := urlProperty "src" img in
  if negb (JS.truthy imageUrl) then ret (img, acc)
  else
    let* newPath := downloadImage imageUrl postSlug in
    match newPath with
    | Some newPath =>
        if JS.truthy newPath
        then ret (DOM.setAttribute "src" newPath img,
                  {| downloadedImages := downloadedImages acc ++ [newPath];
                     imageUrlMap := <[imageUrl := newPath]> (imageUrlMap acc) |})
        else ret (img, acc)
    | None => ret (img, acc)
    end.

(** The body of the second loop, for one [a]. *)
Definition secondPass (urlMap : gmap string string) (link : Walk.attrs) (acc : unit)
  : M (Walk.attrs * unit) :=
  let href := urlProperty "href" link in
  if JS.truthy href
  then
    match urlMap !! href with
    | Some newPath =>
        let link' := DOM.setAttribute "href" newPath link in
        log (UpdatedLink href (urlProperty "href" link')) ;;
        ret (link', acc)
    | None => ret (link, acc)
    end
  else ret (link, acc).

(** [async processImages(content, postSlug)]: the mapping and the
    rewritten markup. *)
Definition processImages (content postSlug : string) : M (gmap string string * string) :=
  let dom := JSDOM content in
  let* (dom, acc) :=
    Walk.visitAll "img" (firstPass postSlug) dom
      {| downloadedImages := []; imageUrlMap := ∅ |} in
  let* (dom, _) := Walk.visitAll "a" (secondPass (imageUrlMap acc)) dom tt in
  log (DownloadedImages (length (downloadedImages acc)) postSlug) ;;
  ret (imageUrlMap acc, innerHTML dom).

(** [extractTermNames(terms)] *)
Definition extractTermNames (terms : option (list Term)) : list string :=
  match terms with
  | Some terms => map term_name terms
  | None => []
  end.

(** [async extractFeaturedImage(post, imageUrlMap)] *)
Definition extractFeaturedImage (post : Post) (urlMap : gmap string string)
  : M (option string) :=
  match (_embedded post ≫= wp_featuredmedia) ≫= (λ media, media !! 0%nat) with
  | None => ret None
  | Some embeddedMedia =>
      let sourceUrl := source_url embeddedMedia in
      match urlMap !! sourceUrl with
      | Some path => ret (Some path)
      | None => downloadImage sourceUrl (slug post)
      end
  end.

(** The object literal of [createFrontMatter] with the optional
    [featured_image] property. *)
Definition baseFrontMatter (post : Post) (featuredMediaUrl : option string) : FrontMatter :=
  let categories := extractTermNames ((_embedded post ≫= wp_term) ≫= (λ groups, groups !! 0%nat)) in
  let tags := extractTermNames ((_embedded post ≫= wp_term) ≫= (λ groups, groups !! 1%nat)) in
  let author :=
    match ((_embedded post ≫= embedded_author) ≫= (λ authors, authors !! 0%nat)) ≫= author_name with
    | Some n => if JS.truthy n then VString n else author post
    | None => author post
    end in
  let frontMatter :=
    [ ("title", VString (title_rendered post));
      ("date", VString (date post));
      ("modified", VString (modified post));
      ("slug", VString (slug post));
      ("status", VString (status post));
      ("categories", VNames categories);
      ("tags", VNames tags);
      ("author", author);
      ("excerpt", VString (excerpt_rendered post));
      ("original_url", VString (wpUrl self +:+ "/" +:+ slug post)) ] in
  match featuredMediaUrl with
  | Some url =>
      if JS.truthy url then Obj.set "featured_image" (VString url) frontMatter
      else frontMatter
  | None => frontMatter
  end.

(** [yaml.dump(frontMatter)] *)
Fixpoint dumpEntries (o : FrontMatter) : Res string :=
  match o with
  | [] => Ok EmptyString
  | (k, v) :: rest =>
      match dumpEntry k v with
      | Ok line =>
          match dumpEntries rest with
          | Ok lines => Ok (line +:+ lines)
          | r => r
          end
      | r => r
      end
  end.

Definition yaml_dump (o : FrontMatter) : Res string :=
  match o with
  | [] => Ok ("{}" +:+ LF)
  | _ => dumpEntries o
  end.

(** [async createFrontMatter(post, imageUrlMap)] *)
Definition createFrontMatter (post : Post) (urlMap : gmap string string) : M string :=
  let* featuredMediaUrl := extractFeaturedImage post urlMap in
  let frontMatter := baseFrontMatter post featuredMediaUrl in
  let* frontMatter :=
    forOf (fun frontMatter plugin => lift (processFrontMatter plugin frontMatter post))
      (loadedPlugins self) frontMatter in
  let* dumped := lift (yaml_dump frontMatter) in
  ret ("---" +:+ LF +:+ dumped +:+ "---" +:+ LF +:+ LF).

(** [async convertPostToMarkdown(post)] *)
Definition convertPostToMarkdown (post : Post) : M string :=
  let rawHtml := content_rendered post in
  let* (urlMap, content) := processImages rawHtml (slug post) in
  let* processedHtml :=
    forOf (fun processedHtml plugin => lift (processHtml plugin processedHtml urlMap))
      (loadedPlugins self) content in
  let* markdown :=
    lift (turndown (preserveTags self) (codeBlocks (codeClasses self)) processedHtml) in
  let* markdown :=
    forOf (fun markdown plugin => lift (processMarkdown plugin markdown))
      (loadedPlugins self) markdown in
  let* frontMatter := createFrontMatter post urlMap in
  ret (frontMatter +:+ markdown).

End Exporter.

(** The plugin loader and the paginated crawl of the content source. *)
Class Sources := {
  loadPlugins : M (list Plugin);
  fetchPosts : Exporter -> M (list Post) }.

Section Run.
Context `{Jsdom} `{Paths} `{Env} `{LangDetector} `{TurndownService} `{Yaml} `{Sources}.

(** The loop of [_loadPlugins]: the names not found and the plugins
    found, each in the order of [this.plugins]. *)
Fixpoint resolvePlugins (allPlugins : list Plugin) (names : list string)
  : list string * list Plugin :=
  match names with
  | [] => ([], [])
  | pluginName :: rest =>
      let (missing, found) := resolvePlugins allPlugins rest in
      match List.find (fun p => String.eqb (name p) pluginName) allPlugins with
      | None => (pluginName :: missing, found)
      | Some plugin => (missing, plugin :: found)
      end
  end.

(** [async _loadPlugins()]; the result is [this] with the plugins pushed
    to [loadedPlugins]. *)
Definition _loadPlugins (self : Exporter) : M Exporter :=
  let* allPlugins := loadPlugins in
  let (missingPlugins, found) := resolvePlugins allPlugins (plugins self) in
  let self' :=
    {| wpUrl := wpUrl self; baseDir := baseDir self; imagesDir := imagesDir self;
       codeClasses := codeClasses self; preserveTags := preserveTags self;
       plugins := plugins self; loadedPlugins := loadedPlugins self ++ found |} in
  match missingPlugins with
  | [] => ret self'
  | _ => log (PluginsNotFound missingPlugins (map name allPlugins)) ;; exit 1
  end.

(** [async init()] *)
Definition init (self : Exporter) : M Exporter :=
  doFs (Mkdir (baseDir self)) ;;
  doFs (Mkdir (imagesDir self)) ;;
  _loadPlugins self.

(** The body of the loop of [exportPosts] for one post; [converted] is
    the counter. *)
Definition exportPost (self : Exporter) (total : nat) (converted : nat) (post : Post)
  : M nat :=
  log (ProcessingPost (slug post)) ;;
  let* markdown := convertPostToMarkdown self post in
  let filename := sanitize (slug post) +:+ ".md" in
  let filePath := path_join (baseDir self) filename in
  doFs (WriteFile filePath (Utf8 markdown)) ;;
  let converted := S converted in
  log (Progress converted total) ;;
  ret converted.

(** [async exportPosts()] *)
Definition exportPosts (self : Exporter) : M unit :=
  tryCatch
    (let* self := init self in
     let* posts := fetchPosts self in
     log ConvertingPosts ;;
     let* _ := forOf (exportPost self (length posts)) posts O in
     log (Exported (length posts) (baseDir self)))
    (fun error => log (ExportFailed error) ;; exit 1).

End Run.

(** The Markdown documents written so far, oldest first. *)
Definition documents (w : World) : list (string * string) :=
  flat_map (fun op => match op with
                      | WriteFile path (Utf8 text) => [(path, text)]
                      | _ => []
                      end) (disk w).

(** The image files written so far, oldest first. *)
Definition imageFiles (w : World) : list (string * list Byte.byte) :=
  flat_map (fun op => match op with
                      | WriteFile path (Binary bytes) => [(path, bytes)]
                      | _ => []
                      end) (disk w).

(** ** The vocabulary of the properties *)

(** [c] occurs in [s]. *)
Definition occursIn (c s : string) : Prop := exists pre post, s = pre +:+ c +:+ post.

(** The character [c] occurs in [s]. *)
Fixpoint hasChar (c : ascii) (s : string) : bool :=
  match s with
  | EmptyString => false
  | String c' s' => Ascii.eqb c c' || hasChar c s'
  end.

(** The first and the last character of a string, if any. *)
Definition firstChar (s : string) : option ascii :=
  match s with
  | String c _ => Some c
  | EmptyString => None
  end.

Fixpoint lastChar (s : string) : option ascii :=
  match s with
  | EmptyString => None
  | String c EmptyString => Some c
  | String _ s' => lastChar s'
  end.

(** Every CRLF and every other CR is one LF. *)
Fixpoint toLF (s : string) : string :=
  match s with
  | EmptyString => EmptyString
  | String c s' =>
      if Ascii.eqb c (ascii_of_nat 13)
      then String (ascii_of_nat 10)
             match s' with
             | String c' s'' => if Ascii.eqb c' (ascii_of_nat 10) then toLF s'' else toLF s'
             | EmptyString => EmptyString
             end
      else String c (toLF s')
  end.

(** [pieces.join(sep)] *)
Fixpoint joinWith (sep : ascii) (pieces : list string) : string :=
  match pieces with
  | [] => EmptyString
  | [piece] => piece
  | piece :: rest => piece +:+ String sep (joinWith sep rest)
  end.

(** The world [w'] only has more on disk than [w], and what was added is no
    Markdown document. *)
Definition growsBinary (w w' : World) : Prop :=
  exists extra,
    disk w' = disk w ++ extra
    /\ Forall (fun op => match op with WriteFile _ (Utf8 _) => False | _ => True end) extra.

(** A computation that adds nothing but directories and image files to the
    disk, however it ends. *)
Definition binaryOnly {A} (m : M A) : Prop :=
  forall w r w', m w = (r, w') -> growsBinary w w'.

(** A left-to-right fold of one hook over the plugin list: each plugin gets
    what the one before it returned, and a plugin that throws ends it. *)
Definition applyHooks {A} (hook : Plugin -> A -> Res A) (plugins : list Plugin) (x : A)
  : Res A :=
  fold_left (fun r plugin => match r with
                             | Ok a => hook plugin a
                             | Throw e => Throw e
                             end) plugins (Ok x).

(** The keys of every frontmatter document, in order, before the optional
    one. *)
Definition fixedKeys : list string :=
  ["title"; "date"; "modified"; "slug"; "status"; "categories"; "tags"; "author";
   "excerpt"; "original_url"].

(** The featured image resolved: a path came back, and as a non-empty
    string it passes the test [if (featuredMediaUrl)]. *)
Definition resolved (featuredMediaUrl : option string) : Prop :=
  exists url, featuredMediaUrl = Some url /\ url <> EmptyString.

Section AssetVocabulary.
Context `{Jsdom} `{Paths} `{Env}.
Variable self : Exporter.
Variable postSlug : string.

(** What holds of the mapping at every point of the first loop: a key is
    a non-empty URL, its value is the path [downloadImage] computes for
    it, and a file was written there. *)
Definition recorded (urlMap : gmap string string) (w : World) : Prop :=
  forall url p,
    urlMap !! url = Some p ->
    p = imagePathOf self url postSlug
    /\ JS.truthy url = true
    /\ exists bytes, In (WriteFile p (Binary bytes)) (disk w).

(** Every key of the mapping is a URL whose download succeeds. *)
Definition fetchable (urlMap : gmap string string) : Prop :=
  forall url p w,
    urlMap !! url = Some p ->
    fst (downloadImage self url postSlug w) = Return (Some p) /\ JS.truthy p = true.

(** What the first loop may do to one [img], given the final mapping. *)
Definition imgRewritten (urlMap : gmap string string) (img img' : Walk.attrs) : Prop :=
  img' = img
  \/ exists p, urlMap !! urlProperty "src" img = Some p
               /\ img' = DOM.setAttribute "src" p img.

(** What the second loop does to one [a]. *)
Definition rewriteLink (urlMap : gmap string string) (link : Walk.attrs) : Walk.attrs :=
  let href := urlProperty "href" link in
  if JS.truthy href
  then match urlMap !! href with
       | Some newPath => DOM.setAttribute "href" newPath link
       | None => link
       end
  else link.

End AssetVocabulary.

Section PipelineVocabulary.
Context `{Jsdom} `{Paths} `{Env} `{LangDetector} `{TurndownService} `{Yaml}.
Variable self : Exporter.

(** The path of the document of a post. *)
Definition documentPath (post : Post) : string :=
  path_join (baseDir self) (sanitize (slug post) +:+ ".md").

(** [createFrontMatter] and [convertPostToMarkdown] with each loop over
    the plugins written as that fold. *)
Definition foldedFrontMatter (post : Post) (urlMap : gmap string string) : M string :=
  let* featuredMediaUrl := extractFeaturedImage self post urlMap in
  let* frontMatter :=
    lift (applyHooks (fun plugin frontMatter => processFrontMatter plugin frontMatter post)
            (loadedPlugins self) (baseFrontMatter self post featuredMediaUrl)) in
  let* dumped := lift (yaml_dump frontMatter) in
  ret ("---" +:+ LF +:+ dumped +:+ "---" +:+ LF +:+ LF).

Definition foldedPipeline (post : Post) : M string :=
  let* (urlMap, content) := processImages self (content_rendered post) (slug post) in
  let* processedHtml :=
    lift (applyHooks (fun plugin html => processHtml plugin html urlMap)
            (loadedPlugins self) content) in
  let* markdown :=
    lift (turndown (preserveTags self) (codeBlocks (codeClasses self)) processedHtml) in
  let* markdown := lift (applyHooks processMarkdown (loadedPlugins self) markdown) in
  let* frontMatter := foldedFrontMatter post urlMap in
  ret (frontMatter +:+ markdown).

End PipelineVocabulary.

(** Computes [+:+] on strings that start with known characters, in the goal
    and in the hypotheses. *)
Ltac unfold_append :=
  repeat match goal with
    | |- context [String ?c ?s +:+ ?t] =>
        change (String c s +:+ t) with (String c (s +:+ t))
    | |- context [EmptyString +:+ ?t] => change (EmptyString +:+ t) with t
    | H : context [String ?c ?s +:+ ?t] |- _ =>
        change (String c s +:+ t) with (String c (s +:+ t)) in H
    | H : context [EmptyString +:+ ?t] |- _ => change (EmptyString +:+ t) with t in H
    end.

(** ** The bundled plugins *)

Definition TypeError (message : string) : error := Rejected ("TypeError: " +:+ message).

(** [YoastPlugin]: replaces the excerpt by the Yoast description. *)
Definition YoastPlugin : Plugin :=
  {| name := "Yoast";
     processFrontMatter := fun extractedMetadata postContent =>
       match yoast_head_json postContent with
       | None => Throw (TypeError "Cannot read properties of undefined (reading 'description')")
       | Some yoast => Ok (Obj.set "excerpt" (description yoast) extractedMetadata)
       end;
     processHtml := fun html _ => Ok html;
     processMarkdown := fun markdown => Ok markdown |}.

(** [ExampleFixPathsPlugin], the variant that rewrites the image paths in
    the frontmatter and in the Markdown. *)
Module ExampleFixPathsPlugin.

Definition _replaceUrl (content : string) : string :=
  JS.replaceAll "static/images/blogs/" "/images/blogs/" content.

Definition plugin : Plugin :=
  {| name := "ExampleFixPaths";
     processFrontMatter := fun extractedMetadata _ =>
       match Obj.get "featured_image" extractedMetadata with
       | VNull | VUndefined => Ok (Obj.set "featured_image" VNull extractedMetadata)
       | VString url =>
           Ok (Obj.set "featured_image" (VString (_replaceUrl url)) extractedMetadata)
       | _ => Throw (TypeError "content.replace is not a function")
       end;
     processHtml := fun html _ => Ok html;
     processMarkdown := fun markdown => Ok (_replaceUrl markdown) |}.

End ExampleFixPathsPlugin.

(** [ExampleFixPathsPlugin], the variant that rewrites the Markdown only. *)
Module ExampleFixPathsMarkdown.

Definition plugin : Plugin :=
  {| name := "ExampleFixPaths";
     processFrontMatter := fun extractedMetadata _ => Ok extractedMetadata;
     processHtml := fun html _ => Ok html;
     processMarkdown := fun markdown =>
       Ok (JS.replaceAll "images/" "/images/blogs/" markdown) |}.

End ExampleFixPathsMarkdown.

(** ** One concrete set of collaborators

    Small executable stand-ins, each covering the inputs of the examples:
    well-nested markup made of tags with attributes, comments and text (no
    raw-text elements, the five character references below), absolute
    http(s) URLs in normal form, file names and path segments that need no
    clean-up. *)

Module Sample.

(** *** Markup *)

Inductive token :=
| TText (s : string)
| TComment (s : string)
| TStart (name : string) (a : Walk.attrs)
| TEnd (name : string).

Inductive mode :=
| Data | TagOpen | EndTagOpen | TagName | BeforeAttr | AttrName | AfterAttrName
| BeforeValue | ValueDQ | ValueSQ | ValueUnq | AfterValueQ | SelfClosing
| Bang | BangDash | InComment | CommentDash | CommentDashDash.

(** The text and the tag being read. *)
Record acc := {
  text : string;
  isEnd : bool;
  tagName : string;
  tagAttrs : Walk.attrs;
  attrName : string;
  attrValue : string }.

Definition snoc (s : string) (c : ascii) : string := s +:+ String c EmptyString.

Definition lower (c : ascii) : ascii :=
  let n := nat_of_ascii c in
  if ((65 <=? n) && (n <=? 90))%nat then ascii_of_nat (n + 32) else c.

Definition isLetter (c : ascii) : bool :=
  let n := nat_of_ascii (lower c) in ((97 <=? n) && (n <=? 122))%nat.

Definition isBlank (c : ascii) : bool :=
  let n := nat_of_ascii c in ((n =? 9) || (n =? 10) || (n =? 12) || (n =? 13) || (n =? 32))%nat.

Definition decodeRefs (s : string) : string :=
  JS.replaceAll "&amp;" "&"
    (JS.replaceAll "&nbsp;" (String (ascii_of_nat 160) EmptyString)
       (JS.replaceAll "&quot;" JS.DQUOTE
          (JS.replaceAll "&gt;" ">" (JS.replaceAll "&lt;" "<" s)))).

Definition emptyAcc : acc :=
  {| text := EmptyString; isEnd := false; tagName := EmptyString; tagAttrs := [];
     attrName := EmptyString; attrValue := EmptyString |}.

Definition withText (s : string) (a : acc) : acc :=
  {| text := s; isEnd := isEnd a; tagName := tagName a; tagAttrs := tagAttrs a;
     attrName := attrName a; attrValue := attrValue a |}.

Definition newTag (e : bool) (c : ascii) : acc :=
  {| text := EmptyString; isEnd := e; tagName := String (lower c) EmptyString; tagAttrs := [];
     attrName := EmptyString; attrValue := EmptyString |}.

Definition withTagName (s : string) (a : acc) : acc :=
  {| text := text a; isEnd := isEnd a; tagName := s; tagAttrs := tagAttrs a;
     attrName := attrName a; attrValue := attrValue a |}.

Definition withAttr (n v : string) (a : acc) : acc :=
  {| text := text a; isEnd := isEnd a; tagName := tagName a; tagAttrs := tagAttrs a;
     attrName := n; attrValue := v |}.

(** The attribute being read is complete; a repeated name is dropped. *)
Definition finishAttr (a : acc) : acc :=
  {| text := text a; isEnd := isEnd a; tagName := tagName a;
     tagAttrs :=
       match attrName a, DOM.getAttribute (attrName a) (tagAttrs a) with
       | EmptyString, _ | _, Some _ => tagAttrs a
       | n, None => tagAttrs a ++ [(n, decodeRefs (attrValue a))]
       end;
     attrName := EmptyString; attrValue := EmptyString |}.

Definition emitTag (a : acc) : list token :=
  let a := finishAttr a in
  if isEnd a then [TEnd (tagName a)] else [TStart (tagName a) (tagAttrs a)].

Definition emitText (a : acc) : list token :=
  match text a with
  | EmptyString => []
  | s => [TText (decodeRefs s)]
  end.

Definition beforeAttr (a : acc) (c : ascii) : mode * acc * list token :=
  if isBlank c then (BeforeAttr, a, [])
  else if Ascii.eqb c "/" then (SelfClosing, a, [])
  else if Ascii.eqb c ">" then (Data, emptyAcc, emitTag a)
  else (AttrName, withAttr (String (lower c) EmptyString) EmptyString a, []).

Definition tstep (m : mode) (a : acc) (c : ascii) : mode * acc * list token :=
  match m with
  | Data =>
      if Ascii.eqb c "<" then (TagOpen, a, [])
      else (Data, withText (snoc (text a) c) a, [])
  | TagOpen =>
      if Ascii.eqb c "/" then (EndTagOpen, a, [])
      else if Ascii.eqb c "!" then (Bang, a, [])
      else if isLetter c then (TagName, newTag false c, emitText a)
      else (Data, withText (snoc (snoc (text a) "<") c) a, [])
  | Bang =>
      if Ascii.eqb c "-" then (BangDash, a, [])
      else (Data, withText (snoc (text a) c) a, [])
  | BangDash =>
      if Ascii.eqb c "-" then (InComment, withAttr EmptyString EmptyString a, emitText a)
      else (Data, withText (snoc (text a) c) a, [])
  | InComment =>
      if Ascii.eqb c "-" then (CommentDash, a, [])
      else (InComment, withAttr EmptyString (snoc (attrValue a) c) a, [])
  | CommentDash =>
      if Ascii.eqb c "-" then (CommentDashDash, a, [])
      else (InComment, withAttr EmptyString (snoc (snoc (attrValue a) "-") c) a, [])
  | CommentDashDash =>
      if Ascii.eqb c ">" then (Data, emptyAcc, [TComment (attrValue a)])
      else if Ascii.eqb c "-" then
        (CommentDashDash, withAttr EmptyString (snoc (attrValue a) "-") a, [])
      else (InComment,
            withAttr EmptyString (snoc (snoc (snoc (attrValue a) "-") "-") c) a, [])
  | EndTagOpen =>
      if isLetter c then (TagName, newTag true c, emitText a)
      else (Data, a, [])
  | TagName =>
      if isBlank c then (BeforeAttr, a, [])
      else if Ascii.eqb c "/" then (SelfClosing, a, [])
      else if Ascii.eqb c ">" then (Data, emptyAcc, emitTag a)
      else (TagName, withTagName (snoc (tagName a) (lower c)) a, [])
  | BeforeAttr => beforeAttr a c
  | AttrName =>
      if isBlank c then (AfterAttrName, a, [])
      else if Ascii.eqb c "/" then (SelfClosing, finishAttr a, [])
      else if Ascii.eqb c "=" then (BeforeValue, a, [])
      else if Ascii.eqb c ">" then (Data, emptyAcc, emitTag a)
      else (AttrName, withAttr (snoc (attrName a) (lower c)) EmptyString a, [])
  | AfterAttrName =>
      if Ascii.eqb c "=" then (BeforeValue, a, [])
      else beforeAttr (finishAttr a) c
  | BeforeValue =>
      if isBlank c then (BeforeValue, a, [])
      else if Ascii.eqb c JS.dquote then (ValueDQ, a, [])
      else if Ascii.eqb c "'" then (ValueSQ, a, [])
      else if Ascii.eqb c ">" then (Data, emptyAcc, emitTag a)
      else (ValueUnq, withAttr (attrName a) (String c EmptyString) a, [])
  | ValueDQ =>
      if Ascii.eqb c JS.dquote then (AfterValueQ, finishAttr a, [])
      else (ValueDQ, withAttr (attrName a) (snoc (attrValue a) c) a, [])
  | ValueSQ =>
      if Ascii.eqb c "'" then (AfterValueQ, finishAttr a, [])
      else (ValueSQ, withAttr (attrName a) (snoc (attrValue a) c) a, [])
  | ValueUnq =>
      if isBlank c then (BeforeAttr, finishAttr a, [])
      else if Ascii.eqb c ">" then (Data, emptyAcc, emitTag a)
      else (ValueUnq, withAttr (attrName a) (snoc (attrValue a) c) a, [])
  | AfterValueQ => beforeAttr a c
  | SelfClosing => beforeAttr a c
  end.

Fixpoint tokenize (m : mode) (a : acc) (s : string) : list token :=
  match s with
  | EmptyString =>
      match m with
      | Data => emitText a
      | TagOpen => emitText (withText (snoc (text a) "<") a)
      | InComment | CommentDash | CommentDashDash => [TComment (attrValue a)]
      | _ => []
      end
  | String c s' =>
      let '(m', a', out) := tstep m a c in
      out ++ tokenize m' a' s'
  end.

Definition voidElements : list string :=
  ["area"; "base"; "br"; "col"; "embed"; "hr"; "img"; "input"; "link"; "meta";
   "source"; "track"; "wbr"].

Definition isVoid (t : string) : bool := existsb (String.eqb t) voidElements.

(** An open element: its name, its attributes and the children its parent
    had before it, newest first. *)
Definition frame : Type := string * Walk.attrs * list node.

(** Close the open elements up to the innermost one named [t]. *)
Fixpoint closeUpTo (t : string) (stack : list frame) (cur : list node)
  : option (list frame * list node) :=
  match stack with
  | [] => None
  | (n, a, before) :: up =>
      let cur' := Element n a (rev cur) :: before in
      if String.eqb n t then Some (up, cur') else closeUpTo t up cur'
  end.

Fixpoint closeAll (stack : list frame) (cur : list node) : list node :=
  match stack with
  | [] => rev cur
  | (n, a, before) :: up => closeAll up (Element n a (rev cur) :: before)
  end.

Fixpoint build (toks : list token) (stack : list frame) (cur : list node) : list node :=
  match toks with
  | [] => closeAll stack cur
  | TText s :: rest => build rest stack (Text s :: cur)
  | TComment s :: rest => build rest stack (Comment s :: cur)
  | TStart t a :: rest =>
      if isVoid t then build rest stack (Element t a [] :: cur)
      else build rest ((t, a, cur) :: stack) []
  | TEnd t :: rest =>
      match closeUpTo t stack cur with
      | Some (stack', cur') => build rest stack' cur'
      | None => build rest stack cur
      end
  end.

Definition parse (content : string) : list node :=
  build (tokenize Data emptyAcc content) [] [].

Definition escape (inAttribute : bool) (s : string) : string :=
  let s := JS.replaceAll "&" "&amp;" s in
  let s := JS.replaceAll (String (ascii_of_nat 160) EmptyString) "&nbsp;" s in
  if inAttribute then JS.replaceAll JS.DQUOTE "&quot;" s
  else JS.replaceAll ">" "&gt;" (JS.replaceAll "<" "&lt;" s).

Definition serializeAttrs (a : Walk.attrs) : string :=
  fold_right (fun '(k, v) out => " " +:+ k +:+ "=" +:+ JS.DQUOTE +:+ escape true v +:+ JS.DQUOTE +:+ out)
    EmptyString a.

Fixpoint serialize (n : node) : string :=
  match n with
  | Text d => escape false d
  | Comment d => "<!--" +:+ d +:+ "-->"
  | Element t a children =>
      "<" +:+ t +:+ serializeAttrs a +:+ ">"
        +:+ (if isVoid t then EmptyString
             else (fix all (l : list node) : string :=
                     match l with
                     | [] => EmptyString
                     | c :: l' => serialize c +:+ all l'
                     end) children +:+ "</" +:+ t +:+ ">")
  end.

Definition serializeAll (doc : list node) : string :=
  fold_right (fun n out => serialize n +:+ out) EmptyString doc.

Definition absoluteURL (v : string) : option string :=
  if JS.startsWith "http://" v || JS.startsWith "https://" v then Some v else None.

#[export] Instance jsdom : Jsdom :=
  {| JSDOM := parse; innerHTML := serializeAll; parseURL := absoluteURL |}.

(** *** Paths *)

(** The characters sanitize-filename removes from a name. *)
Definition illegal (c : ascii) : bool :=
  let n := nat_of_ascii c in
  ((n <? 32) || (128 <=? n) && (n <=? 159))%nat
  || existsb (Ascii.eqb c) ["/"; "?"; "<"; ">"; "\"; ":"; "*"; "|"; JS.dquote]%char.

Fixpoint clean (s : string) : string :=
  match s with
  | EmptyString => EmptyString
  | String c s' => if illegal c then clean s' else String c (clean s')
  end.

(** [path.join] of two segments that need no normalising: empty segments
    are skipped and an empty result is the current directory. *)
Definition join (a b : string) : string :=
  match a, b with
  | EmptyString, EmptyString => "."
  | EmptyString, _ => b
  | _, EmptyString => a
  | _, _ => a +:+ "/" +:+ b
  end.

#[export] Instance paths : Paths := {| sanitize := clean; path_join := join |}.

(** *** Language detection, conversion, YAML *)

(** Python for a snippet that starts with a [print(] call, no answer
    otherwise. *)
#[export] Instance detector : LangDetector :=
  {| detectLang := fun code => if JS.startsWith "print(" code then Python else Unknown |}.

(** Text without markup or Markdown punctuation converts to itself. *)
#[export] Instance service : TurndownService :=
  {| turndown := fun _ _ html => Ok html |}.

Definition startsWithDigit (s : string) : bool :=
  match s with
  | String c _ => JSON.isDigit c
  | EmptyString => false
  end.

Definition scalar (s : string) : string :=
  if negb (JS.truthy s) || startsWithDigit s then "'" +:+ s +:+ "'" else s.

(** Block style; a string that could be read as a number or a date is
    quoted, an undefined value is left out. *)
#[export] Instance yaml : Yaml :=
  {| dumpEntry := fun k v =>
       match v with
       | VString s => Ok (k +:+ ": " +:+ scalar s +:+ LF)
       | VNumber n => Ok (k +:+ ": " +:+ DecimalString.NilEmpty.string_of_int (Z.to_int n) +:+ LF)
       | VNames [] => Ok (k +:+ ": []" +:+ LF)
       | VNames names =>
           Ok (k +:+ ":" +:+ LF
                 +:+ fold_right (fun n out => "  - " +:+ scalar n +:+ LF +:+ out)
                       EmptyString names)
       | VNull => Ok (k +:+ ": null" +:+ LF)
       | VUndefined => Ok EmptyString
       end |}.

(** *** The outside world *)

Definition pictureUrl : string := "http://x/pic.png".
Definition pictureBytes : list Byte.byte := [Byte.x89; Byte.x50; Byte.x4e; Byte.x47].

(** One picture is served; every other request is answered 404.  The
    file system never fails. *)
#[export] Instance env : Env :=
  {| fetch := fun _ url =>
       if String.eqb url pictureUrl then Ok (200, pictureBytes) else Ok (404, []);
     fs_error := fun _ _ => None |}.

(** Both bundled plugins are found; the content source answers [posts]. *)
Definition sources (posts : list Post) : Sources :=
  {| loadPlugins := ret [YoastPlugin; ExampleFixPathsPlugin.plugin];
     fetchPosts := fun _ => ret posts |}.

Definition emptyWorld : World := {| requests := []; disk := []; console := [] |}.

(** The exporter the command line creates by default for the site
    [https://example.com/]. *)
Definition exporter : Exporter :=
  WordPressExporter
    {| config_wpUrl := "https://example.com/";
       config_outputDir := "blog_export";
       config_imagesDir := "blog_export/images";
       config_codeClasses := None;
       config_preserveTags := Some ["iframe"; "script"];
       config_plugins := None |}.

(** The same exporter with plugins asked for by name. *)
Definition exporterWith (names : list string) : Exporter :=
  WordPressExporter
    {| config_wpUrl := "https://example.com/";
       config_outputDir := "blog_export";
       config_imagesDir := "blog_export/images";
       config_codeClasses := None;
       config_preserveTags := Some ["iframe"; "script"];
       config_plugins := Some names |}.

(** A published post with the given slug and body and nothing embedded. *)
Definition post (slug content : string) : Post :=
  {| slug := slug;
     title_rendered := "Title";
     date := "2023-01-18T13:31:19";
     modified := "2023-01-18T13:32:52";
     status := "publish";
     content_rendered := content;
     excerpt_rendered := "Excerpt";
     author := VNumber 1;
     _embedded := None;
     yoast_head_json := None |}.

(** The same post as the Yoast SEO plugin of the site extends it. *)
Definition withYoast (p : Post) (seoDescription : string) : Post :=
  {| slug := slug p;
     title_rendered := title_rendered p;
     date := date p;
     modified := modified p;
     status := status p;
     content_rendered := content_rendered p;
     excerpt_rendered := excerpt_rendered p;
     author := author p;
     _embedded := _embedded p;
     yoast_head_json := Some {| description := VString seoDescription |} |}.

(** Three posts, the second of which the Yoast plugin cannot handle. *)
Definition threePosts : list Post :=
  [withYoast (post "a" "Alpha") "First"; post "b" "Beta"; withYoast (post "c" "Gamma") "Third"].

(** A [pre] element marked for the syntax highlighter. *)
Definition pre (code : string) : node :=
  Element "pre" [("class", "EnlighterJSRAW")] [Text code].

(** A linked picture, and the same picture twice. *)
Definition linkedPicture : string :=
  "<a href='http://x/pic.png'><img src='http://x/pic.png'></a>".
Definition twoPictures : string :=
  "<img src='http://x/pic.png'><img src='http://x/pic.png'>".

(** The exporter once [init] has loaded the Yoast plugin. *)
Definition loadedExporter : Exporter :=
  {| wpUrl := "https://example.com"; baseDir := "blog_export";
     imagesDir := "blog_export/images"; codeClasses := [];
     preserveTags := ["iframe"; "script"];
     plugins := ["Yoast"]; loadedPlugins := [YoastPlugin] |}.

(** The run of the command over [threePosts] with the Yoast plugin. *)
Definition failingRun : Out unit * World :=
  @exportPosts _ _ _ _ _ _ (sources threePosts) (exporterWith ["Yoast"]) emptyWorld.

End Sample.


(** ** The command line *)

Module CLI.

(** The parser given to [--plugins], [--preserve-tags] and
    [--code-classes]:
    [(value) => value.split(',').map(c => c.trim()).filter(Boolean)] *)
Definition listOption (value : string) : list string :=
  List.filter JS.truthy (map JS.trim (JS.split "," value)).

End CLI.

(** ** The plugin loader, [loadPlugins] of lib/load-plugins.js *)

Module Loader.

(** An error as the loader looks at it: the value thrown and its [code]
    property, if it has one. *)
Record Failure := { thrown : error; code : option string }.

(** The default export of a plugin module as the checks of the loader see
    it: a function whose [name] is a string or not, and the static
    methods it has. *)
Record Class := {
  static_name : option string;
  static_processFrontMatter : option (FrontMatter -> Post -> Res FrontMatter);
  static_processHtml : option (string -> gmap string string -> Res string);
  static_processMarkdown : option (string -> Res string) }.

Inductive Listing :=
| Files (files : list string)
| Unreadable (f : Failure).

(** A module that was imported, with its default export if that is a
    function, or the failure of the import. *)
Inductive Imported :=
| Module_ (default : option Class)
| ImportFailed (f : Failure).

(** The directories, [fs.readdir] and [import()]. *)
Class Modules := {
  cwd : string;                    (* [path.join(process.cwd())] *)
  libDir : string;                 (* the directory of load-plugins.js *)
  readdir : string -> Listing;
  import : string -> Imported }.

(** What the loader prints. *)
Inductive line :=
| ErrorLoadingFrom (pluginsDir : string) (f : Failure)
| ErrorLoading (f : Failure).

(** [file.endsWith(suffix)] *)
Fixpoint endsWith (suffix file : string) : bool :=
  if String.eqb file suffix then true
  else match file with
       | EmptyString => false
       | String _ rest => endsWith suffix rest
       end.

(** The test before [plugins.push(PluginClass)]: the class as a plugin
    when it passes. *)
Definition accepted (PluginClass : option Class) : option Plugin :=
  match PluginClass with
  | Some {| static_name := Some n;
            static_processFrontMatter := Some frontMatter;
            static_processHtml := Some html;
            static_processMarkdown := Some markdown |} =>
      Some {| name := n; processFrontMatter := frontMatter;
              processHtml := html; processMarkdown := markdown |}
  | _ => None
  end.

(** A plugin class with all it needs, as a default export. *)
Definition classOf (p : Plugin) : Class :=
  {| static_name := Some (name p);
     static_processFrontMatter := Some (processFrontMatter p);
     static_processHtml := Some (processHtml p);
     static_processMarkdown := Some (processMarkdown p) |}.

Section Load.
Context `{Paths} `{Modules}.

(** [for (const file of files) { ... }]: the plugins pushed so far,
    and the failure that ended the loop, if one did. *)
Fixpoint loadFiles (pluginsDir : string) (files : list string) (plugins : list Plugin)
  : list Plugin * option Failure :=
  match files with
  | [] => (plugins, None)
  | file :: rest =>
      if endsWith ".js" file
      then match import (path_join pluginsDir file) with
           | Module_ PluginClass =>
               loadFiles pluginsDir rest
                 match accepted PluginClass with
                 | Some plugin => plugins ++ [plugin]
                 | None => plugins
                 end
           | ImportFailed f => (plugins, Some f)
           end
      else loadFiles pluginsDir rest plugins
  end.

(** The body of the inner [try]. *)
Definition loadDir (pluginsDir : string) (plugins : list Plugin)
  : list Plugin * option Failure :=
  match readdir pluginsDir with
  | Files files => loadFiles pluginsDir files plugins
  | Unreadable f => (plugins, Some f)
  end.

(** [for (const pluginsDir of pluginDirs) { try ... catch ... }] inside
    the outer [try]. *)
Fixpoint loadDirs (pluginDirs : list string) (plugins : list Plugin) (printed : list line)
  : Out (list Plugin) * list line :=
  match pluginDirs with
  | [] => (Return plugins, printed)
  | pluginsDir :: rest =>
      match loadDir pluginsDir plugins with
      | (plugins, None) => loadDirs rest plugins printed
      | (plugins, Some f) =>
          let printed := printed ++ [ErrorLoadingFrom pluginsDir f] in
          if negb (bool_decide (code f = Some "ENOENT"))
          then (Exit 1, printed ++ [ErrorLoading f])
          else loadDirs rest plugins printed
      end
  end.

(** [async function loadPlugins()]: the result and what was printed. *)
Definition loadPlugins : Out (list Plugin) * list line :=
  loadDirs [cwd; path_join libDir "plugins"] [] [].

(** The classes a readable directory contributes. *)
Definition pluginsOf (pluginsDir : string) (files : list string) : list Plugin :=
  omap (fun file =>
          if endsWith ".js" file
          then match import (path_join pluginsDir file) with
               | Module_ PluginClass => accepted PluginClass
               | ImportFailed _ => None
               end
          else None) files.

(** Every JavaScript file of the directory can be imported. *)
Definition importable (pluginsDir : string) (files : list string) : Prop :=
  forall file,
    In file files -> endsWith ".js" file = true ->
    exists PluginClass, import (path_join pluginsDir file) = Module_ PluginClass.

(** The plugin [p] is the default export of a JavaScript file of the
    directory, with a name and the three hooks. *)
Definition exportedBy (pluginsDir : string) (p : Plugin) : Prop :=
  exists files file,
    readdir pluginsDir = Files files
    /\ In file files
    /\ endsWith ".js" file = true
    /\ import (path_join pluginsDir file) = Module_ (Some (classOf p)).

End Load.

(** The earlier [YoastPlugin], with [processPostContent] in place of the
    two later hooks. *)
Definition YoastPlugin_processPostContent : Class :=
  {| static_name := Some "Yoast";
     static_processFrontMatter := Some (processFrontMatter YoastPlugin);
     static_processHtml := None;
     static_processMarkdown := None |}.

End Loader.

(** ** The crawl of the content source, [fetchPosts] *)

Module Crawl.

(** The fields of the exporter that only the crawl reads: [this.limit]
    ([None] is [Infinity]; a limit is a whole number) and
    [this.customPostType]. *)
Record Options := { limit : option Z; customPostType : option string }.

(** [response.json()] for a page of posts. *)
Class Wire := { json : list Byte.byte -> Res (list Post) }.

(** What the crawl prints. *)
Inductive line :=
| Fetching (postType : string)
| ApiNotFound                              (* the four lines printed for a 404 *)
| Fetched (count : nat) (postType : string) (limit : option Z)
| FailedToFetch (postType : string) (e : error)
| Found (count : nat) (postType : string) (limit : option Z).

(** How one turn of [while (true)] ends. *)
Inductive turn :=
| Next (allPosts : list Post)          (* [page++] *)
| Break (allPosts : list Post)
| Stop (o : Out (list Post)) .         (* [process.exit(1)] or [throw error] *)

Definition decimal (n : Z) : string := DecimalString.NilEmpty.string_of_int (Z.to_int n).

Section Crawl.
Context `{Env} `{Wire}.
Variable self : Exporter.
Variable options : Options.

Definition postType : string := default "posts" (customPostType options).

Definition pageUrl (page perPage : Z) : string :=
  wpUrl self +:+ "/wp-json/wp/v2/" +:+ postType +:+ "?page=" +:+ decimal page
    +:+ "&per_page=" +:+ decimal perPage +:+ "&_embed=1".

(** [remainingPosts <= 0] *)
Definition exhausted (allPosts : list Post) : bool :=
  match limit options with
  | Some l => l - Z.of_nat (length allPosts) <=? 0
  | None => false
  end.

(** [Math.min(100, remainingPosts)] *)
Definition perPageFor (allPosts : list Post) : Z :=
  match limit options with
  | Some l => Z.min 100 (l - Z.of_nat (length allPosts))
  | None => 100
  end.

(** [allPosts.length >= this.limit] *)
Definition reached (allPosts : list Post) : bool :=
  match limit options with
  | Some l => l <=? Z.of_nat (length allPosts)
  | None => false
  end.

(** [allPosts.slice(0, this.limit)], for a limit that was reached. *)
Definition sliced (allPosts : list Post) : list Post :=
  match limit options with
  | Some l => firstn (Z.to_nat l) allPosts
  | None => allPosts
  end.

(** The [catch] of the loop: no error that reaches it has a [response],
    so it prints and throws again. *)
Definition caught (e : error) (w : World) : turn * World * list line :=
  (Stop (Raise e), w, [FailedToFetch postType e]).

(** One turn of the loop. *)
Definition iteration (page : Z) (allPosts : list Post) (w : World)
  : turn * World * list line :=
  if exhausted allPosts then (Break allPosts, w, [])
  else
    let perPage := perPageFor allPosts in
    match doFetch (pageUrl page perPage) w with
    | (Return (status, body), w) =>
        if status =? 404 then (Stop (Exit 1), w, [ApiNotFound])
        else if status =? 400 then (Break allPosts, w, [])
        else if negb (ok status) then caught (HttpError status) w
        else
          match json body with
          | Throw e => caught e w
          | Ok posts =>
              match posts with
              | [] => (Break allPosts, w, [])
              | _ =>
                  let allPosts := allPosts ++ posts in
                  let printed := [Fetched (length allPosts) postType (limit options)] in
                  if reached allPosts then (Break (sliced allPosts), w, printed)
                  else (Next allPosts, w, printed)
              end
          end
    | (Raise e, w) => caught e w
    | (Exit c, w) => (Stop (Exit c), w, [])
    end.

(** [while (true) { ... }] and what follows it; [None] when [fuel] turns
    were not enough. *)
Fixpoint pages (fuel : nat) (page : Z) (allPosts : list Post) (w : World)
    (printed : list line) : option (Out (list Post) * World * list line) :=
  match fuel with
  | O => None
  | S fuel =>
      match iteration page allPosts w with
      | (Next allPosts, w, out) => pages fuel (page + 1) allPosts w (printed ++ out)
      | (Break allPosts, w, out) =>
          Some (Return allPosts, w,
                printed ++ out ++ [Found (length allPosts) postType (limit options)])
      | (Stop o, w, out) => Some (o, w, printed ++ out)
      end
  end.

(** [async fetchPosts()] *)
Definition fetchPosts (fuel : nat) (w : World)
  : option (Out (list Post) * World * list line) :=
  pages fuel 1 [] w [Fetching postType].

(** The site has the pages [served] of up to 100 posts, each with at
    least one post, and answers 200 with the posts of a page that
    exists. *)
Definition serves (served : list (list Post)) : Prop :=
  forall i posts w,
    served !! i = Some posts ->
    posts <> []
    /\ exists status body,
        fetch w (pageUrl (Z.of_nat (S i)) 100) = Ok (status, body)
        /\ ok status = true
        /\ json body = Ok posts.

(** For the page after the [n]-th the site answers 400, or 200 with an
    empty list. *)
Definition endsAfter (n : nat) : Prop :=
  forall w,
    exists status body,
      fetch w (pageUrl (Z.of_nat (S n)) 100) = Ok (status, body)
      /\ (status = 400 \/ ok status = true /\ json body = Ok []).

End Crawl.

End Crawl.

(** ** More vocabulary *)

(** The attribute [name] with its value blanked. *)
Definition blanked (name : string) (a : Walk.attrs) : Walk.attrs :=
  map (fun '(k, v) => (k, if String.eqb k name then EmptyString else v)) a.

(** The attributes of an element named [t], apart from the value of [src]
    when it is an [img] and the value of [href] when it is an [a]. *)
Definition skeletonAttrs (t : string) (a : Walk.attrs) : Walk.attrs :=
  if String.eqb t "img" then blanked "src" a
  else if String.eqb t "a" then blanked "href" a
  else a.

(** A document apart from those values. *)
Fixpoint skeleton (n : node) : node :=
  match n with
  | Text d => Text d
  | Comment d => Comment d
  | Element t a children =>
      Element t (skeletonAttrs t a)
        ((fix all (l : list node) : list node :=
            match l with
            | [] => []
            | c :: l' => skeleton c :: all l'
            end) children)
  end.

(** [fetch] failed: it rejected, or the status is outside 200..299. *)
Definition failed (answer : Res (Z * list Byte.byte)) : Prop :=
  match answer with
  | Ok (status, _) => ok status = false
  | Throw _ => True
  end.

(** The warnings of [downloadImage] among what was printed. *)
Definition warnings (w : World) : list string :=
  flat_map (fun e => match e with
                     | WarnDownloadFailed imageUrl _ => [imageUrl]
                     | _ => []
                     end) (console w).

(** A name as it can be written in a comma-separated list: not empty, no
    comma, no white space at either end. *)
Definition listable (s : string) : Prop :=
  s <> EmptyString
  /\ hasChar "," s = false
  /\ (forall c, firstChar s = Some c -> JS.isWhiteSpace c = false)
  /\ (forall c, lastChar s = Some c -> JS.isWhiteSpace c = false).

(** [p] is the first plugin of [allPlugins] named [n]. *)
Definition firstNamed (n : string) (allPlugins : list Plugin) (p : Plugin) : Prop :=
  exists before after,
    allPlugins = before ++ p :: after
    /\ name p = n
    /\ Forall (fun q => name q <> n) before.

(** The names of [names] that no plugin of [allPlugins] has. *)
Definition missingFrom (allPlugins : list Plugin) (names : list string) : list string :=
  List.filter (fun n => negb (existsb (fun p => String.eqb (name p) n) allPlugins)) names.

(** The exporter once [found] was pushed to [this.loadedPlugins]. *)
Definition withLoaded (self : Exporter) (found : list Plugin) : Exporter :=
  {| wpUrl := wpUrl self; baseDir := baseDir self; imagesDir := imagesDir self;
     codeClasses := codeClasses self; preserveTags := preserveTags self;
     plugins := plugins self; loadedPlugins := loadedPlugins self ++ found |}.

(** The world after one more request. *)
Definition asked (w : World) (url : string) : World :=
  {| requests := requests w ++ [url]; disk := disk w; console := console w |}.

(** A plugin none of whose hooks throws. *)
Definition harmless (p : Plugin) : Prop :=
  (forall frontMatter post, exists frontMatter',
      processFrontMatter p frontMatter post = Ok frontMatter')
  /\ (forall html urlMap, exists html', processHtml p html urlMap = Ok html')
  /\ (forall markdown, exists markdown', processMarkdown p markdown = Ok markdown').

(** The file system, the converter and the YAML writer never fail. *)
Definition dependable `{Env} `{TurndownService} `{Yaml} : Prop :=
  (forall w op, fs_error w op = None)
  /\ (forall keep rule html, exists markdown, turndown keep rule html = Ok markdown)
  /\ (forall k v, exists line, dumpEntry k v = Ok line).

(** ** More concrete inputs *)

Module Cases.

(** A working directory with one plugin of the user's and a file that is
    no plugin, beside the bundled plugins. *)
Definition myYoast : Plugin :=
  {| name := "Yoast";
     processFrontMatter := fun extractedMetadata _ =>
       Ok (Obj.set "excerpt" (VString "mine") extractedMetadata);
     processHtml := fun html _ => Ok html;
     processMarkdown := fun markdown => Ok markdown |}.

Definition modules : Loader.Modules :=
  {| Loader.cwd := "/work";
     Loader.libDir := "/app/lib";
     Loader.readdir := fun dir =>
       if String.eqb dir "/work" then Loader.Files ["notes.txt"; "yoast.js"; "tool.js"]
       else if String.eqb dir "/app/lib/plugins"
            then Loader.Files ["example-fix-paths.js"; "yoast.js"]
            else Loader.Unreadable
                   {| Loader.thrown := Rejected "no such file or directory";
                      Loader.code := Some "ENOENT" |};
     Loader.import := fun file =>
       if String.eqb file "/work/yoast.js" then Loader.Module_ (Some (Loader.classOf myYoast))
       else if String.eqb file "/work/tool.js" then Loader.Module_ None
       else if String.eqb file "/app/lib/plugins/yoast.js"
            then Loader.Module_ (Some (Loader.classOf YoastPlugin))
            else if String.eqb file "/app/lib/plugins/example-fix-paths.js"
                 then Loader.Module_ (Some (Loader.classOf ExampleFixPathsPlugin.plugin))
                 else Loader.ImportFailed
                        {| Loader.thrown := Rejected "Cannot find module";
                           Loader.code := Some "ERR_MODULE_NOT_FOUND" |} |}.

(** The same installation run from a directory that does not exist any
    more. *)
Definition modulesNoCwd : Loader.Modules :=
  {| Loader.cwd := "/gone";
     Loader.libDir := "/app/lib";
     Loader.readdir := Loader.readdir (Modules := modules);
     Loader.import := Loader.import (Modules := modules) |}.

(** ... and from a directory that cannot be read. *)
Definition denied : Loader.Failure :=
  {| Loader.thrown := Rejected "permission denied"; Loader.code := Some "EACCES" |}.

Definition modulesDenied : Loader.Modules :=
  {| Loader.cwd := "/root";
     Loader.libDir := "/app/lib";
     Loader.readdir := fun dir =>
       if String.eqb dir "/root" then Loader.Unreadable denied
       else Loader.readdir (Modules := modules) dir;
     Loader.import := Loader.import (Modules := modules) |}.

(** A site with five posts in pages of two; a page is named by the
    number after [page=], and its body is that number as one byte. *)
Definition numbered (n : nat) : Post := Sample.post (Crawl.decimal (Z.of_nat n)) "Body".

Definition site : list (list Post) :=
  [[numbered 1; numbered 2]; [numbered 3; numbered 4]; [numbered 5]].

Definition pageOf (url : string) : option nat :=
  match JS.split "=" url with
  | _ :: page :: _ =>
      match JS.split "&" page with
      | "1" :: _ => Some 1%nat
      | "2" :: _ => Some 2%nat
      | "3" :: _ => Some 3%nat
      | "4" :: _ => Some 4%nat
      | _ => None
      end
  | _ => None
  end.

Definition byteOf (n : nat) : Byte.byte :=
  match n with
  | 1%nat => Byte.x01
  | 2%nat => Byte.x02
  | 3%nat => Byte.x03
  | _ => Byte.x00
  end.

Definition siteEnv : Env :=
  {| fetch := fun _ url =>
       match pageOf url with
       | Some 4%nat => Ok (400, [])
       | Some n => Ok (200, [byteOf n])
       | None => Ok (404, [])
       end;
     fs_error := fun _ _ => None |}.

Definition siteWire : Crawl.Wire :=
  {| Crawl.json := fun body =>
       match body with
       | [b] =>
           if Byte.eqb b Byte.x01 then Ok [numbered 1; numbered 2]
           else if Byte.eqb b Byte.x02 then Ok [numbered 3; numbered 4]
           else if Byte.eqb b Byte.x03 then Ok [numbered 5]
           else Throw (Rejected "SyntaxError: Unexpected token")
       | _ => Throw (Rejected "SyntaxError: Unexpected end of JSON input")
       end |}.

Definition unlimited : Crawl.Options :=
  {| Crawl.limit := None; Crawl.customPostType := None |}.

Definition limited (l : Z) : Crawl.Options :=
  {| Crawl.limit := Some l; Crawl.customPostType := None |}.

(** A world without network. *)
Definition offline : Env :=
  {| fetch := fun _ _ => Throw (Rejected "fetch failed");
     fs_error := fun _ _ => None |}.

(** A post whose featured image is also the picture of its body. *)
Definition featuring (url body : string) : Post :=
  {| slug := "hello";
     title_rendered := "Title";
     date := "2023-01-18T13:31:19";
     modified := "2023-01-18T13:32:52";
     status := "publish";
     content_rendered := body;
     excerpt_rendered := "Excerpt";
     author := VNumber 1;
     _embedded :=
       Some {| wp_term := None; embedded_author := None;
               wp_featuredmedia := Some [{| source_url := url |}] |};
     yoast_head_json := None |}.

(** A plugin whose HTML hook throws, and the exporter that loaded it. *)
Definition brokenHtml : Plugin :=
  {| name := "Broken";
     processFrontMatter := fun extractedMetadata _ => Ok extractedMetadata;
     processHtml := fun _ _ => Throw (Rejected "html is not defined");
     processMarkdown := fun markdown => Ok markdown |}.

Definition brokenExporter : Exporter := withLoaded Sample.exporter [brokenHtml].

(** Two posts that convert. *)
Definition twoPosts : list Post := [Sample.post "a" "Alpha"; Sample.post "b" "Beta"].

End Cases.

(** * Properties *)

(** ** Strings *)

Lemma append_cons c s t : String c s +:+ t = String c (s +:+ t).
Proof. reflexivity. Qed.

Lemma append_nil t : EmptyString +:+ t = t.
Proof. reflexivity. Qed.

Lemma startsWith_prefix p s :
  JS.startsWith p s = true <-> exists t, s = p +:+ t.
Proof.
  revert s. induction p as [|a p IH]; intros s; simpl.
  - split; [intros _; exists s; reflexivity | reflexivity].
  - destruct s as [|b s].
    + split; [discriminate | intros [t Ht]; discriminate].
    + destruct (Ascii.eqb_spec a b) as [->|Hne].
      * rewrite IH. split; intros [t Ht]; exists t; unfold_append; congruence.
      * split; [discriminate | intros [t Ht]; unfold_append; congruence].
Qed.

Lemma indexOf_from_range p s i :
  JS.indexOf_from p s i = -1 \/ i <= JS.indexOf_from p s i.
Proof.
  revert i. induction s as [|c s IH]; intros i; simpl.
  - destruct (JS.startsWith p EmptyString); [right; lia | left; reflexivity].
  - destruct (JS.startsWith p (String c s)); [right; lia |].
    destruct (IH (i + 1)) as [->|Hle]; [left; reflexivity | right; lia].
Qed.

Lemma indexOf_from_occurs p s i :
  0 <= i -> JS.indexOf_from p s i <> -1 <-> occursIn p s.
Proof.
  revert i. induction s as [|c s IH]; intros i Hi; simpl.
  - destruct (JS.startsWith p EmptyString) eqn:E.
    + split; [intros _ | lia].
      apply startsWith_prefix in E as [t Ht]. exists EmptyString, t. exact Ht.
    + split; [congruence |]. intros [pre [post Hs]].
      destruct pre; unfold_append; [| discriminate].
      assert (JS.startsWith p EmptyString = true) by (apply startsWith_prefix; eauto).
      congruence.
  - destruct (JS.startsWith p (String c s)) eqn:E.
    + split; [intros _ | lia].
      apply startsWith_prefix in E as [t Ht]. exists EmptyString, t. exact Ht.
    + rewrite (IH (i + 1)) by lia. split.
      * intros [pre [post Hs]]. exists (String c pre), post. unfold_append. congruence.
      * intros [pre [post Hs]]. destruct pre as [|c' pre]; unfold_append.
        -- assert (JS.startsWith p (String c s) = true) by (apply startsWith_prefix; eauto).
           congruence.
        -- exists pre, post. congruence.
Qed.

Lemma indexOf_occurs s c : JS.indexOf s c <> -1 <-> occursIn c s.
Proof. unfold JS.indexOf. apply indexOf_from_occurs. lia. Qed.

(** ** The code-block rule *)

Section CodeBlockFacts.
Context `{LangDetector}.

Lemma codeBlocks_filter_marker (codeClasses : list string) (n : node) :
  codeBlocks_filter codeClasses n = true
  <-> exists className, In className codeClasses /\ occursIn className (DOM.className n).
Proof.
  unfold codeBlocks_filter. rewrite existsb_exists.
  split; intros [c [Hin Hc]]; exists c; split; try assumption.
  - apply indexOf_occurs. apply negb_true_iff, Z.eqb_neq in Hc. exact Hc.
  - apply negb_true_iff, Z.eqb_neq. apply indexOf_occurs. exact Hc.
Qed.

Lemma forNode_first (r : Turndown.Rule) (rules : list Turndown.Rule) (blank : bool) (n : node) :
  Turndown.forNode (Turndown.addRule r rules) blank n = Turndown.Added 0
  <-> blank = false /\ Turndown.filter r n = true.
Proof.
  unfold Turndown.forNode, Turndown.addRule. simpl.
  destruct blank; [split; [discriminate | intros [? _]; discriminate] |].
  destruct (Turndown.filter r n) eqn:E.
  - split; [auto | reflexivity].
  - assert (forall l i, Turndown.findRule l n (S i) <> Some 0%nat) as Hno.
    { induction l as [|r' l IH]; intros i; simpl; [discriminate |].
      destruct (Turndown.filter r' n); [discriminate | apply IH]. }
    split; [| intros [_ ?]; discriminate].
    destruct (Turndown.findRule rules n 1) eqn:F; [| discriminate].
    intros [= ->]. exfalso. exact (Hno _ _ F).
Qed.

(** C6. The rule added by the constructor is chosen for a node only if
    the node's class attribute contains one of the configured marker
    classes as a substring; so it is never chosen when no marker class is
    configured, nor for a node whose class attribute contains none of
    them, whatever the node's content. *)
Theorem codeBlocks_only_on_marker_class
    (codeClasses : list string) (rules : list Turndown.Rule) (blank : bool) (n : node) :
  (codeBlocks_fires codeClasses rules blank n ->
   exists className, In className codeClasses /\ occursIn className (DOM.className n))
  /\ (codeClasses = [] -> ~ codeBlocks_fires codeClasses rules blank n)
  /\ ((forall className,
         In className codeClasses -> ~ occursIn className (DOM.className n))
      -> ~ codeBlocks_fires codeClasses rules blank n).
Proof.
  assert (codeBlocks_fires codeClasses rules blank n ->
          exists className,
            In className codeClasses /\ occursIn className (DOM.className n)) as Honly.
  { intros Hf. apply forNode_first in Hf as [_ Hf]. simpl in Hf.
    apply codeBlocks_filter_marker. exact Hf. }
  split; [exact Honly |]. split.
  - intros -> Hf. destruct (Honly Hf) as [c [[] _]].
  - intros Hnone Hf. destruct (Honly Hf) as [c [Hin Hc]]. exact (Hnone c Hin Hc).
Qed.

End CodeBlockFacts.

(** ** The text and the tag of a fence *)

Lemma hasChar_append c s t : hasChar c (s +:+ t) = hasChar c s || hasChar c t.
Proof.
  induction s as [|c' s IH]; [reflexivity |].
  rewrite append_cons. simpl. rewrite IH. apply orb_assoc.
Qed.

Lemma replaceAll_char_gone (c : ascii) (r s : string) :
  hasChar c r = false ->
  hasChar c (JS.replaceAll (String c EmptyString) r s) = false.
Proof.
  intros Hr. unfold JS.replaceAll.
  induction s as [|c' s IH]; [reflexivity |].
  cbn [JS.replace_go]. cbn [JS.startsWith String.length Nat.pred].
  destruct (Ascii.eqb_spec c c') as [->|Hne].
  - rewrite hasChar_append, Hr. exact IH.
  - cbn [hasChar]. rewrite IH. apply Ascii.eqb_neq in Hne. rewrite Hne. reflexivity.
Qed.

Lemma trimStart_hasChar c s : hasChar c (JS.trimStart s) = true -> hasChar c s = true.
Proof.
  induction s as [|c' s IH]; simpl; [discriminate |].
  destruct (JS.isWhiteSpace c'); [| exact id].
  intros Ht. rewrite (IH Ht). apply orb_true_r.
Qed.

Lemma trimEnd_hasChar c s : hasChar c (JS.trimEnd s) = true -> hasChar c s = true.
Proof.
  induction s as [|c' s IH]; simpl; [discriminate |].
  destruct (JS.trimEnd s) as [|c'' t] eqn:E.
  - destruct (JS.isWhiteSpace c'); simpl; [discriminate |].
    rewrite orb_false_r. intros ->. reflexivity.
  - simpl in *. destruct (Ascii.eqb c c'); [reflexivity |]. exact IH.
Qed.

Lemma trimStart_first s c :
  firstChar (JS.trimStart s) = Some c -> JS.isWhiteSpace c = false.
Proof.
  induction s as [|c' s IH]; simpl; [discriminate |].
  destruct (JS.isWhiteSpace c') eqn:E; [exact IH |].
  simpl. intros [= <-]. exact E.
Qed.

Lemma trimEnd_first s : firstChar (JS.trimEnd s) = None \/ firstChar (JS.trimEnd s) = firstChar s.
Proof.
  destruct s as [|c s]; simpl; [left; reflexivity |].
  destruct (JS.trimEnd s); [| right; reflexivity].
  destruct (JS.isWhiteSpace c); [left | right]; reflexivity.
Qed.

Lemma trimEnd_last s c :
  lastChar (JS.trimEnd s) = Some c -> JS.isWhiteSpace c = false.
Proof.
  induction s as [|c' s IH]; simpl; [discriminate |].
  destruct (JS.trimEnd s) as [|c'' t] eqn:E.
  - destruct (JS.isWhiteSpace c') eqn:W; simpl; [discriminate |].
    intros [= <-]. exact W.
  - exact IH.
Qed.

Lemma trim_ends s :
  (forall c, firstChar (JS.trim s) = Some c -> JS.isWhiteSpace c = false)
  /\ (forall c, lastChar (JS.trim s) = Some c -> JS.isWhiteSpace c = false).
Proof.
  unfold JS.trim. split; intros c Hc.
  - destruct (trimEnd_first (JS.trimStart s)) as [E|E]; rewrite E in Hc; [discriminate |].
    exact (trimStart_first _ _ Hc).
  - exact (trimEnd_last _ _ Hc).
Qed.

Lemma replace_CR_cons c t :
  JS.replace_go CR LF (String c t) O
  = String (if Ascii.eqb (ascii_of_nat 13) c then ascii_of_nat 10 else c)
      (JS.replace_go CR LF t O).
Proof.
  unfold CR, LF. cbn [JS.replace_go JS.startsWith String.length Nat.pred].
  destruct (Ascii.eqb (ascii_of_nat 13) c); reflexivity.
Qed.

Lemma replace_CRLF_cons c t :
  JS.replace_go CRLF LF (String c t) O
  = if Ascii.eqb (ascii_of_nat 13) c
    then match t with
         | String c' t' =>
             if Ascii.eqb (ascii_of_nat 10) c'
             then String (ascii_of_nat 10) (JS.replace_go CRLF LF t' O)
             else String c (JS.replace_go CRLF LF t O)
         | EmptyString => String c EmptyString
         end
    else String c (JS.replace_go CRLF LF t O).
Proof.
  change CRLF with (String (ascii_of_nat 13) (String (ascii_of_nat 10) EmptyString)).
  unfold LF. cbn [JS.replace_go JS.startsWith String.length Nat.pred].
  destruct (Ascii.eqb (ascii_of_nat 13) c); [| reflexivity].
  destruct t as [|c' t']; [reflexivity |].
  destruct (Ascii.eqb (ascii_of_nat 10) c'); reflexivity.
Qed.

(** The two replacements of line endings, one after the other, amount to
    one pass that turns every CRLF and every other CR into one LF. *)
Lemma line_endings (s : string) :
  JS.replaceAll CR LF (JS.replaceAll CRLF LF s) = toLF s.
Proof.
  change (JS.replace_go CR LF (JS.replace_go CRLF LF s O) O = toLF s).
  assert (forall n s, (String.length s <= n)%nat ->
                      JS.replace_go CR LF (JS.replace_go CRLF LF s O) O = toLF s) as Hall.
  { induction n as [|n IH]; intros [|c t] Hlen; try reflexivity; cbn in Hlen; [lia |].
    rewrite replace_CRLF_cons. cbn [toLF]. rewrite (Ascii.eqb_sym c).
    destruct (Ascii.eqb (ascii_of_nat 13) c) eqn:Ec.
    - apply Ascii.eqb_eq in Ec. subst c. destruct t as [|c' t'].
      + reflexivity.
      + rewrite (Ascii.eqb_sym c'). destruct (Ascii.eqb (ascii_of_nat 10) c') eqn:El.
        * rewrite replace_CR_cons. cbn [Ascii.eqb]. change (Ascii.eqb (ascii_of_nat 13) (ascii_of_nat 10)) with false.
          cbn iota. f_equal. apply IH. cbn in Hlen. lia.
        * rewrite replace_CR_cons, Ascii.eqb_refl. f_equal. apply IH. cbn in Hlen. cbn. lia.
    - rewrite replace_CR_cons, Ec. f_equal. apply IH. lia. }
  apply (Hall (String.length s)). lia.
Qed.

Section FenceFacts.
Context `{LangDetector}.

Lemma codeOf_normalized (n : node) : codeOf n = spec_normalize (DOM.textContent n).
Proof. reflexivity. Qed.

Lemma codeBlocks_replacement_tag (content : string) (n : node) :
  codeBlocks_replacement content n = spec_fence (spec_tag (codeOf n)) (codeOf n).
Proof.
  unfold codeBlocks_replacement, spec_fence, spec_tag, isJson.
  destruct (detectLang (codeOf n)); simpl; try reflexivity.
  destruct (JSON.parse (codeOf n)); reflexivity.
Qed.

(** C7. The replacement of the code-block rule is a fenced block followed
    by a blank line.  Its body is the node's text with backslash-n
    sequences turned into line breaks, then CRLF and then CR turned into
    LF (together: every CRLF and every other CR becomes one LF), then
    trimmed: no CR is left in it and it neither starts nor ends with
    white space.  Its tag is the lookup table's tag for the detected
    language, else [json] when the body parses as JSON, else empty. *)
Theorem codeBlocks_replacement_fence (content : string) (n : node) :
  codeBlocks_replacement content n
  = spec_fence (spec_tag (spec_normalize (DOM.textContent n)))
      (spec_normalize (DOM.textContent n))
  /\ (forall text, JS.replaceAll CR LF (JS.replaceAll CRLF LF text) = toLF text)
  /\ hasChar (ascii_of_nat 13) (spec_normalize (DOM.textContent n)) = false
  /\ (forall c, firstChar (spec_normalize (DOM.textContent n)) = Some c ->
                JS.isWhiteSpace c = false)
  /\ (forall c, lastChar (spec_normalize (DOM.textContent n)) = Some c ->
                JS.isWhiteSpace c = false).
Proof.
  split; [| split; [| split]].
  - rewrite codeBlocks_replacement_tag, codeOf_normalized. reflexivity.
  - exact line_endings.
  - unfold spec_normalize, JS.trim.
    destruct (hasChar _ _) eqn:E; [| reflexivity].
    apply trimEnd_hasChar, trimStart_hasChar in E.
    unfold CR in E. rewrite replaceAll_char_gone in E; [discriminate | reflexivity].
  - apply trim_ends.
Qed.

(** C10. When detection maps to no tag and the normalised text is
    accepted by [JSON.parse], whatever kind of value it is, the fence is
    tagged [json]. *)
Theorem json_probe_any_value (content : string) (n : node) (k : JSON.kind) :
  languageMap (detectLang (codeOf n)) = EmptyString ->
  JSON.parse (codeOf n) = Some k ->
  codeBlocks_replacement content n = spec_fence "json" (codeOf n).
Proof.
  intros Hlang Hjson. unfold codeBlocks_replacement, isJson.
  rewrite Hlang, Hjson. reflexivity.
Qed.

End FenceFacts.

(** ** Walking a document *)

Lemma node_induction (P : node -> Prop) :
  (forall d, P (Text d)) ->
  (forall d, P (Comment d)) ->
  (forall t a children, Forall P children -> P (Element t a children)) ->
  forall n, P n.
Proof.
  intros text_case comment_case element_case. fix IH 1. intros [d|d|t a children].
  - apply text_case.
  - apply comment_case.
  - apply element_case. induction children as [|c l IHl]; constructor.
    + apply IH.
    + exact IHl.
Qed.

Section WalkFacts.
Context {A : Type}.
Variable tag : string.
Variable body : Walk.attrs -> A -> M (Walk.attrs * A).

Lemma elements_Element t a children :
  Walk.elements tag (Element t a children)
  = (if String.eqb t tag then [a] else []) ++ Walk.elementsOf tag children.
Proof.
  reflexivity.
Qed.

Lemma visit_Element t a children acc w :
  Walk.visit tag body (Element t a children) acc w
  = match (if String.eqb t tag then body a acc else ret (a, acc)) w with
    | (Return (a', acc1), w1) =>
        match Walk.visitAll tag body children acc1 w1 with
        | (Return (children', acc2), w2) => (Return (Element t a' children', acc2), w2)
        | (Raise e, w2) => (Raise e, w2)
        | (Exit c, w2) => (Exit c, w2)
        end
    | (Raise e, w1) => (Raise e, w1)
    | (Exit c, w1) => (Exit c, w1)
    end.
Proof.
  cbn [Walk.visit]. unfold bind at 1.
  destruct ((if String.eqb t tag then body a acc else ret (a, acc)) w)
    as [[[a' acc1]|e|c] w1]; try reflexivity.
  unfold bind at 1.
  change ((fix visitAll (doc : list node) (acc : A) {struct doc} : M (list node * A) :=
             match doc with
             | [] => ret ([], acc)
             | c :: rest =>
                 let* (c', acc') := Walk.visit tag body c acc in
                 let* (rest', acc'') := visitAll rest acc' in
                 ret (c' :: rest', acc'')
             end) children acc1 w1)
    with (Walk.visitAll tag body children acc1 w1).
  destruct (Walk.visitAll tag body children acc1 w1) as [[[ch' acc2]|e|c] w2]; reflexivity.
Qed.

Lemma visitAll_cons c rest acc w :
  Walk.visitAll tag body (c :: rest) acc w
  = match Walk.visit tag body c acc w with
    | (Return (c', acc1), w1) =>
        match Walk.visitAll tag body rest acc1 w1 with
        | (Return (rest', acc2), w2) => (Return (c' :: rest', acc2), w2)
        | (Raise e, w2) => (Raise e, w2)
        | (Exit x, w2) => (Exit x, w2)
        end
    | (Raise e, w1) => (Raise e, w1)
    | (Exit x, w1) => (Exit x, w1)
    end.
Proof.
  cbn [Walk.visitAll]. unfold bind at 1.
  destruct (Walk.visit tag body c acc w) as [[[c' acc1]|e|x] w1]; try reflexivity.
  unfold bind at 1.
  destruct (Walk.visitAll tag body rest acc1 w1) as [[[r' acc2]|e|x] w2]; reflexivity.
Qed.

Lemma loop_cons a rest acc w :
  Walk.loop body (a :: rest) acc w
  = match body a acc w with
    | (Return (a', acc1), w1) =>
        match Walk.loop body rest acc1 w1 with
        | (Return (rest', acc2), w2) => (Return (a' :: rest', acc2), w2)
        | (Raise e, w2) => (Raise e, w2)
        | (Exit x, w2) => (Exit x, w2)
        end
    | (Raise e, w1) => (Raise e, w1)
    | (Exit x, w1) => (Exit x, w1)
    end.
Proof.
  cbn [Walk.loop]. unfold bind at 1.
  destruct (body a acc w) as [[[a' acc1]|e|x] w1]; try reflexivity.
  unfold bind at 1.
  destruct (Walk.loop body rest acc1 w1) as [[[r' acc2]|e|x] w2]; reflexivity.
Qed.

Lemma loop_app l1 l2 acc w l1' acc1 w1 l2' acc2 w2 :
  Walk.loop body l1 acc w = (Return (l1', acc1), w1) ->
  Walk.loop body l2 acc1 w1 = (Return (l2', acc2), w2) ->
  Walk.loop body (l1 ++ l2) acc w = (Return (l1' ++ l2', acc2), w2).
Proof.
  revert acc w l1'. induction l1 as [|a l1 IH]; intros acc w l1' H1 H2.
  - cbn in H1. injection H1 as <- <- <-. exact H2.
  - rewrite <- app_comm_cons, loop_cons. rewrite loop_cons in H1.
    destruct (body a acc w) as [[[a' acc']|e|x] w']; try discriminate.
    destruct (Walk.loop body l1 acc' w') as [[[r' acc'']|e|x] w''] eqn:E; try discriminate.
    injection H1 as <- <- <-.
    rewrite (IH _ _ _ E H2). reflexivity.
Qed.

Hypothesis body_total : Walk.total body.

Lemma loop_total l acc w :
  exists l' acc' w', Walk.loop body l acc w = (Return (l', acc'), w').
Proof.
  revert acc w. induction l as [|a l IH]; intros acc w.
  - eexists _, _, _. reflexivity.
  - rewrite loop_cons. destruct (body_total a acc w) as (a' & acc1 & w1 & ->).
    destruct (IH acc1 w1) as (l' & acc2 & w2 & ->). eexists _, _, _. reflexivity.
Qed.

Lemma visit_walked n acc w :
  exists n' acc' w',
    Walk.visit tag body n acc w = (Return (n', acc'), w') /\ Walk.walked tag body [n] [n'] acc acc' w w'.
Proof.
  revert acc w. induction n as [d|d|t a children IH] using node_induction; intros acc w.
  - exists (Text d), acc, w. split; [reflexivity |]. split; reflexivity.
  - exists (Comment d), acc, w. split; [reflexivity |]. split; reflexivity.
  - assert (forall acc w, exists ch' acc' w',
               Walk.visitAll tag body children acc w = (Return (ch', acc'), w')
               /\ Walk.walked tag body children ch' acc acc' w w') as Hch.
    { clear acc w. induction IH as [|c l Hc _ IHl]; intros acc w.
      - exists [], acc, w. split; [reflexivity |]. split; reflexivity.
      - rewrite visitAll_cons.
        destruct (Hc acc w) as (c' & acc1 & w1 & -> & Hl1 & Ho1).
        destruct (IHl acc1 w1) as (l' & acc2 & w2 & -> & Hl2 & Ho2).
        exists (c' :: l'), acc2, w2. split; [reflexivity |]. split.
        + unfold Walk.elementsOf in *. cbn [flat_map] in *.
          rewrite !app_nil_r in Hl1. exact (loop_app _ _ _ _ _ _ _ _ _ _ Hl1 Hl2).
        + intros tag' Hne. specialize (Ho1 tag' Hne). specialize (Ho2 tag' Hne).
          unfold Walk.elementsOf in *. cbn [flat_map] in *.
          rewrite !app_nil_r in Ho1. congruence. }
    rewrite visit_Element.
    assert (forall tag', Walk.elementsOf tag' [Element t a children]
                         = Walk.elements tag' (Element t a children)) as Hone
        by (intros; unfold Walk.elementsOf; cbn [flat_map]; apply app_nil_r).
    destruct (String.eqb_spec t tag) as [->|Hne].
    + destruct (body_total a acc w) as (a' & acc1 & w1 & Hb). rewrite Hb.
      destruct (Hch acc1 w1) as (ch' & acc2 & w2 & -> & Hl & Ho).
      exists (Element tag a' ch'), acc2, w2. split; [reflexivity |]. split.
      * unfold Walk.elementsOf. cbn [flat_map]. rewrite !app_nil_r.
        assert (forall x l, Walk.elements tag (Element tag x l)
                            = x :: Walk.elementsOf tag l) as Hel.
        { intros x l. rewrite elements_Element, String.eqb_refl. reflexivity. }
        rewrite !Hel, loop_cons, Hb, Hl. reflexivity.
      * intros tag' Hne. unfold Walk.elementsOf. cbn [flat_map]. rewrite !app_nil_r.
        assert (forall x l, Walk.elements tag' (Element tag x l)
                            = Walk.elementsOf tag' l) as Hel.
        { intros x l. change (Walk.elements tag' (Element tag x l))
            with ((if String.eqb tag tag' then [x] else []) ++ Walk.elementsOf tag' l).
          destruct (String.eqb_spec tag tag'); [congruence | reflexivity]. }
        rewrite !Hel. exact (Ho tag' Hne).
    + unfold ret at 1.
      destruct (Hch acc w) as (ch' & acc2 & w2 & -> & Hl & Ho).
      exists (Element t a ch'), acc2, w2. split; [reflexivity |].
      assert (forall tag' l, Walk.elements tag' (Element t a l)
                             = (if String.eqb t tag' then [a] else [])
                                 ++ Walk.elementsOf tag' l) as Hel.
      { reflexivity. }
      split.
      * unfold Walk.elementsOf at 1 2. cbn [flat_map]. rewrite !app_nil_r, !Hel.
        destruct (String.eqb_spec t tag); [congruence |]. exact Hl.
      * intros tag' Hne'. unfold Walk.elementsOf at 1 2. cbn [flat_map].
        rewrite !app_nil_r, !Hel, (Ho tag' Hne'). reflexivity.
Qed.

Lemma visitAll_walked doc acc w :
  exists doc' acc' w',
    Walk.visitAll tag body doc acc w = (Return (doc', acc'), w')
    /\ Walk.walked tag body doc doc' acc acc' w w'.
Proof.
  revert acc w. induction doc as [|c l IHl]; intros acc w.
  - exists [], acc, w. split; [reflexivity |]. split; reflexivity.
  - rewrite visitAll_cons.
    destruct (visit_walked c acc w) as (c' & acc1 & w1 & -> & Hl1 & Ho1).
    destruct (IHl acc1 w1) as (l' & acc2 & w2 & -> & Hl2 & Ho2).
    exists (c' :: l'), acc2, w2. split; [reflexivity |]. split.
    + unfold Walk.elementsOf in *. cbn [flat_map] in *.
      rewrite !app_nil_r in Hl1. exact (loop_app _ _ _ _ _ _ _ _ _ _ Hl1 Hl2).
    + intros tag' Hne. specialize (Ho1 tag' Hne). specialize (Ho2 tag' Hne).
      unfold Walk.elementsOf in *. cbn [flat_map] in *.
      rewrite !app_nil_r in Ho1. congruence.
Qed.

End WalkFacts.

Section WalkUnchanged.
Context {A : Type}.
Variable tag : string.
Variable body : Walk.attrs -> A -> M (Walk.attrs * A).

(** A loop body that leaves the elements of [doc] as they are leaves
    [doc] as it is. *)
Lemma visit_unchanged n :
  (forall a, In a (Walk.elements tag n) ->
             forall acc w, body a acc w = (Return (a, acc), w)) ->
  forall acc w, Walk.visit tag body n acc w = (Return (n, acc), w).
Proof.
  induction n as [d|d|t a children IH] using node_induction; intros Hb acc w.
  - reflexivity.
  - reflexivity.
  - rewrite visit_Element. rewrite elements_Element in Hb.
    assert ((if String.eqb t tag then body a acc else ret (a, acc)) w
            = (Return (a, acc), w)) as ->.
    { destruct (String.eqb t tag); [| reflexivity].
      apply Hb. left. reflexivity. }
    assert (forall acc w, Walk.visitAll tag body children acc w
                          = (Return (children, acc), w)) as ->; [| reflexivity].
    assert (forall a, In a (Walk.elementsOf tag children) ->
                      forall acc w, body a acc w = (Return (a, acc), w)) as Hch.
    { intros x Hx. apply Hb. apply in_or_app. right. exact Hx. }
    clear Hb acc w. induction IH as [|c l Hc _ IHl]; intros acc w; [reflexivity |].
    rewrite visitAll_cons. unfold Walk.elementsOf in Hch. cbn [flat_map] in Hch.
    rewrite Hc by (intros x Hx; apply Hch, in_or_app; left; exact Hx).
    rewrite IHl by (intros x Hx; apply Hch, in_or_app; right; exact Hx).
    reflexivity.
Qed.

Lemma visitAll_unchanged doc :
  (forall a, In a (Walk.elementsOf tag doc) ->
             forall acc w, body a acc w = (Return (a, acc), w)) ->
  forall acc w, Walk.visitAll tag body doc acc w = (Return (doc, acc), w).
Proof.
  induction doc as [|c l IHl]; intros Hb acc w; [reflexivity |].
  rewrite visitAll_cons. unfold Walk.elementsOf in Hb. cbn [flat_map] in Hb.
  rewrite visit_unchanged by (intros x Hx; apply Hb, in_or_app; left; exact Hx).
  rewrite IHl by (intros x Hx; apply Hb, in_or_app; right; exact Hx).
  reflexivity.
Qed.

End WalkUnchanged.

(** ** Downloading and rewriting images *)

Lemma growsBinary_same w w' : disk w' = disk w -> growsBinary w w'.
Proof. intros E. exists []. split; [rewrite E; symmetry; apply app_nil_r | constructor]. Qed.

Lemma growsBinary_refl w : growsBinary w w.
Proof. apply growsBinary_same. reflexivity. Qed.

Lemma growsBinary_trans w1 w2 w3 :
  growsBinary w1 w2 -> growsBinary w2 w3 -> growsBinary w1 w3.
Proof.
  intros (e1 & H1 & F1) (e2 & H2 & F2). exists (e1 ++ e2). split.
  - rewrite H2, H1, app_assoc. reflexivity.
  - apply Forall_app. split; assumption.
Qed.

Lemma growsBinary_In w w' op : growsBinary w w' -> In op (disk w) -> In op (disk w').
Proof. intros (e & -> & _) Hin. apply in_or_app. left. exact Hin. Qed.

Lemma growsBinary_documents w w' : growsBinary w w' -> documents w' = documents w.
Proof.
  intros (e & He & F). unfold documents. rewrite He, flat_map_app.
  assert (flat_map (fun op => match op with
                              | WriteFile path (Utf8 text) => [(path, text)]
                              | _ => []
                              end) e = []) as ->; [| apply app_nil_r].
  clear He. induction F as [|op l Hop _ IH]; [reflexivity |].
  cbn [flat_map]. rewrite IH. destruct op as [|p [|]]; try reflexivity. destruct Hop.
Qed.

Section ImageFacts.
Context `{Jsdom} `{Paths} `{Env}.
Variable self : Exporter.

Lemma downloadImage_cases imageUrl postSlug w :
  exists r w',
    downloadImage self imageUrl postSlug w = (Return r, w')
    /\ requests w' = requests w ++ [imageUrl]
    /\ growsBinary w w'
    /\ (r = None
        \/ r = Some (imagePathOf self imageUrl postSlug)
           /\ console w' = console w
           /\ exists bytes,
               disk w' = disk w ++ [Mkdir (path_join (imagesDir self) (sanitize postSlug));
                                    WriteFile (imagePathOf self imageUrl postSlug)
                                      (Binary bytes)]).
Proof.
  unfold downloadImage, tryCatch, bind, doFetch, lift.
  destruct (fetch w imageUrl) as [[status buffer]|e].
  2:{ eexists _, _. split; [reflexivity |]. cbn.
      split; [reflexivity |]. split; [apply growsBinary_same; reflexivity | left; reflexivity]. }
  destruct (ok status); cbn [negb].
  2:{ eexists _, _. split; [reflexivity |]. cbn.
      split; [reflexivity |]. split; [apply growsBinary_same; reflexivity | left; reflexivity]. }
  unfold doFs at 1.
  destruct (fs_error _ (Mkdir _)) as [e|].
  { eexists _, _. split; [reflexivity |]. cbn.
    split; [reflexivity |]. split; [apply growsBinary_same; reflexivity | left; reflexivity]. }
  unfold doFs at 1.
  destruct (fs_error _ (WriteFile _ _)) as [e|].
  { eexists _, _. split; [reflexivity |]. cbn.
    split; [reflexivity |]. split; [| left; reflexivity].
    eexists. cbn. split; [reflexivity |]. repeat constructor. }
  eexists _, _. split; [reflexivity |]. cbn.
  split; [reflexivity |]. split.
  - eexists. cbn. split; [rewrite <- app_assoc; reflexivity | repeat constructor].
  - right. split; [reflexivity |]. split; [reflexivity |].
    exists buffer. rewrite <- app_assoc. reflexivity.
Qed.

End ImageFacts.

Section AssetFacts.
Context `{Jsdom} `{Paths} `{Env}.
Variable self : Exporter.
Variable postSlug : string.

Lemma firstPass_total : Walk.total (firstPass self postSlug).
Proof.
  intros img acc w. unfold firstPass.
  destruct (JS.truthy (urlProperty "src" img)); cbn [negb].
  - unfold bind.
    destruct (downloadImage_cases self (urlProperty "src" img) postSlug w)
      as (r & w' & -> & _).
    destruct r as [p|]; [destruct (JS.truthy p) |]; eexists _, _, _; reflexivity.
  - eexists _, _, _; reflexivity.
Qed.

Lemma secondPass_total urlMap : Walk.total (secondPass urlMap).
Proof.
  intros link acc w. unfold secondPass.
  destruct (JS.truthy _); [| eexists _, _, _; reflexivity].
  destruct (urlMap !! _); eexists _, _, _; reflexivity.
Qed.

Lemma firstPass_loop l acc w :
  recorded self postSlug (imageUrlMap acc) w ->
  exists l' acc' w',
    Walk.loop (firstPass self postSlug) l acc w = (Return (l', acc'), w')
    /\ recorded self postSlug (imageUrlMap acc') w'
    /\ requests w' = requests w ++ List.filter JS.truthy (map (urlProperty "src") l)
    /\ growsBinary w w'
    /\ (forall url p, imageUrlMap acc !! url = Some p -> imageUrlMap acc' !! url = Some p)
    /\ Forall2 (imgRewritten (imageUrlMap acc')) l l'
    /\ (l = [] -> acc' = acc /\ w' = w).
Proof.
  revert acc w. induction l as [|img l IH]; intros acc w Hrec.
  - exists [], acc, w. cbn. rewrite app_nil_r.
    repeat apply conj; auto using growsBinary_refl.
  - rewrite loop_cons.
    assert (exists img' acc1 w1,
               firstPass self postSlug img acc w = (Return (img', acc1), w1)
               /\ recorded self postSlug (imageUrlMap acc1) w1
               /\ requests w1
                  = requests w ++ List.filter JS.truthy [urlProperty "src" img]
               /\ growsBinary w w1
               /\ (forall url p, imageUrlMap acc !! url = Some p ->
                                 imageUrlMap acc1 !! url = Some p)
               /\ imgRewritten (imageUrlMap acc1) img img') as Hstep.
    { unfold firstPass. cbn [List.filter].
      destruct (JS.truthy (urlProperty "src" img)) eqn:Turl; cbn [negb].
      2:{ exists img, acc, w. rewrite app_nil_r.
          repeat apply conj; auto using growsBinary_refl; try (left; reflexivity). }
      unfold bind.
      destruct (downloadImage_cases self (urlProperty "src" img) postSlug w)
        as (r & w1 & -> & Hreq & Hgrow & Hr).
      assert (recorded self postSlug (imageUrlMap acc) w1) as Hrec1.
      { intros url p Hp. destruct (Hrec url p Hp) as (Hpath & Ht & bytes & Hin).
        repeat apply conj; try assumption. exists bytes.
        exact (growsBinary_In _ _ _ Hgrow Hin). }
      destruct Hr as [->|(-> & _ & bytes & Hdisk)].
      { exists img, acc, w1. repeat apply conj; auto; try (left; reflexivity). }
      destruct (JS.truthy (imagePathOf self (urlProperty "src" img) postSlug)) eqn:Tp.
      2:{ exists img, acc, w1. repeat apply conj; auto; try (left; reflexivity). }
      eexists _, _, w1. split; [reflexivity |]. cbn [imageUrlMap].
      split; [| split; [exact Hreq | split; [exact Hgrow | split]]].
      - intros url p Hp. destruct (decide (urlProperty "src" img = url)) as [<-|Hne].
        + rewrite lookup_insert_eq in Hp. injection Hp as <-.
          repeat apply conj; try assumption; try reflexivity. exists bytes. rewrite Hdisk.
          apply in_or_app. right. right. left. reflexivity.
        + rewrite lookup_insert_ne in Hp by exact Hne. exact (Hrec1 url p Hp).
      - intros url p Hp. destruct (decide (urlProperty "src" img = url)) as [<-|Hne].
        + rewrite lookup_insert_eq. f_equal. symmetry. apply (Hrec _ _ Hp).
        + rewrite lookup_insert_ne by exact Hne. exact Hp.
      - right. eexists. split; [apply lookup_insert_eq | reflexivity]. }
    destruct Hstep as (img' & acc1 & w1 & -> & Hrec1 & Hreq1 & Hgrow1 & Hmono1 & Himg).
    destruct (IH acc1 w1 Hrec1)
      as (l' & acc2 & w2 & -> & Hrec2 & Hreq2 & Hgrow2 & Hmono2 & Hall & _).
    exists (img' :: l'), acc2, w2. split; [reflexivity |].
    split; [exact Hrec2 |]. split; [| split; [| split; [| split]]].
    + rewrite Hreq2, Hreq1. cbn [map List.filter].
      destruct (JS.truthy (urlProperty "src" img)); cbn [app];
        rewrite <- ?app_assoc, ?app_nil_r; reflexivity.
    + exact (growsBinary_trans _ _ _ Hgrow1 Hgrow2).
    + intros url p Hp. apply Hmono2, Hmono1, Hp.
    + constructor; [| exact Hall].
      destruct Himg as [->|(p & Hp & ->)]; [left; reflexivity |].
      right. exists p. split; [apply Hmono2, Hp | reflexivity].
    + discriminate.
Qed.

Lemma secondPass_loop urlMap l w :
  exists w',
    Walk.loop (secondPass urlMap) l tt w = (Return (map (rewriteLink urlMap) l, tt), w')
    /\ requests w' = requests w /\ disk w' = disk w.
Proof.
  revert w. induction l as [|link l IH]; intros w.
  - exists w. repeat apply conj; reflexivity.
  - rewrite loop_cons.
    assert (exists w1, secondPass urlMap link tt w
                       = (Return (rewriteLink urlMap link, tt), w1)
                       /\ requests w1 = requests w /\ disk w1 = disk w) as Hstep.
    { unfold secondPass, rewriteLink.
      destruct (JS.truthy _); [| exists w; repeat apply conj; reflexivity].
      destruct (urlMap !! _) as [p|] eqn:E; [| exists w; repeat apply conj; reflexivity].
      eexists. split; [reflexivity |]. cbn. split; reflexivity. }
    destruct Hstep as (w1 & -> & Hreq1 & Hdisk1).
    destruct (IH w1) as (w2 & -> & Hreq2 & Hdisk2).
    exists w2. cbn [map]. repeat apply conj; [reflexivity | congruence | congruence].
Qed.

(** When the collaborators answer the same whenever they are asked,
    whether a download succeeds depends on the URL alone. *)
Lemma downloadImage_steady url w1 w2 :
  steady -> fst (downloadImage self url postSlug w1) = fst (downloadImage self url postSlug w2).
Proof.
  intros [Hfetch Hfs]. unfold downloadImage, tryCatch, bind, doFetch, lift.
  rewrite (Hfetch w1 w2). destruct (fetch w2 url) as [[status buffer]|e]; [| reflexivity].
  destruct (ok status); cbn [negb]; [| reflexivity].
  unfold doFs at 1 3.
  match goal with
  | |- context [fs_error ?x (Mkdir ?d)] =>
      match goal with
      | |- context [fs_error ?y (Mkdir d)] =>
          lazymatch x with y => fail | _ => rewrite (Hfs x y (Mkdir d)) end
      end
  end.
  destruct (fs_error _ (Mkdir _)); [reflexivity |].
  unfold doFs.
  match goal with
  | |- context [fs_error ?x (WriteFile ?p ?d)] =>
      match goal with
      | |- context [fs_error ?y (WriteFile p d)] =>
          lazymatch x with y => fail | _ => rewrite (Hfs x y (WriteFile p d)) end
      end
  end.
  destruct (fs_error _ (WriteFile _ _)); reflexivity.
Qed.

Lemma firstPass_loop_steady l acc w l' acc' w' :
  steady ->
  recorded self postSlug (imageUrlMap acc) w ->
  fetchable self postSlug (imageUrlMap acc) ->
  Walk.loop (firstPass self postSlug) l acc w = (Return (l', acc'), w') ->
  fetchable self postSlug (imageUrlMap acc')
  /\ Forall2 (fun img img' =>
                forall p, imageUrlMap acc' !! urlProperty "src" img = Some p ->
                          img' = DOM.setAttribute "src" p img) l l'.
Proof.
  intros Hsteady. revert acc w l'. induction l as [|img l IH]; intros acc w l' Hrec Hfet.
  - cbn. intros [= <- <- <-]. split; [exact Hfet | constructor].
  - rewrite loop_cons.
    destruct (firstPass self postSlug img acc w) as [[[img' acc1]|e|c] w1] eqn:Estep;
      try discriminate.
    destruct (Walk.loop (firstPass self postSlug) l acc1 w1) as [[[r acc2]|e|c] w2] eqn:Erest;
      try discriminate.
    intros [= <- <- <-].
    (* the state after the first element *)
    destruct (firstPass_loop [img] acc w Hrec)
      as (l1 & acc1' & w1' & Hl1 & Hrec1 & _).
    rewrite loop_cons, Estep in Hl1. cbn in Hl1. injection Hl1 as <- <- <-.
    assert (fetchable self postSlug (imageUrlMap acc1)
            /\ (forall p, fst (downloadImage self (urlProperty "src" img) postSlug w)
                          = Return (Some p) ->
                          JS.truthy p = true ->
                          JS.truthy (urlProperty "src" img) = true ->
                          img' = DOM.setAttribute "src" p img)) as [Hfet1 Himg].
    { unfold firstPass in Estep.
      destruct (JS.truthy (urlProperty "src" img)) eqn:Turl; cbn [negb] in Estep.
      2:{ injection Estep as <- <- <-. split; [exact Hfet | discriminate]. }
      unfold bind in Estep.
      destruct (downloadImage self (urlProperty "src" img) postSlug w)
        as [[[p|]|e|c] w0] eqn:Edl; try discriminate.
      2:{ injection Estep as <- <- <-. split; [exact Hfet | discriminate]. }
      destruct (JS.truthy p) eqn:Tp.
      2:{ injection Estep as <- <- <-. split; [exact Hfet |].
          cbn. intros p' [= <-]. congruence. }
      injection Estep as <- <- <-. cbn [imageUrlMap]. split.
      - intros url q w3 Hq. destruct (decide (urlProperty "src" img = url)) as [<-|Hne].
        + rewrite lookup_insert_eq in Hq. injection Hq as <-. split; [| exact Tp].
          rewrite (downloadImage_steady _ w3 w Hsteady), Edl. reflexivity.
        + rewrite lookup_insert_ne in Hq by exact Hne. exact (Hfet url q w3 Hq).
      - cbn. intros p' [= <-] _ _. reflexivity. }
    destruct (IH acc1 w1 r Hrec1 Hfet1 Erest) as [Hfet2 Hall].
    split; [exact Hfet2 |]. constructor; [| exact Hall].
    intros p Hp. destruct (Hfet2 _ _ w Hp) as [Hdl Tp].
    apply (Himg p Hdl Tp).
    destruct (firstPass_loop l acc1 w1 Hrec1)
      as (l2 & acc2' & w2' & Hl2 & Hrec2 & _).
    rewrite Erest in Hl2. injection Hl2 as <- <- <-.
    exact (proj1 (proj2 (Hrec2 _ _ Hp))).
Qed.

(** The whole of [processImages]. *)
Lemma processImages_spec content w :
  exists doc' urlMap w',
    processImages self content postSlug w = (Return (urlMap, innerHTML doc'), w')
    /\ recorded self postSlug urlMap w'
    /\ requests w'
       = requests w
           ++ List.filter JS.truthy
                (map (urlProperty "src") (Walk.elementsOf "img" (JSDOM content)))
    /\ growsBinary w w'
    /\ Forall2 (imgRewritten urlMap)
         (Walk.elementsOf "img" (JSDOM content)) (Walk.elementsOf "img" doc')
    /\ Walk.elementsOf "a" doc'
       = map (rewriteLink urlMap) (Walk.elementsOf "a" (JSDOM content))
    /\ (steady ->
        Forall2 (fun img img' =>
                   forall p, urlMap !! urlProperty "src" img = Some p ->
                             img' = DOM.setAttribute "src" p img)
          (Walk.elementsOf "img" (JSDOM content)) (Walk.elementsOf "img" doc')).
Proof.
  unfold processImages. unfold bind at 1.
  destruct (visitAll_walked "img" (firstPass self postSlug) firstPass_total
              (JSDOM content) {| downloadedImages := []; imageUrlMap := ∅ |} w)
    as (doc1 & acc1 & w1 & -> & Hloop1 & Hother1).
  destruct (firstPass_loop (Walk.elementsOf "img" (JSDOM content))
              {| downloadedImages := []; imageUrlMap := ∅ |} w)
    as (l' & acc1' & w1' & Hl & Hrec & Hreq & Hgrow & _ & Himgs & _).
  { intros url p Hp. cbn in Hp. rewrite lookup_empty in Hp. discriminate. }
  rewrite Hloop1 in Hl. injection Hl as <- <- <-.
  unfold bind at 1.
  destruct (visitAll_walked "a" (secondPass (imageUrlMap acc1))
              (secondPass_total (imageUrlMap acc1)) doc1 tt w1)
    as (doc2 & [] & w2 & -> & Hloop2 & Hother2).
  destruct (secondPass_loop (imageUrlMap acc1) (Walk.elementsOf "a" doc1) w1)
    as (w2' & Hl2 & Hreq2 & Hdisk2).
  rewrite Hloop2 in Hl2. injection Hl2 as Hlinks <-.
  unfold bind at 1, log at 1, ret, logged.
  exists doc2, (imageUrlMap acc1). eexists. split; [reflexivity |]. cbn.
  split; [| split; [| split; [| split; [| split]]]].
  - intros url p Hp. destruct (Hrec url p Hp) as (Hpath & Ht & bytes & Hin).
    repeat apply conj; try assumption. exists bytes. rewrite Hdisk2. exact Hin.
  - rewrite Hreq2. exact Hreq.
  - destruct Hgrow as (extra & Hd & Hf). exists extra. cbn. rewrite Hdisk2. auto.
  - rewrite (Hother2 "img") by discriminate. exact Himgs.
  - rewrite Hlinks, (Hother1 "a") by discriminate. reflexivity.
  - intros Hsteady. rewrite (Hother2 "img") by discriminate.
    refine (proj2 (firstPass_loop_steady _ _ _ _ _ _ Hsteady _ _ Hloop1)).
    + intros url p Hp. cbn in Hp. rewrite lookup_empty in Hp. discriminate.
    + intros url p w0 Hp. cbn in Hp. rewrite lookup_empty in Hp. discriminate.
Qed.

End AssetFacts.

(** ** The last segment of a URL *)


Lemma split_pieces sep s : Forall (fun piece => hasChar sep piece = false) (JS.split sep s).
Proof.
  induction s as [|c s IH]; [repeat constructor |].
  cbn [JS.split]. destruct (Ascii.eqb_spec c sep) as [->|Hne].
  - constructor; [reflexivity | exact IH].
  - destruct (JS.split sep s) as [|piece rest]; [repeat constructor |].
    + cbn [hasChar]. apply Ascii.eqb_neq in Hne. rewrite Ascii.eqb_sym, Hne. reflexivity.
    + inversion IH as [|? ? Hp Hr]; subst. constructor; [| exact Hr].
      cbn [hasChar]. apply Ascii.eqb_neq in Hne. rewrite Ascii.eqb_sym, Hne. exact Hp.
Qed.




(** ** Asset resolution *)


Section AssetClaims.
Context `{Jsdom} `{Paths} `{Env}.




(** C5 (amended). When the parsed body has no [img] element the
    document is not touched: the mapping is empty, nothing is fetched or
    written, and the markup returned is the parser's re-serialisation of
    the input, [innerHTML (JSDOM content)]. *)
Theorem no_images_no_rewrite
    (self : Exporter) (content postSlug : string) (w : World) :
  Walk.elementsOf "img" (JSDOM content) = [] ->
  processImages self content postSlug w
  = (Return (∅, innerHTML (JSDOM content)),
     {| requests := requests w; disk := disk w;
        console := console w ++ [DownloadedImages 0 postSlug] |}).
Proof.
  intros Hnone. unfold processImages. unfold bind at 1.
  rewrite visitAll_unchanged by (rewrite Hnone; intros a []).
  unfold bind at 1. cbn [imageUrlMap downloadedImages].
  rewrite visitAll_unchanged.
  - reflexivity.
  - intros link _ acc w0. unfold secondPass.
    destruct (JS.truthy _); [| reflexivity].
    rewrite lookup_empty. reflexivity.
Qed.

End AssetClaims.

(** ** One post after the other *)

Lemma binaryOnly_ret {A} (a : A) : binaryOnly (ret a).
Proof. intros w r w' [= _ <-]. apply growsBinary_refl. Qed.

Lemma binaryOnly_lift {A} (r : Res A) : binaryOnly (lift r).
Proof. intros w r' w' [= _ <-]. apply growsBinary_refl. Qed.

Lemma binaryOnly_log e : binaryOnly (log e).
Proof. intros w r w' [= _ <-]. apply growsBinary_same. reflexivity. Qed.

Lemma binaryOnly_bind {A B} (m : M A) (k : A -> M B) :
  binaryOnly m -> (forall a, binaryOnly (k a)) -> binaryOnly (bind m k).
Proof.
  intros Hm Hk w r w' Hrun. unfold bind in Hrun.
  destruct (m w) as [[a|e|c] w1] eqn:E.
  - exact (growsBinary_trans _ _ _ (Hm _ _ _ E) (Hk a _ _ _ Hrun)).
  - injection Hrun as _ <-. exact (Hm _ _ _ E).
  - injection Hrun as _ <-. exact (Hm _ _ _ E).
Qed.

Lemma binaryOnly_forOf {A B} (body : A -> B -> M A) (l : list B) (acc : A) :
  (forall a b, binaryOnly (body a b)) -> binaryOnly (forOf body l acc).
Proof.
  intros Hb. revert acc. induction l as [|x l IH]; intros acc.
  - apply binaryOnly_ret.
  - cbn [forOf]. apply binaryOnly_bind; [apply Hb | apply IH].
Qed.

Lemma forOf_app_raise {A B} (body : A -> B -> M A) (pre : list B) (bad : B) (rest : list B)
    (acc acc1 : A) (w w1 w2 : World) (e : error) :
  forOf body pre acc w = (Return acc1, w1) ->
  body acc1 bad w1 = (Raise e, w2) ->
  forOf body (pre ++ bad :: rest) acc w = (Raise e, w2).
Proof.
  revert acc w. induction pre as [|x pre IH]; intros acc w Hpre Hbad.
  - cbn in Hpre. injection Hpre as <- <-. cbn [app forOf]. unfold bind. rewrite Hbad.
    reflexivity.
  - cbn [app forOf] in *. unfold bind in *.
    destruct (body acc x w) as [[a|e'|c] w'] eqn:E; try discriminate.
    exact (IH _ _ Hpre Hbad).
Qed.

Section RunFacts.
Context `{Jsdom} `{Paths} `{Env} `{LangDetector} `{TurndownService} `{Yaml}.

Lemma binaryOnly_downloadImage self url postSlug :
  binaryOnly (downloadImage self url postSlug).
Proof.
  intros w r w' Hrun.
  destruct (downloadImage_cases self url postSlug w) as (r' & w'' & E & _ & Hg & _).
  rewrite Hrun in E. injection E as _ ->. exact Hg.
Qed.

Lemma binaryOnly_processImages self content postSlug :
  binaryOnly (processImages self content postSlug).
Proof.
  intros w r w' Hrun.
  destruct (processImages_spec self postSlug content w)
    as (doc' & urlMap & w'' & E & _ & _ & Hg & _).
  rewrite Hrun in E. injection E as _ ->. exact Hg.
Qed.

Lemma binaryOnly_createFrontMatter self post urlMap :
  binaryOnly (createFrontMatter self post urlMap).
Proof.
  unfold createFrontMatter. apply binaryOnly_bind.
  - unfold extractFeaturedImage. destruct (_ ≫= _) as [media|]; [| apply binaryOnly_ret].
    destruct (urlMap !! _); [apply binaryOnly_ret | apply binaryOnly_downloadImage].
  - intros featured. apply binaryOnly_bind.
    + apply binaryOnly_forOf. intros. apply binaryOnly_lift.
    + intros fm. apply binaryOnly_bind; [apply binaryOnly_lift |].
      intros. apply binaryOnly_ret.
Qed.

Lemma binaryOnly_convertPostToMarkdown self post :
  binaryOnly (convertPostToMarkdown self post).
Proof.
  unfold convertPostToMarkdown. apply binaryOnly_bind; [apply binaryOnly_processImages |].
  intros [urlMap content]. apply binaryOnly_bind.
  { apply binaryOnly_forOf. intros. apply binaryOnly_lift. }
  intros html. apply binaryOnly_bind; [apply binaryOnly_lift |].
  intros md. apply binaryOnly_bind.
  { apply binaryOnly_forOf. intros. apply binaryOnly_lift. }
  intros md'. apply binaryOnly_bind; [apply binaryOnly_createFrontMatter |].
  intros. apply binaryOnly_ret.
Qed.

Lemma exportPost_returns self total converted post w converted' w' :
  exportPost self total converted post w = (Return converted', w') ->
  converted' = S converted
  /\ exists markdown, documents w' = documents w ++ [(documentPath self post, markdown)].
Proof.
  unfold exportPost. unfold bind at 1. cbn [log].
  unfold bind at 1.
  destruct (convertPostToMarkdown self post _) as [[md|e|c] w1] eqn:E; try discriminate.
  apply binaryOnly_convertPostToMarkdown, growsBinary_documents in E.
  unfold bind at 1, doFs.
  destruct (fs_error w1 _); [discriminate |].
  unfold bind at 1. cbn [log ret]. intros [= <- <-]. split; [reflexivity |].
  exists md. unfold documents in *. cbn [disk logged] in *.
  rewrite flat_map_app, E. reflexivity.
Qed.

Lemma exportPost_raises self total converted post w e w' :
  convertPostToMarkdown self post (logged (ProcessingPost (slug post)) w) = (Raise e, w') ->
  exportPost self total converted post w = (Raise e, w')
  /\ documents w' = documents w.
Proof.
  intros E. unfold exportPost. unfold bind at 1. cbn [log]. unfold bind at 1.
  rewrite E. split; [reflexivity |].
  apply binaryOnly_convertPostToMarkdown, growsBinary_documents in E. exact E.
Qed.

Lemma exportPosts_loop self total posts converted w converted' w' :
  forOf (exportPost self total) posts converted w = (Return converted', w') ->
  converted' = (converted + length posts)%nat
  /\ exists markdowns,
      length markdowns = length posts
      /\ documents w' = documents w ++ zip (map (documentPath self) posts) markdowns.
Proof.
  revert converted w. induction posts as [|post posts IH]; intros converted w.
  - cbn. intros [= <- <-]. split; [lia |]. exists []. rewrite app_nil_r. auto.
  - cbn [forOf]. unfold bind at 1.
    destruct (exportPost self total converted post w) as [[k|e|c] w1] eqn:E;
      try discriminate.
    apply exportPost_returns in E as (-> & md & Hd1).
    intros Hrest. apply IH in Hrest as (-> & mds & Hlen & Hd2).
    split; [cbn [length]; lia |].
    exists (md :: mds). split; [cbn [length]; lia |].
    rewrite Hd2, Hd1, <- app_assoc. reflexivity.
Qed.

End RunFacts.

Section RunClaims.
Context `{Jsdom} `{Paths} `{Env} `{LangDetector} `{TurndownService} `{Yaml} `{Sources}.

(** C1 (amended). When the pipeline of a post throws, the error reaches
    the one handler of [exportPosts]: it is printed as an export failure
    (the post was named when its processing started), the process ends
    with status 1 and the posts after it are not processed; the documents
    written are those of the posts before it, one each. *)
Theorem export_stops_at_first_failure
    (self self' : Exporter) (pre : list Post) (bad : Post) (rest : list Post)
    (e : error) (converted : nat) (w w0 w1 w2 w3 : World) :
  init self w = (Return self', w0) ->
  fetchPosts self' w0 = (Return (pre ++ bad :: rest), w1) ->
  forOf (exportPost self' (length (pre ++ bad :: rest))) pre 0%nat (logged ConvertingPosts w1)
  = (Return converted, w2) ->
  convertPostToMarkdown self' bad (logged (ProcessingPost (slug bad)) w2) = (Raise e, w3) ->
  exportPosts self w = (Exit 1, logged (ExportFailed e) w3)
  /\ exists markdowns,
      length markdowns = length pre
      /\ documents (logged (ExportFailed e) w3)
         = documents w1 ++ zip (map (documentPath self') pre) markdowns.
Proof.
  intros Hinit Hfetch Hpre Hbad.
  destruct (exportPost_raises self' (length (pre ++ bad :: rest)) converted bad w2 e w3 Hbad)
    as [Hraise Hdocs].
  pose proof (forOf_app_raise _ _ _ rest _ _ _ _ _ _ Hpre Hraise) as Hloop.
  split.
  - unfold exportPosts, tryCatch. unfold bind at 1. rewrite Hinit.
    unfold bind at 1. rewrite Hfetch. unfold bind at 1. cbn [log].
    unfold bind at 1. rewrite Hloop. unfold bind. cbn [log exit]. reflexivity.
  - apply exportPosts_loop in Hpre as (_ & mds & Hlen & Hd).
    exists mds. split; [exact Hlen |].
    change (documents (logged (ExportFailed e) w3)) with (documents w3).
    rewrite Hdocs, Hd. reflexivity.
Qed.

End RunClaims.

(** ** Plugin hooks *)

Lemma bind_ext {A B} (m : M A) (k k' : A -> M B) w :
  (forall a w', k a w' = k' a w') -> bind m k w = bind m k' w.
Proof.
  intros Hk. unfold bind. destruct (m w) as [[a|e|c] w']; [apply Hk | reflexivity..].
Qed.

Lemma applyHooks_throw {A} (hook : Plugin -> A -> Res A) plugins e :
  fold_left (fun r plugin => match r with
                             | Ok a => hook plugin a
                             | Throw e => Throw e
                             end) plugins (Throw e) = Throw e.
Proof. induction plugins as [|p ps IH]; [reflexivity | exact IH]. Qed.

Lemma applyHooks_cons {A} (hook : Plugin -> A -> Res A) p plugins x :
  applyHooks hook (p :: plugins) x
  = match hook p x with
    | Ok a => applyHooks hook plugins a
    | Throw e => Throw e
    end.
Proof.
  unfold applyHooks. cbn [fold_left].
  destruct (hook p x); [reflexivity | apply applyHooks_throw].
Qed.

Lemma forOf_applyHooks {A} (hook : Plugin -> A -> Res A) plugins x w :
  forOf (fun a plugin => lift (hook plugin a)) plugins x w
  = lift (applyHooks hook plugins x) w.
Proof.
  revert x. induction plugins as [|p ps IH]; intros x; [reflexivity |].
  cbn [forOf]. rewrite applyHooks_cons. unfold bind, lift at 1.
  destruct (hook p x) as [a|e]; [apply IH | reflexivity].
Qed.

Lemma bind_forOf {A B} (hook : Plugin -> A -> Res A) plugins x (k : A -> M B) w :
  bind (forOf (fun a plugin => lift (hook plugin a)) plugins x) k w
  = bind (lift (applyHooks hook plugins x)) k w.
Proof. unfold bind. rewrite forOf_applyHooks. reflexivity. Qed.

Lemma resolvePlugins_names allPlugins names found :
  resolvePlugins allPlugins names = ([], found) -> map name found = names.
Proof.
  revert found. induction names as [|n names IH]; intros found; cbn [resolvePlugins].
  - intros [= <-]. reflexivity.
  - destruct (resolvePlugins allPlugins names) as [missing found'].
    destruct (List.find _ allPlugins) as [plugin|] eqn:E; [| discriminate].
    intros [= -> <-]. cbn [map]. rewrite (IH found' eq_refl).
    apply List.find_some in E as [_ E]. apply String.eqb_eq in E. congruence.
Qed.

Section PipelineClaims.
Context `{Jsdom} `{Paths} `{Env} `{LangDetector} `{TurndownService} `{Yaml}.

Lemma createFrontMatter_folded self post urlMap w :
  createFrontMatter self post urlMap w = foldedFrontMatter self post urlMap w.
Proof.
  unfold createFrontMatter, foldedFrontMatter.
  apply bind_ext. intros featured w1.
  apply (bind_forOf (fun plugin fm => processFrontMatter plugin fm post)).
Qed.

(** C9. Each of the three hooks is folded over the loaded plugins from
    left to right, a plugin getting what the one before it returned; the
    loaded plugins are in the order of the configured names.  For two
    plugins [A] and [B] the Markdown is [B.processMarkdown] of
    [A.processMarkdown] of the converter's output, and the order matters:
    the two bundled path-fixing plugins give different texts in the two
    orders. *)
Theorem plugin_hooks_fold_left_to_right (self : Exporter) (post : Post) :
  (forall w, convertPostToMarkdown self post w = foldedPipeline self post w)
  /\ (forall (A B : Plugin) (base : string),
         applyHooks processMarkdown [A; B] base
         = match processMarkdown A base with
           | Ok markdown => processMarkdown B markdown
           | Throw e => Throw e
           end)
  /\ (forall allPlugins names found,
         resolvePlugins allPlugins names = ([], found) -> map name found = names)
  /\ applyHooks processMarkdown
       [ExampleFixPathsMarkdown.plugin; ExampleFixPathsPlugin.plugin]
       "static/images/blogs/x.png"
     <> applyHooks processMarkdown
          [ExampleFixPathsPlugin.plugin; ExampleFixPathsMarkdown.plugin]
          "static/images/blogs/x.png".
Proof.
  split; [| split; [| split]].
  - intros w. unfold convertPostToMarkdown, foldedPipeline.
    apply bind_ext. intros [urlMap content] w1.
    rewrite (bind_forOf (fun plugin html => processHtml plugin html urlMap)).
    apply bind_ext. intros html w2.
    apply bind_ext. intros markdown w3.
    rewrite (bind_forOf processMarkdown).
    apply bind_ext. intros markdown' w4.
    unfold bind. rewrite createFrontMatter_folded. reflexivity.
  - intros A B base. rewrite applyHooks_cons.
    destruct (processMarkdown A base); [| reflexivity].
    rewrite applyHooks_cons. destruct (processMarkdown B a); reflexivity.
  - exact resolvePlugins_names.
  - vm_compute. discriminate.
Qed.

End PipelineClaims.

(** ** Frontmatter *)

Section FrontMatterClaims.
Context `{Jsdom} `{Paths} `{Env} `{Yaml}.

Lemma dumpEntries_lines (o : FrontMatter) (out : string) :
  dumpEntries o = Ok out ->
  exists lines,
    Forall2 (fun '(k, v) line => dumpEntry k v = Ok line) o lines
    /\ out = fold_right String.append EmptyString lines.
Proof.
  revert out. induction o as [|[k v] o IH]; intros out; cbn [dumpEntries].
  - intros [= <-]. exists []. split; [constructor | reflexivity].
  - destruct (dumpEntry k v) as [line|e] eqn:E; [| discriminate].
    destruct (dumpEntries o) as [rest|e]; [| discriminate].
    intros [= <-]. destruct (IH rest eq_refl) as (lines & Hl & ->).
    exists (line :: lines). split; [constructor; assumption | reflexivity].
Qed.

(** C8. The document [createFrontMatter] builds has the keys title, date,
    modified, slug, status, categories, tags, author, excerpt and
    original_url in this order, followed by featured_image exactly when
    the featured image resolved; [yaml.dump] writes the entries in that
    order, and with no plugin loaded this is what [createFrontMatter]
    returns between its two [---] lines; a post without embedded terms
    gets empty lists of categories and tags. *)
Theorem frontmatter_key_order
    (self : Exporter) (post : Post) (featuredMediaUrl : option string) :
  (Obj.keys (baseFrontMatter self post featuredMediaUrl) = fixedKeys
   \/ Obj.keys (baseFrontMatter self post featuredMediaUrl)
      = fixedKeys ++ ["featured_image"])
  /\ (In "featured_image" (Obj.keys (baseFrontMatter self post featuredMediaUrl))
      <-> resolved featuredMediaUrl)
  /\ (forall out,
         yaml_dump (baseFrontMatter self post featuredMediaUrl) = Ok out ->
         exists lines,
           Forall2 (fun '(k, v) line => dumpEntry k v = Ok line)
             (baseFrontMatter self post featuredMediaUrl) lines
           /\ out = fold_right String.append EmptyString lines)
  /\ (loadedPlugins self = [] ->
      forall urlMap w,
        createFrontMatter self post urlMap w
        = bind (extractFeaturedImage self post urlMap)
            (fun featured =>
               bind (lift (yaml_dump (baseFrontMatter self post featured)))
                 (fun dumped => ret ("---" +:+ LF +:+ dumped +:+ "---" +:+ LF +:+ LF))) w)
  /\ ((_embedded post ≫= wp_term) = None ->
      Obj.get "categories" (baseFrontMatter self post featuredMediaUrl) = VNames []
      /\ Obj.get "tags" (baseFrontMatter self post featuredMediaUrl) = VNames []).
Proof.
  split; [| split; [| split; [| split]]].
  - unfold baseFrontMatter.
    destruct featuredMediaUrl as [[|c url]|]; cbn; auto.
  - unfold baseFrontMatter, resolved.
    destruct featuredMediaUrl as [[|c url]|]; cbn.
    + split; [intros Hin | intros (url & [= <-] & Hne); congruence].
      repeat (destruct Hin as [Hin|Hin]; [discriminate |]). destruct Hin.
    + split; [intros _; eexists; split; [reflexivity | discriminate] |].
      intros _. do 10 right. left. reflexivity.
    + split; [intros Hin | intros (url & [=] & _)].
      repeat (destruct Hin as [Hin|Hin]; [discriminate |]). destruct Hin.
  - intros out Hout. apply dumpEntries_lines.
    unfold yaml_dump in Hout.
    destruct (baseFrontMatter self post featuredMediaUrl) eqn:E; [| exact Hout].
    unfold baseFrontMatter in E. destruct featuredMediaUrl as [[|c url]|]; discriminate.
  - intros Hnone urlMap w. unfold createFrontMatter. rewrite Hnone. reflexivity.
  - intros Hnone. unfold baseFrontMatter. rewrite Hnone.
    destruct featuredMediaUrl as [[|c url]|]; cbn; auto.
Qed.

End FrontMatterClaims.

(** * Further properties *)

(** ** Lists given on the command line *)

Lemma split_single sep s : hasChar sep s = false -> JS.split sep s = [s].
Proof.
  induction s as [|c s IH]; [reflexivity |].
  cbn [hasChar JS.split]. rewrite Ascii.eqb_sym.
  destruct (Ascii.eqb c sep); [discriminate |]. cbn [orb].
  intros Hs. rewrite (IH Hs). reflexivity.
Qed.

Lemma split_append sep piece rest :
  hasChar sep piece = false ->
  JS.split sep (piece +:+ String sep rest) = piece :: JS.split sep rest.
Proof.
  induction piece as [|c piece IH].
  - intros _. rewrite append_nil. cbn [JS.split]. rewrite Ascii.eqb_refl. reflexivity.
  - cbn [hasChar]. rewrite append_cons. cbn [JS.split]. rewrite Ascii.eqb_sym.
    destruct (Ascii.eqb c sep); [discriminate |]. cbn [orb].
    intros Hp. rewrite (IH Hp). reflexivity.
Qed.

Lemma split_join sep pieces :
  pieces <> [] ->
  Forall (fun piece => hasChar sep piece = false) pieces ->
  JS.split sep (joinWith sep pieces) = pieces.
Proof.
  induction pieces as [|piece rest IH]; [congruence |].
  intros _ F. inversion F as [|? ? Hp Hr]; subst.
  destruct rest as [|piece' rest].
  - cbn [joinWith]. apply split_single, Hp.
  - change (joinWith sep (piece :: piece' :: rest))
      with (piece +:+ String sep (joinWith sep (piece' :: rest))).
    rewrite (split_append _ _ _ Hp), IH; [reflexivity | discriminate | exact Hr].
Qed.

Lemma trimStart_fixed s :
  (forall c, firstChar s = Some c -> JS.isWhiteSpace c = false) -> JS.trimStart s = s.
Proof.
  destruct s as [|c s]; [reflexivity |].
  intros Hc. cbn [JS.trimStart]. rewrite (Hc c eq_refl). reflexivity.
Qed.

Lemma trimEnd_fixed s :
  (forall c, lastChar s = Some c -> JS.isWhiteSpace c = false) -> JS.trimEnd s = s.
Proof.
  induction s as [|c s IH]; [reflexivity |].
  intros Hc. cbn [JS.trimEnd]. destruct s as [|c' s'].
  - cbn [JS.trimEnd]. rewrite (Hc c eq_refl). reflexivity.
  - rewrite IH by (intros x Hx; apply Hc; exact Hx). reflexivity.
Qed.

Lemma trim_nonempty_chars c s : hasChar c (JS.trim s) = true -> hasChar c s = true.
Proof. intros Hc. apply trimStart_hasChar, trimEnd_hasChar, Hc. Qed.

Lemma indexOf_empty_text p : p <> EmptyString -> JS.indexOf EmptyString p = -1.
Proof. destruct p as [|c p]; [congruence | reflexivity]. Qed.

Lemma indexOf_empty_pattern s : JS.indexOf s EmptyString = 0.
Proof. destruct s; reflexivity. Qed.

Lemma listOption_listable (value : string) : Forall listable (CLI.listOption value).
Proof.
  unfold CLI.listOption. apply List.Forall_forall. intros s Hs.
  apply List.filter_In in Hs as [Hs Ht].
  apply List.in_map_iff in Hs as (piece & <- & Hpiece).
  pose proof (split_pieces "," value) as F.
  rewrite List.Forall_forall in F. specialize (F piece Hpiece).
  repeat apply conj.
  - intros E. rewrite E in Ht. discriminate.
  - destruct (hasChar "," (JS.trim piece)) eqn:E; [| reflexivity].
    apply trim_nonempty_chars in E. congruence.
  - apply trim_ends.
  - apply trim_ends.
Qed.

(** X1. Whatever is typed after [--plugins], [--preserve-tags] or
    [--code-classes], the list the parser returns holds no empty name, no
    name with a comma and no name with white space at either end. *)
Theorem listOption_entries (value : string) : Forall listable (CLI.listOption value).
Proof. exact (listOption_listable value). Qed.

(** X2. A list of names written with commas between them is read back as
    it is, the empty list included, provided each name can be written in
    such a list at all. *)
Theorem listOption_reads_back (names : list string) :
  Forall listable names -> CLI.listOption (joinWith "," names) = names.
Proof.
  intros F. unfold CLI.listOption.
  destruct names as [|n names]; [reflexivity |].
  rewrite split_join.
  - induction F as [|s l (Hne & _ & Hfirst & Hlast) _ IH]; [reflexivity |].
    cbn [map List.filter].
    assert (JS.trim s = s) as ->.
    { unfold JS.trim. rewrite (trimStart_fixed _ Hfirst). apply (trimEnd_fixed _ Hlast). }
    destruct s as [|c s]; [congruence |]. cbn [JS.truthy]. f_equal. exact IH.
  - discriminate.
  - apply List.Forall_forall. intros s Hs.
    rewrite List.Forall_forall in F. apply (F s Hs).
Qed.

Section ListOptionFacts.
Context `{LangDetector}.

(** X3. With the marker classes read from the command line, an element
    without a class is never taken for a code block; an empty marker
    class, which the parser never returns, would make every node that is
    not blank one. *)
Theorem no_class_no_code_block
    (value : string) (rules : list Turndown.Rule) (blank : bool) (n : node) :
  DOM.className n = EmptyString ->
  ~ codeBlocks_fires (CLI.listOption value) rules blank n
  /\ codeBlocks_fires [EmptyString] rules false n.
Proof.
  intros Hn. split.
  - intros Hf. apply forNode_first in Hf as [_ Hf]. cbn [codeBlocks Turndown.filter] in Hf.
    unfold codeBlocks_filter in Hf. apply existsb_exists in Hf as (c & Hc & Hi).
    pose proof (listOption_listable value) as F.
    rewrite List.Forall_forall in F. destruct (F c Hc) as (Hne & _).
    rewrite Hn, (indexOf_empty_text c Hne) in Hi. discriminate.
  - apply forNode_first. split; [reflexivity |].
    cbn [codeBlocks Turndown.filter]. unfold codeBlocks_filter. cbn [existsb].
    rewrite indexOf_empty_pattern. reflexivity.
Qed.

End ListOptionFacts.

(** ** The site URL *)

Lemma stripTrailingSlash_cons c s :
  s <> EmptyString -> JS.stripTrailingSlash (String c s) = String c (JS.stripTrailingSlash s).
Proof. destruct s; [congruence | reflexivity]. Qed.

Lemma stripTrailingSlash_slash u : JS.stripTrailingSlash (u +:+ "/") = u.
Proof.
  induction u as [|c u IH]; [reflexivity |].
  rewrite append_cons, stripTrailingSlash_cons, IH; [reflexivity |].
  destruct u; discriminate.
Qed.

Lemma stripTrailingSlash_other u :
  lastChar u <> Some "/"%char -> JS.stripTrailingSlash u = u.
Proof.
  induction u as [|c u IH]; [reflexivity |].
  cbn [lastChar JS.stripTrailingSlash]. destruct u as [|c' u'].
  - intros Hc. destruct (Ascii.eqb_spec c "/"); [congruence | reflexivity].
  - intros Hc. rewrite (IH Hc). reflexivity.
Qed.

(** X4. The constructor drops one slash from the end of the site URL and
    nothing else: a URL given with or without its final slash gives the
    same exporter URL, and [original_url] joins it to the slug with one
    slash; of two final slashes one stays. *)
Theorem site_url_trailing_slash
    (config : Config) (u : string) (post : Post) (featuredMediaUrl : option string) :
  lastChar u <> Some "/"%char ->
  config_wpUrl config = u \/ config_wpUrl config = u +:+ "/" ->
  wpUrl (WordPressExporter config) = u
  /\ Obj.get "original_url" (baseFrontMatter (WordPressExporter config) post featuredMediaUrl)
     = VString (u +:+ "/" +:+ slug post)
  /\ JS.stripTrailingSlash ((u +:+ "/") +:+ "/") = u +:+ "/".
Proof.
  intros Hu Hc.
  assert (wpUrl (WordPressExporter config) = u) as Hw.
  { cbn [WordPressExporter wpUrl]. destruct Hc as [-> | ->].
    - apply stripTrailingSlash_other, Hu.
    - apply stripTrailingSlash_slash. }
  split; [exact Hw |]. split; [| apply stripTrailingSlash_slash].
  unfold baseFrontMatter. rewrite Hw.
  destruct featuredMediaUrl as [[|c url]|]; reflexivity.
Qed.

(** ** Loading the configured plugins *)

Lemma find_firstNamed n allPlugins p :
  List.find (fun q => String.eqb (name q) n) allPlugins = Some p <-> firstNamed n allPlugins p.
Proof.
  split.
  - induction allPlugins as [|q l IH]; [discriminate |].
    cbn [List.find]. destruct (String.eqb_spec (name q) n) as [E|E].
    + intros [= ->]. exists [], l. repeat apply conj; [reflexivity | exact E | constructor].
    + intros Hf. destruct (IH Hf) as (before & after & -> & Hn & Hb).
      exists (q :: before), after. repeat apply conj; [reflexivity | exact Hn |].
      constructor; assumption.
  - intros (before & after & -> & Hn & Hb).
    induction Hb as [|q l Hq _ IH]; cbn [app List.find].
    + rewrite Hn, String.eqb_refl. reflexivity.
    + destruct (String.eqb_spec (name q) n); [congruence | exact IH].
Qed.

Lemma find_none_missing n allPlugins :
  List.find (fun q => String.eqb (name q) n) allPlugins = None
  <-> existsb (fun p => String.eqb (name p) n) allPlugins = false.
Proof.
  induction allPlugins as [|q l IH]; [split; reflexivity |].
  cbn [List.find existsb]. destruct (String.eqb (name q) n); [split; discriminate | exact IH].
Qed.

Lemma resolvePlugins_spec allPlugins names :
  resolvePlugins allPlugins names
  = (missingFrom allPlugins names,
     omap (fun n => List.find (fun q => String.eqb (name q) n) allPlugins) names).
Proof.
  induction names as [|n names IH]; [reflexivity |].
  cbn [resolvePlugins]. rewrite IH. unfold missingFrom. cbn [List.filter].
  change (omap ?f (n :: names)) with (match f n with Some p => p :: omap f names | None => omap f names end).
  destruct (List.find _ allPlugins) as [p|] eqn:E.
  - rewrite ?E. destruct (existsb _ allPlugins) eqn:Ex; [reflexivity |].
    apply find_none_missing in Ex. congruence.
  - rewrite ?E. apply find_none_missing in E. rewrite E. reflexivity.
Qed.

Lemma missingFrom_In allPlugins names n :
  In n (missingFrom allPlugins names)
  <-> In n names /\ forall p, In p allPlugins -> name p <> n.
Proof.
  unfold missingFrom. rewrite List.filter_In, negb_true_iff.
  split; intros [Hn Hm]; (split; [exact Hn |]).
  - intros p Hp E. assert (existsb (fun p => String.eqb (name p) n) allPlugins = true) as Ht.
    { apply existsb_exists. exists p. split; [exact Hp | apply String.eqb_eq, E]. }
    congruence.
  - destruct (existsb _ allPlugins) eqn:Ex; [| reflexivity].
    apply existsb_exists in Ex as (p & Hp & E). apply String.eqb_eq in E.
    destruct (Hm p Hp E).
Qed.

Section LoadingClaims.
Context `{Jsdom} `{Paths} `{Env} `{LangDetector} `{TurndownService} `{Yaml} `{Sources}.

(** X5. When every configured name is the name of an available plugin,
    [_loadPlugins] returns, and what it pushed to the loaded plugins is,
    for each configured name in order, the first available plugin of that
    name; nothing else about the exporter or the world changes. *)
Theorem plugins_loaded_in_order
    (self : Exporter) (allPlugins : list Plugin) (w w0 : World) :
  loadPlugins w = (Return allPlugins, w0) ->
  (forall n, In n (plugins self) -> exists p, In p allPlugins /\ name p = n) ->
  exists found,
    _loadPlugins self w = (Return (withLoaded self found), w0)
    /\ Forall2 (fun n p => firstNamed n allPlugins p) (plugins self) found.
Proof.
  intros Hload Hall. unfold _loadPlugins, bind. rewrite Hload, resolvePlugins_spec.
  assert (missingFrom allPlugins (plugins self) = []) as ->.
  { destruct (missingFrom allPlugins (plugins self)) as [|n l] eqn:E; [reflexivity |].
    assert (In n (missingFrom allPlugins (plugins self))) as Hn by (rewrite E; left; reflexivity).
    apply missingFrom_In in Hn as [Hn Hm].
    destruct (Hall n Hn) as (p & Hp & Hname). destruct (Hm p Hp Hname). }
  eexists. split; [reflexivity |].
  clear Hload. induction (plugins self) as [|n names IH]; [constructor |].
  cbn. destruct (List.find _ allPlugins) as [p|] eqn:E.
  - constructor; [apply find_firstNamed, E |].
    apply IH. intros m Hm. apply Hall. right. exact Hm.
  - exfalso. destruct (Hall n (or_introl eq_refl)) as (p & Hp & Hname).
    apply find_none_missing in E.
    assert (existsb (fun p => String.eqb (name p) n) allPlugins = true) as Ht.
    { apply existsb_exists. exists p. split; [exact Hp | apply String.eqb_eq, Hname]. }
    congruence.
Qed.

(** X6. When the two directories were made and the plugins available are
    [allPlugins], a configured name that none of them has ends the run
    with status 1: the names that are missing and the names available
    are printed, in that one message, and nothing else happens, no post
    being fetched or written; the handler of [exportPosts] does not
    print. *)
Theorem missing_plugin_ends_run
    (self : Exporter) (allPlugins : list Plugin) (n : string) (w w0 : World) :
  (doFs (Mkdir (baseDir self)) ;; doFs (Mkdir (imagesDir self)) ;; loadPlugins) w
  = (Return allPlugins, w0) ->
  In n (plugins self) ->
  (forall p, In p allPlugins -> name p <> n) ->
  exportPosts self w
  = (Exit 1,
     logged (PluginsNotFound (missingFrom allPlugins (plugins self)) (map name allPlugins)) w0)
  /\ In n (missingFrom allPlugins (plugins self)).
Proof.
  intros Hstart Hn Hm.
  assert (In n (missingFrom allPlugins (plugins self))) as Hin
      by (apply missingFrom_In; split; assumption).
  split; [| exact Hin].
  unfold exportPosts, tryCatch, init. unfold bind at 1. unfold bind at 1.
    unfold bind at 1 in Hstart.
    destruct (doFs (Mkdir (baseDir self)) w) as [[[]|e|c] w1]; try discriminate.
    unfold bind at 1. unfold bind at 1 in Hstart.
    destruct (doFs (Mkdir (imagesDir self)) w1) as [[[]|e|c] w2]; try discriminate.
    unfold _loadPlugins. unfold bind at 1. rewrite Hstart, resolvePlugins_spec.
    destruct (missingFrom allPlugins (plugins self)) as [|m l]; [destruct Hin |].
  reflexivity.
Qed.

End LoadingClaims.

(** ** The plugin loader *)

Section LoaderFacts.
Context `{Paths} `{Loader.Modules}.

Lemma accepted_classOf c p : Loader.accepted (Some c) = Some p -> c = Loader.classOf p.
Proof.
  destruct c as [[n|] [f|] [h|] [m|]]; try discriminate.
  intros [= <-]. reflexivity.
Qed.

Lemma loadFiles_importable pluginsDir files plugins :
  Loader.importable pluginsDir files ->
  Loader.loadFiles pluginsDir files plugins
  = (plugins ++ Loader.pluginsOf pluginsDir files, None).
Proof.
  revert plugins. induction files as [|file files IH]; intros plugins Himp.
  - cbn. rewrite app_nil_r. reflexivity.
  - assert (Loader.importable pluginsDir files) as Himp'
        by (intros f Hf; apply Himp; right; exact Hf).
    unfold Loader.pluginsOf. cbn. fold (Loader.pluginsOf pluginsDir files).
    destruct (Loader.endsWith ".js" file) eqn:E; [| apply IH, Himp'].
    destruct (Himp file (or_introl eq_refl) E) as (c & ->).
    rewrite IH by exact Himp'.
    destruct (Loader.accepted c); [rewrite <- app_assoc |]; reflexivity.
Qed.

(** The plugins pushed before stay, and each one added is the default
    export of a JavaScript file of [files]. *)
Lemma loadFiles_sound pluginsDir files plugins :
  exists more,
    fst (Loader.loadFiles pluginsDir files plugins) = plugins ++ more
    /\ Forall (fun p => exists file,
                   In file files
                   /\ Loader.endsWith ".js" file = true
                   /\ Loader.import (path_join pluginsDir file)
                      = Loader.Module_ (Some (Loader.classOf p))) more.
Proof.
  revert plugins. induction files as [|file files IH]; intros plugins.
  - exists []. cbn. rewrite app_nil_r. split; [reflexivity | constructor].
  - assert (forall more,
               Forall (fun p => exists file,
                           In file files
                           /\ Loader.endsWith ".js" file = true
                           /\ Loader.import (path_join pluginsDir file)
                              = Loader.Module_ (Some (Loader.classOf p))) more ->
               Forall (fun p => exists file0,
                           In file0 (file :: files)
                           /\ Loader.endsWith ".js" file0 = true
                           /\ Loader.import (path_join pluginsDir file0)
                              = Loader.Module_ (Some (Loader.classOf p))) more) as Hweak.
    { intros more F. eapply List.Forall_impl; [| exact F].
      intros p (f & Hf & He & Hi). exists f. split; [right; exact Hf | split; assumption]. }
    cbn [Loader.loadFiles].
    destruct (Loader.endsWith ".js" file) eqn:E.
    2:{ destruct (IH plugins) as (more & Hm & F). exists more. split; [exact Hm | auto]. }
    destruct (Loader.import (path_join pluginsDir file)) as [c|f] eqn:Ei.
    2:{ exists []. cbn. rewrite app_nil_r. split; [reflexivity | constructor]. }
    destruct (Loader.accepted c) as [p|] eqn:Ea.
    + destruct (IH (plugins ++ [p])) as (more & Hm & F).
      exists (p :: more). split; [rewrite Hm, <- app_assoc; reflexivity |].
      constructor; [| auto].
      exists file. split; [left; reflexivity | split; [exact E |]].
      destruct c as [c|]; [| discriminate]. apply accepted_classOf in Ea. congruence.
    + destruct (IH plugins) as (more & Hm & F). exists more. split; [exact Hm | auto].
Qed.

Lemma loadDir_sound pluginsDir plugins :
  exists more,
    fst (Loader.loadDir pluginsDir plugins) = plugins ++ more
    /\ Forall (Loader.exportedBy pluginsDir) more.
Proof.
  unfold Loader.loadDir. destruct (Loader.readdir pluginsDir) as [files|f] eqn:E.
  - destruct (loadFiles_sound pluginsDir files plugins) as (more & Hm & F).
    exists more. split; [exact Hm |]. eapply List.Forall_impl; [| exact F].
    intros p (file & Hf & He & Hi). exists files, file. auto.
  - exists []. cbn. rewrite app_nil_r. split; [reflexivity | constructor].
Qed.

(** The loop over the directories ends by returning the plugins pushed
    before and those the directories export, or by ending the process
    with status 1 after a failure that is not a missing directory. *)
Lemma loadDirs_sound pluginDirs plugins printed :
  (exists more printed',
      Loader.loadDirs pluginDirs plugins printed = (Return (plugins ++ more), printed')
      /\ Forall (fun p => exists pluginsDir,
                     In pluginsDir pluginDirs /\ Loader.exportedBy pluginsDir p) more)
  \/ (exists pluginsDir f printed',
         Loader.loadDirs pluginDirs plugins printed
         = (Exit 1, printed' ++ [Loader.ErrorLoadingFrom pluginsDir f; Loader.ErrorLoading f])
         /\ In pluginsDir pluginDirs
         /\ Loader.code f <> Some "ENOENT").
Proof.
  revert plugins printed. induction pluginDirs as [|dir dirs IH]; intros plugins printed.
  - left. exists [], printed. cbn. rewrite app_nil_r. split; [reflexivity | constructor].
  - cbn [Loader.loadDirs].
    destruct (loadDir_sound dir plugins) as (more & Hm & F).
    destruct (Loader.loadDir dir plugins) as [plugins' [f|]]; cbn [fst] in Hm; subst plugins'.
    + destruct (decide (Loader.code f = Some "ENOENT")) as [E|E].
      * rewrite (bool_decide_eq_true_2 _ E). cbn [negb].
        destruct (IH (plugins ++ more) (printed ++ [Loader.ErrorLoadingFrom dir f]))
          as [(more' & pr & -> & F') | (d & f' & pr & -> & Hd & Hc)].
        -- left. exists (more ++ more'), pr. split; [rewrite app_assoc; reflexivity |].
           apply Forall_app. split.
           ++ eapply List.Forall_impl; [| exact F]. intros p Hp. exists dir. split; [left |]; auto.
           ++ eapply List.Forall_impl; [| exact F']. intros p (d & Hd & Hp).
              exists d. split; [right |]; auto.
        -- right. exists d, f', pr. split; [reflexivity | split; [right |]]; auto.
      * rewrite (bool_decide_eq_false_2 _ E). cbn [negb].
        right. exists dir, f, printed. split; [| split; [left |]; auto].
        rewrite <- app_assoc. reflexivity.
    + destruct (IH (plugins ++ more) printed)
        as [(more' & pr & -> & F') | (d & f' & pr & -> & Hd & Hc)].
      * left. exists (more ++ more'), pr. split; [rewrite app_assoc; reflexivity |].
        apply Forall_app. split.
        -- eapply List.Forall_impl; [| exact F]. intros p Hp. exists dir. split; [left |]; auto.
        -- eapply List.Forall_impl; [| exact F']. intros p (d & Hd & Hp).
           exists d. split; [right |]; auto.
      * right. exists d, f', pr. split; [reflexivity | split; [right |]]; auto.
Qed.

Lemma loadDirs_readable pluginsDir files rest plugins printed :
  Loader.readdir pluginsDir = Loader.Files files ->
  Loader.importable pluginsDir files ->
  Loader.loadDirs (pluginsDir :: rest) plugins printed
  = Loader.loadDirs rest (plugins ++ Loader.pluginsOf pluginsDir files) printed.
Proof.
  intros Hr Hi. cbn [Loader.loadDirs]. unfold Loader.loadDir.
  rewrite Hr, (loadFiles_importable _ _ _ Hi). reflexivity.
Qed.

(** X7. The loader never throws: it returns a list of plugins, or it
    prints the error, twice, and ends the process with status 1, which it
    does only for an error whose code is not ENOENT. *)
Theorem loadPlugins_returns_or_exits :
  (exists plugins printed, Loader.loadPlugins = (Return plugins, printed))
  \/ (exists pluginsDir f printed,
         Loader.loadPlugins
         = (Exit 1, printed ++ [Loader.ErrorLoadingFrom pluginsDir f; Loader.ErrorLoading f])
         /\ Loader.code f <> Some "ENOENT").
Proof.
  unfold Loader.loadPlugins.
  destruct (loadDirs_sound [Loader.cwd; path_join Loader.libDir "plugins"] [] [])
    as [(more & pr & E & _) | (d & f & pr & E & _ & Hc)].
  - left. exists more, pr. exact E.
  - right. exists d, f, pr. split; assumption.
Qed.

(** X8. A plugin the loader returns is the default export of a file named
    [*.js] of the working directory or of the directory of the bundled
    plugins, and has a name of type string and the three hooks; the
    earlier Yoast plugin, which has [processPostContent] in place of
    [processHtml] and [processMarkdown], does not pass the test. *)
Theorem loaded_plugins_are_complete (plugins : list Plugin) (printed : list Loader.line) :
  Loader.loadPlugins = (Return plugins, printed) ->
  Forall (fun p => Loader.exportedBy Loader.cwd p
                   \/ Loader.exportedBy (path_join Loader.libDir "plugins") p) plugins
  /\ Loader.accepted (Some Loader.YoastPlugin_processPostContent) = None.
Proof.
  intros E. split; [| reflexivity]. unfold Loader.loadPlugins in E.
  destruct (loadDirs_sound [Loader.cwd; path_join Loader.libDir "plugins"] [] [])
    as [(more & pr & E' & F) | (d & f & pr & E' & _)]; rewrite E in E'; [| discriminate].
  injection E' as -> _. eapply List.Forall_impl; [| exact F].
  intros p (d & [<- | [<- | []]] & Hp); auto.
Qed.

(** X9. When both directories can be read and their JavaScript files
    imported, the loader returns the plugins of the working directory
    followed by the bundled ones, each group in the order of the
    directory listing, and prints nothing. *)
Theorem loadPlugins_both_directories (own bundled : list string) :
  Loader.readdir Loader.cwd = Loader.Files own ->
  Loader.importable Loader.cwd own ->
  Loader.readdir (path_join Loader.libDir "plugins") = Loader.Files bundled ->
  Loader.importable (path_join Loader.libDir "plugins") bundled ->
  Loader.loadPlugins
  = (Return (Loader.pluginsOf Loader.cwd own
             ++ Loader.pluginsOf (path_join Loader.libDir "plugins") bundled), []).
Proof.
  intros Hown Iown Hbundled Ibundled.
  unfold Loader.loadPlugins.
  rewrite (loadDirs_readable _ _ _ _ _ Hown Iown).
  rewrite (loadDirs_readable _ _ _ _ _ Hbundled Ibundled). reflexivity.
Qed.

(** X10. A directory that does not exist is passed over: when reading the
    working directory fails with the code ENOENT, the loader prints the
    error and returns the bundled plugins; with any other code it prints
    the error twice and ends the process with status 1. *)
Theorem unreadable_working_directory (f : Loader.Failure) (bundled : list string) :
  Loader.readdir Loader.cwd = Loader.Unreadable f ->
  Loader.readdir (path_join Loader.libDir "plugins") = Loader.Files bundled ->
  Loader.importable (path_join Loader.libDir "plugins") bundled ->
  Loader.loadPlugins
  = if bool_decide (Loader.code f = Some "ENOENT")
    then (Return (Loader.pluginsOf (path_join Loader.libDir "plugins") bundled),
          [Loader.ErrorLoadingFrom Loader.cwd f])
    else (Exit 1, [Loader.ErrorLoadingFrom Loader.cwd f; Loader.ErrorLoading f]).
Proof.
  intros Hown Hbundled Ibundled.
  unfold Loader.loadPlugins. cbn [Loader.loadDirs]. unfold Loader.loadDir.
  rewrite Hown. destruct (bool_decide _); cbn [negb]; [| reflexivity].
  fold (Loader.loadDir (path_join Loader.libDir "plugins") []).
  change (Loader.loadDirs [path_join Loader.libDir "plugins"] []
            ([] ++ [Loader.ErrorLoadingFrom Loader.cwd f])
          = (Return (Loader.pluginsOf (path_join Loader.libDir "plugins") bundled),
             [Loader.ErrorLoadingFrom Loader.cwd f])).
  rewrite (loadDirs_readable _ _ _ _ _ Hbundled Ibundled). reflexivity.
Qed.

(** X11. A plugin of the working directory takes the place of a bundled
    plugin of the same name: when the working directory can be read and
    its files imported, the plugin [_loadPlugins] finds for a name is
    the first of that name in the working directory, if there is one. *)
Theorem own_plugin_shadows_bundled
    (own : list string) (n : string) (p : Plugin) (plugins : list Plugin)
    (printed : list Loader.line) :
  Loader.readdir Loader.cwd = Loader.Files own ->
  Loader.importable Loader.cwd own ->
  firstNamed n (Loader.pluginsOf Loader.cwd own) p ->
  Loader.loadPlugins = (Return plugins, printed) ->
  resolvePlugins plugins [n] = ([], [p]).
Proof.
  intros Hown Iown Hfirst Hload.
  assert (exists more, plugins = Loader.pluginsOf Loader.cwd own ++ more) as (more & ->).
  { unfold Loader.loadPlugins in Hload.
    rewrite (loadDirs_readable _ _ _ _ _ Hown Iown) in Hload. cbn [app] in Hload.
    destruct (loadDirs_sound [path_join Loader.libDir "plugins"]
                (Loader.pluginsOf Loader.cwd own) [])
      as [(more & pr & E & _) | (d & f & pr & E & _)];
      rewrite Hload in E; [| discriminate].
    injection E as -> _. exists more. reflexivity. }
  destruct Hfirst as (before & after & E & Hn & Hb).
  assert (firstNamed n (Loader.pluginsOf Loader.cwd own ++ more) p) as Hf.
  { exists before, (after ++ more). rewrite E, <- app_assoc. auto. }
  apply find_firstNamed in Hf.
  cbn [resolvePlugins]. rewrite Hf. reflexivity.
Qed.

End LoaderFacts.

(** ** Images, once more *)

Lemma imageFiles_app w1 w2 extra :
  disk w2 = disk w1 ++ extra ->
  imageFiles w2
  = imageFiles w1
      ++ flat_map (fun op => match op with
                             | WriteFile path (Binary bytes) => [(path, bytes)]
                             | _ => []
                             end) extra.
Proof. intros E. unfold imageFiles. rewrite E. apply flat_map_app. Qed.

Lemma blanked_setAttribute name v v' a :
  DOM.getAttribute name a = Some v ->
  blanked name (DOM.setAttribute name v' a) = blanked name a.
Proof.
  induction a as [|[k x] a IH]; [discriminate |].
  cbn [DOM.getAttribute DOM.setAttribute]. destruct (String.eqb k name) eqn:E.
  - intros _. cbn [blanked map]. rewrite E. reflexivity.
  - intros Hg. cbn [blanked map]. rewrite E. f_equal. apply IH, Hg.
Qed.

Section ImageClaims.
Context `{Jsdom} `{Paths} `{Env}.
Variable self : Exporter.

Lemma truthy_urlProperty name a :
  JS.truthy (urlProperty name a) = true -> exists v, DOM.getAttribute name a = Some v.
Proof.
  unfold urlProperty. destruct (DOM.getAttribute name a) as [v|]; [eauto | discriminate].
Qed.

Lemma downloadImage_outcome (imageUrl postSlug : string) (w : World) :
  exists r w',
    downloadImage self imageUrl postSlug w = (Return r, w')
    /\ requests w' = requests w ++ [imageUrl]
    /\ match r with
       | Some imagePath =>
           imagePath = imagePathOf self imageUrl postSlug
           /\ console w' = console w
           /\ exists status bytes,
               fetch w imageUrl = Ok (status, bytes)
               /\ ok status = true
               /\ disk w'
                  = disk w ++ [Mkdir (path_join (imagesDir self) (sanitize postSlug));
                               WriteFile imagePath (Binary bytes)]
       | None =>
           (exists e, console w' = console w ++ [WarnDownloadFailed imageUrl e])
           /\ imageFiles w' = imageFiles w
           /\ (failed (fetch w imageUrl) -> disk w' = disk w)
       end.
Proof.
  unfold downloadImage, tryCatch, bind, doFetch, lift, failed.
  destruct (fetch w imageUrl) as [[status buffer]|e].
  2:{ eexists _, _. split; [reflexivity |]. cbn.
      repeat apply conj; eauto. }
  destruct (ok status) eqn:Eok; cbn [negb].
  2:{ eexists _, _. split; [reflexivity |]. cbn.
      repeat apply conj; eauto. }
  unfold doFs at 1.
  destruct (fs_error _ (Mkdir _)) as [e|].
  { eexists _, _. split; [reflexivity |]. cbn.
    repeat apply conj; eauto. }
  unfold doFs at 1.
  destruct (fs_error _ (WriteFile _ _)) as [e|].
  { eexists _, _. split; [reflexivity |]. cbn.
    repeat apply conj; eauto; [| congruence].
    unfold imageFiles. cbn [disk]. rewrite flat_map_app. cbn. apply app_nil_r. }
  eexists _, _. split; [reflexivity |]. cbn.
  repeat apply conj; try reflexivity.
  exists status, buffer. repeat apply conj; [reflexivity | exact Eok |].
  rewrite <- app_assoc. reflexivity.
Qed.

(** X12. [downloadImage] never throws and makes one request.  It returns
    a path only when the answer had a status from 200 to 299, and then it
    has made the directory of the post and written the bytes of the
    answer to that path, printing nothing; otherwise it returns [null],
    prints one warning that names the URL, and has written no file. *)
Theorem downloadImage_never_throws (imageUrl postSlug : string) (w : World) :
  exists r w',
    downloadImage self imageUrl postSlug w = (Return r, w')
    /\ requests w' = requests w ++ [imageUrl]
    /\ match r with
       | Some imagePath =>
           imagePath = imagePathOf self imageUrl postSlug
           /\ console w' = console w
           /\ exists status bytes,
               fetch w imageUrl = Ok (status, bytes)
               /\ ok status = true
               /\ disk w'
                  = disk w ++ [Mkdir (path_join (imagesDir self) (sanitize postSlug));
                               WriteFile imagePath (Binary bytes)]
       | None =>
           (exists e, console w' = console w ++ [WarnDownloadFailed imageUrl e])
           /\ imageFiles w' = imageFiles w
           /\ (failed (fetch w imageUrl) -> disk w' = disk w)
       end.
Proof. exact (downloadImage_outcome imageUrl postSlug w). Qed.

Variable postSlug : string.

Lemma firstPass_skeleton img acc w img' acc' w' :
  firstPass self postSlug img acc w = (Return (img', acc'), w') ->
  blanked "src" img' = blanked "src" img.
Proof.
  unfold firstPass.
  destruct (JS.truthy (urlProperty "src" img)) eqn:T; cbn [negb].
  2:{ intros [= <- _ _]. reflexivity. }
  apply truthy_urlProperty in T as (v & Hv).
  unfold bind. destruct (downloadImage self _ postSlug w) as [[[p|]|e|c] w1]; try discriminate.
  - destruct (JS.truthy p); intros [= <- _ _]; [| reflexivity].
    apply (blanked_setAttribute _ _ _ _ Hv).
  - intros [= <- _ _]. reflexivity.
Qed.

Lemma secondPass_skeleton urlMap link acc w link' acc' w' :
  secondPass urlMap link acc w = (Return (link', acc'), w') ->
  blanked "href" link' = blanked "href" link.
Proof.
  unfold secondPass.
  destruct (JS.truthy (urlProperty "href" link)) eqn:T.
  2:{ intros [= <- _ _]. reflexivity. }
  apply truthy_urlProperty in T as (v & Hv).
  destruct (urlMap !! _) as [p|].
  - unfold bind. cbn [log ret]. intros [= <- _ _].
    apply (blanked_setAttribute _ _ _ _ Hv).
  - intros [= <- _ _]. reflexivity.
Qed.

End ImageClaims.

Section WalkSkeleton.
Context {A : Type}.
Variable tag : string.
Variable body : Walk.attrs -> A -> M (Walk.attrs * A).

Hypothesis body_skeleton :
  forall a acc w a' acc' w',
    body a acc w = (Return (a', acc'), w') -> skeletonAttrs tag a' = skeletonAttrs tag a.

Lemma skeleton_Element t a children :
  skeleton (Element t a children) = Element t (skeletonAttrs t a) (map skeleton children).
Proof.
  reflexivity.
Qed.

Lemma visit_skeleton n :
  forall acc w n' acc' w',
    Walk.visit tag body n acc w = (Return (n', acc'), w') -> skeleton n' = skeleton n.
Proof.
  induction n as [d|d|t a children IH] using node_induction; intros acc w n' acc' w'.
  - intros [= <- _ _]. reflexivity.
  - intros [= <- _ _]. reflexivity.
  - rewrite visit_Element.
    destruct ((if String.eqb t tag then body a acc else ret (a, acc)) w)
      as [[[a1 acc1]|e|c] w1] eqn:Ea; try discriminate.
    destruct (Walk.visitAll tag body children acc1 w1) as [[[ch' acc2]|e|c] w2] eqn:Ec;
      try discriminate.
    intros [= <- _ _]. rewrite !skeleton_Element. f_equal.
    + destruct (String.eqb_spec t tag) as [->|Hne].
      * exact (body_skeleton _ _ _ _ _ _ Ea).
      * injection Ea as <- _ _. reflexivity.
    + clear Ea. revert acc1 w1 ch' acc2 w2 Ec.
      induction IH as [|c l Hc _ IHl]; intros acc1 w1 ch' acc2 w2.
      * intros [= <- _ _]. reflexivity.
      * rewrite visitAll_cons.
        destruct (Walk.visit tag body c acc1 w1) as [[[c' acc3]|e|x] w3] eqn:E1;
          try discriminate.
        destruct (Walk.visitAll tag body l acc3 w3) as [[[l' acc4]|e|x] w4] eqn:E2;
          try discriminate.
        intros [= <- _ _]. cbn [map].
        rewrite (Hc _ _ _ _ _ E1), (IHl _ _ _ _ _ E2). reflexivity.
Qed.

Lemma visitAll_skeleton doc :
  forall acc w doc' acc' w',
    Walk.visitAll tag body doc acc w = (Return (doc', acc'), w') ->
    map skeleton doc' = map skeleton doc.
Proof.
  induction doc as [|c l IHl]; intros acc w doc' acc' w'.
  - intros [= <- _ _]. reflexivity.
  - rewrite visitAll_cons.
    destruct (Walk.visit tag body c acc w) as [[[c' acc3]|e|x] w3] eqn:E1; try discriminate.
    destruct (Walk.visitAll tag body l acc3 w3) as [[[l' acc4]|e|x] w4] eqn:E2;
      try discriminate.
    intros [= <- _ _]. cbn [map].
    rewrite (visit_skeleton _ _ _ _ _ _ E1), (IHl _ _ _ _ _ E2). reflexivity.
Qed.

End WalkSkeleton.

Section WalkSame.
Context {A : Type}.
Variable tag : string.
Variable body : Walk.attrs -> A -> M (Walk.attrs * A).
Variable inv : World -> World -> Prop.

Hypothesis inv_refl : forall w, inv w w.
Hypothesis inv_trans : forall w1 w2 w3, inv w1 w2 -> inv w2 w3 -> inv w1 w3.

(** A loop body that leaves each element and the loop variables as they
    are, whatever it does to the world, leaves the document as it is. *)
Hypothesis body_same :
  forall a acc w, exists w', body a acc w = (Return (a, acc), w') /\ inv w w'.

Lemma visit_same n acc w :
  exists w', Walk.visit tag body n acc w = (Return (n, acc), w') /\ inv w w'.
Proof.
  revert acc w. induction n as [d|d|t a children IH] using node_induction; intros acc w.
  - exists w. split; [reflexivity | apply inv_refl].
  - exists w. split; [reflexivity | apply inv_refl].
  - rewrite visit_Element.
    assert (exists w1, (if String.eqb t tag then body a acc else ret (a, acc)) w
                       = (Return (a, acc), w1) /\ inv w w1) as (w1 & -> & I1).
    { destruct (String.eqb t tag); [apply body_same |].
      exists w. split; [reflexivity | apply inv_refl]. }
    assert (forall acc w, exists w', Walk.visitAll tag body children acc w
                                     = (Return (children, acc), w') /\ inv w w') as Hch.
    { clear acc w w1 I1. induction IH as [|c l Hc _ IHl]; intros acc w.
      - exists w. split; [reflexivity | apply inv_refl].
      - rewrite visitAll_cons. destruct (Hc acc w) as (w1 & -> & I1).
        destruct (IHl acc w1) as (w2 & -> & I2).
        exists w2. split; [reflexivity | exact (inv_trans _ _ _ I1 I2)]. }
    destruct (Hch acc w1) as (w2 & -> & I2).
    exists w2. split; [reflexivity | exact (inv_trans _ _ _ I1 I2)].
Qed.

Lemma visitAll_same doc acc w :
  exists w', Walk.visitAll tag body doc acc w = (Return (doc, acc), w') /\ inv w w'.
Proof.
  revert acc w. induction doc as [|c l IHl]; intros acc w.
  - exists w. split; [reflexivity | apply inv_refl].
  - rewrite visitAll_cons. destruct (visit_same c acc w) as (w1 & -> & I1).
    destruct (IHl acc w1) as (w2 & -> & I2).
    exists w2. split; [reflexivity | exact (inv_trans _ _ _ I1 I2)].
Qed.

End WalkSame.

Section MoreAssetClaims.
Context `{Jsdom} `{Paths} `{Env}.
Variable self : Exporter.
Variable postSlug : string.

(** The two loops of [processImages] and what it returns. *)
Lemma processImages_run content w :
  exists doc1 acc1 w1 doc2 w2,
    Walk.visitAll "img" (firstPass self postSlug) (JSDOM content)
      {| downloadedImages := []; imageUrlMap := ∅ |} w
    = (Return (doc1, acc1), w1)
    /\ Walk.loop (firstPass self postSlug) (Walk.elementsOf "img" (JSDOM content))
         {| downloadedImages := []; imageUrlMap := ∅ |} w
       = (Return (Walk.elementsOf "img" doc1, acc1), w1)
    /\ Walk.visitAll "a" (secondPass (imageUrlMap acc1)) doc1 tt w1 = (Return (doc2, tt), w2)
    /\ processImages self content postSlug w
       = (Return (imageUrlMap acc1, innerHTML doc2),
          logged (DownloadedImages (length (downloadedImages acc1)) postSlug) w2).
Proof.
  destruct (visitAll_walked "img" (firstPass self postSlug) (firstPass_total self postSlug)
              (JSDOM content) {| downloadedImages := []; imageUrlMap := ∅ |} w)
    as (doc1 & acc1 & w1 & E1 & Hloop1 & _).
  destruct (visitAll_walked "a" (secondPass (imageUrlMap acc1))
              (secondPass_total (imageUrlMap acc1)) doc1 tt w1)
    as (doc2 & [] & w2 & E2 & _).
  exists doc1, acc1, w1, doc2, w2. repeat apply conj; try assumption.
  unfold processImages. unfold bind at 1. rewrite E1.
  unfold bind at 1. rewrite E2. reflexivity.
Qed.

(** The keys the first loop adds are sources of the elements it went
    through, and the values are not empty. *)
Lemma firstPass_loop_keys l acc w l' acc' w' :
  Walk.loop (firstPass self postSlug) l acc w = (Return (l', acc'), w') ->
  forall url p,
    imageUrlMap acc' !! url = Some p ->
    imageUrlMap acc !! url = Some p
    \/ In url (map (urlProperty "src") l) /\ JS.truthy p = true.
Proof.
  revert acc w l' acc' w'. induction l as [|img l IH]; intros acc w l' acc' w'.
  - cbn. intros [= _ <- _] url p Hp. left. exact Hp.
  - rewrite loop_cons.
    destruct (firstPass self postSlug img acc w) as [[[img' acc1]|e|c] w1] eqn:Estep;
      try discriminate.
    destruct (Walk.loop (firstPass self postSlug) l acc1 w1) as [[[r acc2]|e|c] w2] eqn:Erest;
      try discriminate.
    intros [= _ <- _] url p Hp.
    destruct (IH _ _ _ _ _ Erest url p Hp) as [Hp1 | [Hin Ht]].
    2:{ right. split; [right; exact Hin | exact Ht]. }
    unfold firstPass in Estep.
    destruct (JS.truthy (urlProperty "src" img)); cbn [negb] in Estep.
    2:{ injection Estep as _ <- _. left. exact Hp1. }
    unfold bind in Estep.
    destruct (downloadImage self _ postSlug w) as [[[q|]|e|c] w0]; try discriminate.
    2:{ injection Estep as _ <- _. left. exact Hp1. }
    destruct (JS.truthy q) eqn:Tq.
    2:{ injection Estep as _ <- _. left. exact Hp1. }
    injection Estep as _ <- _. cbn [imageUrlMap] in Hp1.
    destruct (decide (urlProperty "src" img = url)) as [<-|Hne].
    + rewrite lookup_insert_eq in Hp1. injection Hp1 as <-.
      right. split; [left; reflexivity | exact Tq].
    + rewrite lookup_insert_ne in Hp1 by exact Hne. left. exact Hp1.
Qed.

(** X13. Asset resolution changes nothing in a document but values of
    the [src] attribute of [img] elements and of the [href] attribute of
    [a] elements: the elements, their order and nesting, their other
    attributes, the text and the comments are those of the parsed
    input. *)
Theorem processImages_keeps_structure (content : string) (w : World) :
  exists doc' urlMap w',
    processImages self content postSlug w = (Return (urlMap, innerHTML doc'), w')
    /\ map skeleton doc' = map skeleton (JSDOM content).
Proof.
  destruct (processImages_run content w) as (doc1 & acc1 & w1 & doc2 & w2 & E1 & _ & E2 & E).
  exists doc2, (imageUrlMap acc1). eexists. split; [exact E |].
  transitivity (map skeleton doc1).
  - refine (visitAll_skeleton "a" _ _ _ _ _ _ _ _ E2).
    intros a acc w0 a' acc' w0' Hb. exact (secondPass_skeleton _ _ _ _ _ _ _ Hb).
  - refine (visitAll_skeleton "img" _ _ _ _ _ _ _ _ E1).
    intros a acc w0 a' acc' w0' Hb. exact (firstPass_skeleton self postSlug _ _ _ _ _ _ Hb).
Qed.

Lemma processImages_keys (content : string) (w : World) :
  exists urlMap html w',
    processImages self content postSlug w = (Return (urlMap, html), w')
    /\ forall url p,
        urlMap !! url = Some p ->
        In url (map (urlProperty "src") (Walk.elementsOf "img" (JSDOM content)))
        /\ In url (requests w')
        /\ JS.truthy p = true
        /\ exists bytes, In (p, bytes) (imageFiles w').
Proof.
  destruct (processImages_run content w) as (doc1 & acc1 & w1 & doc2 & w2 & _ & Hl & _ & E).
  destruct (processImages_spec self postSlug content w)
    as (doc' & urlMap & w' & E' & Hrec & Hreq & _).
  rewrite E in E'. injection E' as <- _ <-.
  eexists _, _, _. split; [exact E |]. intros url p Hp.
  destruct (firstPass_loop_keys _ _ _ _ _ _ Hl url p Hp) as [Hempty | [Hin Ht]].
  { cbn in Hempty. rewrite lookup_empty in Hempty. discriminate. }
  destruct (Hrec url p Hp) as (_ & Hurl & bytes & Hdisk).
  repeat apply conj; [exact Hin | | exact Ht |].
  - rewrite Hreq. apply in_or_app. right. apply List.filter_In. split; assumption.
  - exists bytes. unfold imageFiles. apply in_flat_map.
    exists (WriteFile p (Binary bytes)). split; [exact Hdisk | left; reflexivity].
Qed.

(** X14. Every key of the mapping [processImages] returns is the source
    of an [img] element of the body, was requested, and has as its value
    the non-empty path of a file that was written. *)
Theorem mapping_keys_are_images (content : string) (w : World) :
  exists urlMap html w',
    processImages self content postSlug w = (Return (urlMap, html), w')
    /\ forall url p,
        urlMap !! url = Some p ->
        In url (map (urlProperty "src") (Walk.elementsOf "img" (JSDOM content)))
        /\ In url (requests w')
        /\ JS.truthy p = true
        /\ exists bytes, In (p, bytes) (imageFiles w').
Proof. exact (processImages_keys content w). Qed.

(** X15. Without a network the body is still processed: when every
    request fails, [processImages] returns the empty mapping and the
    parsed input serialised again, writes nothing, and prints one warning
    for each request it made, in the same order. *)
Theorem processImages_offline (content : string) (w : World) :
  (forall w0 url, failed (fetch w0 url)) ->
  exists w',
    processImages self content postSlug w = (Return (∅, innerHTML (JSDOM content)), w')
    /\ disk w' = disk w
    /\ requests w'
       = requests w
           ++ List.filter JS.truthy
                (map (urlProperty "src") (Walk.elementsOf "img" (JSDOM content)))
    /\ warnings w'
       = warnings w
           ++ List.filter JS.truthy
                (map (urlProperty "src") (Walk.elementsOf "img" (JSDOM content))).
Proof.
  intros Hoff.
  set (inv := fun w1 w2 : World =>
                disk w2 = disk w1
                /\ exists urls, requests w2 = requests w1 ++ urls
                                /\ warnings w2 = warnings w1 ++ urls).
  assert (forall w1, inv w1 w1) as inv_refl.
  { intros w1. split; [reflexivity |]. exists []. rewrite !app_nil_r. auto. }
  assert (forall w1 w2 w3, inv w1 w2 -> inv w2 w3 -> inv w1 w3) as inv_trans.
  { intros w1 w2 w3 (D1 & u1 & R1 & W1) (D2 & u2 & R2 & W2). split; [congruence |].
    exists (u1 ++ u2). rewrite R2, R1, W2, W1, !app_assoc. auto. }
  assert (forall img acc w1, exists w2,
             firstPass self postSlug img acc w1 = (Return (img, acc), w2) /\ inv w1 w2)
    as Hbody.
  { intros img acc w1. unfold firstPass.
    destruct (JS.truthy (urlProperty "src" img)); cbn [negb].
    2:{ exists w1. split; [reflexivity | apply inv_refl]. }
    unfold bind.
    destruct (downloadImage_outcome self (urlProperty "src" img) postSlug w1)
      as (r & w2 & -> & Hreq & Hr).
    destruct r as [p|].
    { destruct Hr as (_ & _ & status & bytes & Hf & Hok & _).
      specialize (Hoff w1 (urlProperty "src" img)). rewrite Hf in Hoff. cbn in Hoff.
      congruence. }
    destruct Hr as ((e & Hc) & _ & Hd).
    exists w2. split; [reflexivity |]. split; [apply Hd, Hoff |].
    exists [urlProperty "src" img]. split; [exact Hreq |].
    unfold warnings. rewrite Hc, flat_map_app. reflexivity. }
  destruct (visitAll_same "img" (firstPass self postSlug) inv inv_refl inv_trans Hbody
              (JSDOM content) {| downloadedImages := []; imageUrlMap := ∅ |} w)
    as (w1 & E1 & D1 & urls & R1 & W1).
  destruct (processImages_run content w) as (doc1 & acc1 & w1' & doc2 & w2 & E1' & _ & E2 & E).
  rewrite E1 in E1'. injection E1' as <- <- <-. cbn [imageUrlMap downloadedImages] in *.
  rewrite visitAll_unchanged in E2.
  2:{ intros a _ acc w0. unfold secondPass. destruct (JS.truthy _); [| reflexivity].
      rewrite lookup_empty. reflexivity. }
  injection E2 as <- <-.
  eexists. split; [exact E |]. cbn [disk requests logged].
  destruct (processImages_spec self postSlug content w)
    as (doc' & urlMap & w' & E' & _ & Hreq & _).
  rewrite E in E'. injection E' as _ _ <-. cbn [requests logged] in Hreq.
  rewrite R1 in Hreq. apply app_inv_head in Hreq. subst urls.
  repeat apply conj; [exact D1 | exact R1 |].
  unfold warnings, logged. cbn [console]. rewrite flat_map_app. cbn [flat_map].
  rewrite app_nil_r. exact W1.
Qed.

End MoreAssetClaims.

(** ** The featured image *)

Section FeaturedImageClaims.
Context `{Jsdom} `{Paths} `{Env} `{Yaml}.
Variable self : Exporter.

(** X16. When the featured image of a post is also an image of its body
    that was downloaded, [extractFeaturedImage] returns the path recorded
    for it without a request or any other effect, and [featured_image]
    in the frontmatter is that path, the one the [img] of the body was
    given. *)
Theorem featured_image_reuses_body_download
    (post : Post) (media : Media) (urlMap : gmap string string) (html p : string)
    (w w1 : World) :
  processImages self (content_rendered post) (slug post) w = (Return (urlMap, html), w1) ->
  (_embedded post ≫= wp_featuredmedia) ≫= (λ media, media !! 0%nat) = Some media ->
  urlMap !! source_url media = Some p ->
  (forall w2, extractFeaturedImage self post urlMap w2 = (Return (Some p), w2))
  /\ Obj.get "featured_image" (baseFrontMatter self post (Some p)) = VString p
  /\ p = imagePathOf self (source_url media) (slug post)
  /\ In (source_url media)
       (map (urlProperty "src") (Walk.elementsOf "img" (JSDOM (content_rendered post)))).
Proof.
  intros Hrun Hmedia Hp.
  destruct (processImages_keys self (slug post) (content_rendered post) w)
    as (urlMap' & html' & w' & E & Hkeys).
  rewrite Hrun in E. injection E as <- <- <-.
  destruct (Hkeys _ _ Hp) as (Hin & _ & Ht & _).
  destruct (processImages_spec self (slug post) (content_rendered post) w)
    as (doc' & urlMap' & w' & E & Hrec & _).
  rewrite Hrun in E. injection E as <- _ <-.
  destruct (Hrec _ _ Hp) as (Hpath & _).
  repeat apply conj; [| | exact Hpath | exact Hin].
  - intros w2. unfold extractFeaturedImage. rewrite Hmedia, Hp. reflexivity.
  - unfold baseFrontMatter. rewrite Ht. reflexivity.
Qed.

(** X17. A featured image that cannot be downloaded does not fail the
    post: [extractFeaturedImage] returns [null] after one request and one
    warning, nothing is written, and [createFrontMatter] goes on with
    the document that has no [featured_image]; a post without featured
    media causes no request at all. *)
Theorem featured_image_failure_is_not_fatal
    (post : Post) (urlMap : gmap string string) (w : World) :
  ((_embedded post ≫= wp_featuredmedia) ≫= (λ media, media !! 0%nat) = None ->
   extractFeaturedImage self post urlMap w = (Return None, w))
  /\ (forall media,
         (_embedded post ≫= wp_featuredmedia) ≫= (λ media, media !! 0%nat) = Some media ->
         urlMap !! source_url media = None ->
         failed (fetch w (source_url media)) ->
         exists w',
           extractFeaturedImage self post urlMap w = (Return None, w')
           /\ requests w' = requests w ++ [source_url media]
           /\ warnings w' = warnings w ++ [source_url media]
           /\ disk w' = disk w
           /\ createFrontMatter self post urlMap w
              = bind (lift (applyHooks
                              (fun plugin frontMatter =>
                                 processFrontMatter plugin frontMatter post)
                              (loadedPlugins self) (baseFrontMatter self post None)))
                  (fun frontMatter =>
                     bind (lift (yaml_dump frontMatter))
                       (fun dumped => ret ("---" +:+ LF +:+ dumped +:+ "---" +:+ LF +:+ LF)))
                  w'
           /\ Obj.keys (baseFrontMatter self post None) = fixedKeys).
Proof.
  split.
  - intros Hnone. unfold extractFeaturedImage. rewrite Hnone. reflexivity.
  - intros media Hmedia Hno Hfail.
    assert (extractFeaturedImage self post urlMap w
            = downloadImage self (source_url media) (slug post) w) as Hex.
    { unfold extractFeaturedImage. rewrite Hmedia, Hno. reflexivity. }
    destruct (downloadImage_outcome self (source_url media) (slug post) w)
      as (r & w' & Hd & Hreq & Hr).
    destruct r as [p|].
    { destruct Hr as (_ & _ & status & bytes & Hf & Hok & _).
      rewrite Hf in Hfail. cbn in Hfail. congruence. }
    destruct Hr as ((e & Hc) & _ & Hdisk).
    exists w'. repeat apply conj.
    + rewrite Hex. exact Hd.
    + exact Hreq.
    + unfold warnings. rewrite Hc, flat_map_app. reflexivity.
    + apply Hdisk, Hfail.
    + rewrite createFrontMatter_folded. unfold foldedFrontMatter. unfold bind at 1.
      rewrite Hex, Hd. reflexivity.
    + reflexivity.
Qed.

End FeaturedImageClaims.

(** ** What the bundled plugins do to a document *)

Lemma keys_set_present k v o : In k (Obj.keys o) -> Obj.keys (Obj.set k v o) = Obj.keys o.
Proof.
  induction o as [|[k' v'] o IH]; [intros [] |].
  cbn [Obj.keys map fst Obj.set In]. destruct (String.eqb_spec k' k) as [E|E].
  - reflexivity.
  - intros [Hk | Hk]; [congruence |]. cbn [map fst]. f_equal. apply IH, Hk.
Qed.

Lemma keys_set_absent k v o : ~ In k (Obj.keys o) -> Obj.keys (Obj.set k v o) = Obj.keys o ++ [k].
Proof.
  induction o as [|[k' v'] o IH]; [reflexivity |].
  cbn [Obj.keys map fst Obj.set In]. destruct (String.eqb_spec k' k) as [E|E].
  - intros Hk. destruct Hk. left. exact E.
  - intros Hk. cbn [map fst app]. f_equal. apply IH. intros Hin. apply Hk. right. exact Hin.
Qed.

Lemma get_set_same k v o : Obj.get k (Obj.set k v o) = v.
Proof.
  induction o as [|[k' v'] o IH]; cbn [Obj.set Obj.get].
  - rewrite String.eqb_refl. reflexivity.
  - destruct (String.eqb k' k) eqn:E; cbn [Obj.get]; rewrite E; [reflexivity | exact IH].
Qed.

Lemma get_set_other k k0 v o : k0 <> k -> Obj.get k0 (Obj.set k v o) = Obj.get k0 o.
Proof.
  intros Hne. induction o as [|[k' v'] o IH]; cbn [Obj.set Obj.get].
  - destruct (String.eqb_spec k k0); [congruence | reflexivity].
  - destruct (String.eqb_spec k' k) as [E|E]; cbn [Obj.get].
    + destruct (String.eqb_spec k' k0); [congruence | reflexivity].
    + destruct (String.eqb k' k0); [reflexivity | exact IH].
Qed.

Lemma replace_go_absent p r s :
  p <> EmptyString -> JS.indexOf_from p s 0 = -1 -> JS.replace_go p r s O = s.
Proof.
  intros Hp. assert (0 <= 0) as Hi by lia. revert Hi. generalize 0 at 2 3.
  induction s as [|c s IH]; intros i Hi; [reflexivity |].
  cbn [JS.indexOf_from JS.replace_go].
  destruct (JS.startsWith p (String c s)).
  - intros E. lia.
  - intros E. f_equal. apply (IH (i + 1)); [lia | exact E].
Qed.

(** X18. The Yoast plugin replaces the excerpt and nothing else: a
    document that has an excerpt keeps its keys, in their order, and every
    other value, and this holds for the document [createFrontMatter]
    starts from; a post without Yoast data makes the hook throw. *)
Theorem yoast_replaces_excerpt_only (extractedMetadata : FrontMatter) (post : Post) :
  In "excerpt" (Obj.keys extractedMetadata) ->
  match yoast_head_json post with
  | Some yoast =>
      exists frontMatter,
        processFrontMatter YoastPlugin extractedMetadata post = Ok frontMatter
        /\ Obj.keys frontMatter = Obj.keys extractedMetadata
        /\ Obj.get "excerpt" frontMatter = description yoast
        /\ forall k, k <> "excerpt" ->
                     Obj.get k frontMatter = Obj.get k extractedMetadata
  | None => exists e, processFrontMatter YoastPlugin extractedMetadata post = Throw e
  end
  /\ forall self featuredMediaUrl,
      In "excerpt" (Obj.keys (baseFrontMatter self post featuredMediaUrl)).
Proof.
  intros Hin. split.
  - cbn [YoastPlugin processFrontMatter]. destruct (yoast_head_json post) as [yoast|].
    + eexists. split; [reflexivity |]. repeat apply conj.
      * apply keys_set_present, Hin.
      * apply get_set_same.
      * intros k Hk. apply get_set_other, Hk.
    + eexists. reflexivity.
  - intros self featured. unfold baseFrontMatter.
    destruct featured as [[|c url]|]; cbn; auto 12.
Qed.

(** X19. After the path-fixing plugin the document always has a
    [featured_image]: the keys are the ten fixed ones followed by it,
    and its value is the path of the featured image with the pattern
    replaced, or [null] when the post has none. *)
Theorem fix_paths_always_sets_featured_image
    (self : Exporter) (post : Post) (featuredMediaUrl : option string) :
  exists frontMatter,
    processFrontMatter ExampleFixPathsPlugin.plugin
      (baseFrontMatter self post featuredMediaUrl) post = Ok frontMatter
    /\ Obj.keys frontMatter = fixedKeys ++ ["featured_image"]
    /\ Obj.get "featured_image" frontMatter
       = match featuredMediaUrl with
         | Some url =>
             if JS.truthy url then VString (ExampleFixPathsPlugin._replaceUrl url) else VNull
         | None => VNull
         end.
Proof.
  unfold baseFrontMatter.
  destruct featuredMediaUrl as [[|c url]|]; eexists; repeat apply conj; reflexivity.
Qed.

(** X20. The path-fixing plugin leaves a text in which its pattern does
    not occur as it is, in the Markdown and in [featured_image]. *)
Theorem fix_paths_without_pattern (content : string) :
  JS.indexOf content "static/images/blogs/" = -1 ->
  ExampleFixPathsPlugin._replaceUrl content = content
  /\ processMarkdown ExampleFixPathsPlugin.plugin content = Ok content.
Proof.
  intros Habsent.
  assert (ExampleFixPathsPlugin._replaceUrl content = content) as E.
  { unfold ExampleFixPathsPlugin._replaceUrl, JS.replaceAll.
    apply replace_go_absent; [discriminate | exact Habsent]. }
  split; [exact E |]. cbn [ExampleFixPathsPlugin.plugin processMarkdown]. rewrite E. reflexivity.
Qed.

(** ** A run that completes *)

Lemma applyHooks_harmless {A} (hook : Plugin -> A -> Res A) (plugins : list Plugin) (x : A) :
  Forall (fun p => forall a, exists a', hook p a = Ok a') plugins ->
  exists y, applyHooks hook plugins x = Ok y.
Proof.
  intros F. revert x. induction F as [|p ps Hp _ IH]; intros x.
  - exists x. reflexivity.
  - rewrite applyHooks_cons. destruct (Hp x) as (a & ->). apply IH.
Qed.

Section PipelineFolded.
Context `{Jsdom} `{Paths} `{Env} `{LangDetector} `{TurndownService} `{Yaml}.

Lemma convertPostToMarkdown_folded self post w :
  convertPostToMarkdown self post w = foldedPipeline self post w.
Proof.
  unfold convertPostToMarkdown, foldedPipeline.
  apply bind_ext. intros [urlMap content] w1.
  rewrite (bind_forOf (fun plugin html => processHtml plugin html urlMap)).
  apply bind_ext. intros html w2.
  apply bind_ext. intros markdown w3.
  rewrite (bind_forOf processMarkdown).
  apply bind_ext. intros markdown' w4.
  unfold bind. rewrite createFrontMatter_folded. reflexivity.
Qed.

(** X21. A conversion stops at the first stage that throws, and what the
    image stage did stays: when an HTML hook, the converter or a Markdown
    hook throws, [convertPostToMarkdown] throws the same error in the
    world the image stage left, so the pictures of the body are on disk,
    no document was written, and the featured image is not asked for. *)
Theorem failed_conversion_keeps_images
    (self : Exporter) (post : Post) (urlMap : gmap string string) (html : string)
    (e : error) (w w1 : World) :
  processImages self (content_rendered post) (slug post) w = (Return (urlMap, html), w1) ->
  match applyHooks (fun plugin html => processHtml plugin html urlMap)
          (loadedPlugins self) html with
  | Throw e' => e' = e
  | Ok processedHtml =>
      match turndown (preserveTags self) (codeBlocks (codeClasses self)) processedHtml with
      | Throw e' => e' = e
      | Ok markdown => applyHooks processMarkdown (loadedPlugins self) markdown = Throw e
      end
  end ->
  convertPostToMarkdown self post w = (Raise e, w1)
  /\ documents w1 = documents w
  /\ forall url p, urlMap !! url = Some p -> exists bytes, In (p, bytes) (imageFiles w1).
Proof.
  intros Himg Hstage. repeat apply conj.
  - rewrite convertPostToMarkdown_folded. unfold foldedPipeline.
    unfold bind at 1. rewrite Himg. unfold bind at 1.
    destruct (applyHooks _ (loadedPlugins self) html) as [processedHtml|e']; cbn [lift].
    2:{ rewrite Hstage. reflexivity. }
    unfold bind at 1.
    destruct (turndown _ _ processedHtml) as [markdown|e']; cbn [lift].
    2:{ rewrite Hstage. reflexivity. }
    unfold bind at 1. rewrite Hstage. reflexivity.
  - apply growsBinary_documents. exact (binaryOnly_processImages _ _ _ _ _ _ Himg).
  - intros url p Hp.
    destruct (processImages_keys self (slug post) (content_rendered post) w)
      as (urlMap' & html' & w' & E & Hkeys).
    rewrite Himg in E. injection E as <- <- <-.
    destruct (Hkeys _ _ Hp) as (_ & _ & _ & Hfile). exact Hfile.
Qed.

End PipelineFolded.

Section CompletionClaims.
Context `{Jsdom} `{Paths} `{Env} `{LangDetector} `{TurndownService} `{Yaml} `{Sources}.

Hypothesis Hdependable : dependable.

Lemma dumpEntries_returns (o : FrontMatter) : exists out, dumpEntries o = Ok out.
Proof.
  destruct Hdependable as (_ & _ & Hyaml).
  induction o as [|[k v] o (rest & IH)]; [eexists; reflexivity |].
  cbn [dumpEntries]. destruct (Hyaml k v) as (line & ->). rewrite IH. eexists. reflexivity.
Qed.

Lemma yaml_dump_returns (o : FrontMatter) : exists out, yaml_dump o = Ok out.
Proof. destruct o; [eexists; reflexivity | apply dumpEntries_returns]. Qed.

Lemma convertPostToMarkdown_returns (self : Exporter) (post : Post) (w : World) :
  Forall harmless (loadedPlugins self) ->
  exists markdown w', convertPostToMarkdown self post w = (Return markdown, w').
Proof.
  intros Hplugins. destruct Hdependable as (_ & Hturn & _).
  rewrite convertPostToMarkdown_folded. unfold foldedPipeline.
  destruct (processImages_spec self (slug post) (content_rendered post) w)
    as (doc' & urlMap & w1 & Eimg & _).
  unfold bind at 1. rewrite Eimg.
  destruct (applyHooks_harmless (fun plugin html => processHtml plugin html urlMap)
              (loadedPlugins self) (innerHTML doc')) as (html & Ehtml).
  { eapply List.Forall_impl; [| exact Hplugins]. intros p (_ & Hh & _) a. apply Hh. }
  unfold bind at 1. rewrite Ehtml. cbn [lift].
  destruct (Hturn (preserveTags self) (codeBlocks (codeClasses self)) html) as (md & Emd).
  unfold bind at 1. rewrite Emd. cbn [lift].
  destruct (applyHooks_harmless processMarkdown (loadedPlugins self) md) as (md' & Emd').
  { eapply List.Forall_impl; [| exact Hplugins]. intros p (_ & _ & Hm) a. apply Hm. }
  unfold bind at 1. rewrite Emd'. cbn [lift].
  unfold foldedFrontMatter, bind.
  assert (exists featured w2, extractFeaturedImage self post urlMap w1 = (Return featured, w2))
    as (featured & w2 & ->).
  { unfold extractFeaturedImage. destruct (_ ≫= _) as [media|]; [| eexists _, _; reflexivity].
    destruct (urlMap !! _); [eexists _, _; reflexivity |].
    destruct (downloadImage_cases self (source_url media) (slug post) w1)
      as (r & w2 & -> & _). eexists _, _. reflexivity. }
  destruct (applyHooks_harmless
              (fun plugin frontMatter => processFrontMatter plugin frontMatter post)
              (loadedPlugins self) (baseFrontMatter self post featured)) as (fm & ->).
  { eapply List.Forall_impl; [| exact Hplugins]. intros p (Hf & _) a. apply Hf. }
  cbn [lift]. destruct (yaml_dump_returns fm) as (dumped & ->). cbn [lift ret].
  eexists _, _. reflexivity.
Qed.

Lemma exportPost_completes (self : Exporter) (total converted : nat) (post : Post)
    (w : World) :
  Forall harmless (loadedPlugins self) ->
  exists w', exportPost self total converted post w = (Return (S converted), w').
Proof.
  intros Hplugins. unfold exportPost. unfold bind at 1. cbn [log]. unfold bind at 1.
  destruct (convertPostToMarkdown_returns self post
              (logged (ProcessingPost (slug post)) w) Hplugins) as (md & w1 & ->).
  unfold bind at 1, doFs. rewrite (proj1 Hdependable).
  unfold bind at 1. cbn [log ret]. eexists. reflexivity.
Qed.

Lemma exportPosts_loop_completes (self : Exporter) (total : nat) (posts : list Post)
    (converted : nat) (w : World) :
  Forall harmless (loadedPlugins self) ->
  exists w',
    forOf (exportPost self total) posts converted w
    = (Return (converted + length posts)%nat, w').
Proof.
  intros Hplugins. revert converted w. induction posts as [|post posts IH]; intros converted w.
  - exists w. cbn. rewrite Nat.add_0_r. reflexivity.
  - cbn [forOf]. unfold bind.
    destruct (exportPost_completes self total converted post w Hplugins) as (w1 & ->).
    destruct (IH (S converted) w1) as (w2 & ->).
    exists w2. cbn [length]. do 2 f_equal. lia.
Qed.

(** X22. When the file system, the converter and the YAML writer do not
    fail and no hook of a loaded plugin throws, a run that got through
    [init] and the crawl completes whatever the requests for images are
    answered: [exportPosts] returns, each post has its document at
    [path.join(baseDir, sanitize(slug) + '.md')], written in the order of
    the posts, and the last thing printed is the number of posts. *)
Theorem export_completes
    (self self' : Exporter) (posts : list Post) (w w0 w1 : World) :
  init self w = (Return self', w0) ->
  fetchPosts self' w0 = (Return posts, w1) ->
  Forall harmless (loadedPlugins self') ->
  exists w2 markdowns,
    exportPosts self w = (Return tt, logged (Exported (length posts) (baseDir self')) w2)
    /\ length markdowns = length posts
    /\ documents w2 = documents w1 ++ zip (map (documentPath self') posts) markdowns.
Proof.
  intros Hinit Hfetch Hplugins.
  destruct (exportPosts_loop_completes self' (length posts) posts 0
              (logged ConvertingPosts w1) Hplugins) as (w2 & Hloop).
  destruct (exportPosts_loop _ _ _ _ _ _ _ Hloop) as (_ & mds & Hlen & Hdocs).
  exists w2, mds. split; [| split; [exact Hlen | exact Hdocs]].
  unfold exportPosts, tryCatch. unfold bind at 1. rewrite Hinit.
  unfold bind at 1. rewrite Hfetch. unfold bind at 1. cbn [log].
  unfold bind at 1. rewrite Hloop. reflexivity.
Qed.

End CompletionClaims.

(** ** The crawl *)

Section CrawlClaims.
Context `{Env} `{Crawl.Wire}.
Variable self : Exporter.
Variable options : Crawl.Options.

(** The ways a turn of the loop can go. *)
Lemma iteration_cases page allPosts w :
  (Crawl.exhausted options allPosts = true
   /\ Crawl.iteration self options page allPosts w = (Crawl.Break allPosts, w, []))
  \/ (Crawl.exhausted options allPosts = false
      /\ let url := Crawl.pageUrl self options page (Crawl.perPageFor options allPosts) in
         let w1 := asked w url in
         (exists o out, Crawl.iteration self options page allPosts w = (Crawl.Stop o, w1, out)
                        /\ forall posts, o <> Return posts)
         \/ Crawl.iteration self options page allPosts w = (Crawl.Break allPosts, w1, [])
         \/ exists posts,
             posts <> []
             /\ (exists status body,
                    fetch w url = Ok (status, body) /\ ok status = true
                    /\ Crawl.json body = Ok posts)
             /\ (Crawl.reached options (allPosts ++ posts) = true
                 /\ Crawl.iteration self options page allPosts w
                    = (Crawl.Break (Crawl.sliced options (allPosts ++ posts)), w1,
                       [Crawl.Fetched (length (allPosts ++ posts)) (Crawl.postType options)
                          (Crawl.limit options)])
                 \/ Crawl.reached options (allPosts ++ posts) = false
                    /\ Crawl.iteration self options page allPosts w
                       = (Crawl.Next (allPosts ++ posts), w1,
                          [Crawl.Fetched (length (allPosts ++ posts)) (Crawl.postType options)
                             (Crawl.limit options)]))).
Proof.
  unfold Crawl.iteration.
  destruct (Crawl.exhausted options allPosts); [left; auto |].
  right. split; [reflexivity |]. cbv zeta. unfold doFetch, lift, asked.
  destruct (fetch w _) as [[status body]|e] eqn:Ef.
  2:{ left. eexists _, _. split; [reflexivity | discriminate]. }
  destruct (status =? 404).
  { left. eexists _, _. split; [reflexivity | discriminate]. }
  destruct (status =? 400); [right; left; reflexivity |].
  destruct (ok status) eqn:Eok; cbn [negb].
  2:{ left. eexists _, _. split; [reflexivity | discriminate]. }
  destruct (Crawl.json body) as [posts|e] eqn:Ej.
  2:{ left. eexists _, _. split; [reflexivity | discriminate]. }
  destruct posts as [|post posts]; [right; left; reflexivity |].
  right. right. exists (post :: posts). split; [discriminate |].
  split; [exists status, body; auto |].
  destruct (Crawl.reached options (allPosts ++ post :: posts)); [left | right]; auto.
Qed.

(** With a limit the loop ends before the fuel does, returns no more
    posts than the limit, and makes no more requests than posts are
    still to come. *)
Lemma pages_bounded (l : Z) (fuel : nat) :
  Crawl.limit options = Some l ->
  forall page allPosts w printed,
    (Z.to_nat (l - Z.of_nat (length allPosts)) < fuel)%nat ->
    Z.of_nat (length allPosts) <= Z.max 0 l ->
    exists o w' printed',
      Crawl.pages self options fuel page allPosts w printed = Some (o, w', printed')
      /\ (forall posts, o = Return posts -> Z.of_nat (length posts) <= Z.max 0 l)
      /\ (length (requests w')
          <= length (requests w) + Z.to_nat (l - Z.of_nat (length allPosts)))%nat.
Proof.
  intros Hl. induction fuel as [|fuel IH]; intros page allPosts w printed Hfuel Hlen; [lia |].
  cbn [Crawl.pages].
  destruct (iteration_cases page allPosts w) as [[Hex ->] | [Hex Hcases]].
  { eexists _, _, _. split; [reflexivity |]. split; [| lia].
    intros posts [= <-]. exact Hlen. }
  unfold Crawl.exhausted in Hex. rewrite Hl in Hex. apply Z.leb_gt in Hex.
  cbv zeta in Hcases.
  destruct Hcases as [(o & out & -> & Ho) | [-> | (posts & Hne & _ & Hreached)]].
  - eexists _, _, _. split; [reflexivity |]. split.
    + intros posts ->. destruct (Ho posts eq_refl).
    + cbn [requests asked]. rewrite length_app. cbn [length]. lia.
  - eexists _, _, _. split; [reflexivity |]. split.
    + intros posts [= <-]. exact Hlen.
    + cbn [requests asked]. rewrite length_app. cbn [length]. lia.
  - assert (length (allPosts ++ posts) > length allPosts)%nat as Hgrow.
    { rewrite length_app. destruct posts; [congruence | cbn [length]; lia]. }
    destruct Hreached as [[Hr ->] | [Hr ->]].
    + eexists _, _, _. split; [reflexivity |]. split.
      * intros ps [= <-]. unfold Crawl.sliced. rewrite Hl.
        rewrite length_firstn. lia.
      * cbn [requests asked]. rewrite length_app. cbn [length]. lia.
    + unfold Crawl.reached in Hr. rewrite Hl in Hr. apply Z.leb_gt in Hr.
      destruct (IH (page + 1) (allPosts ++ posts)
                  (asked w (Crawl.pageUrl self options page (Crawl.perPageFor options allPosts)))
                  (printed ++ [Crawl.Fetched (length (allPosts ++ posts)) (Crawl.postType options)
                                 (Crawl.limit options)]))
        as (o & w' & pr & -> & Ho & Hreq); [lia | lia |].
      eexists _, _, _. split; [reflexivity |]. split; [exact Ho |].
      cbn [requests asked] in Hreq. rewrite length_app in Hreq. cbn [length] in Hreq. lia.
Qed.

(** X23. With a limit the crawl ends, whatever the site answers: after
    at most [limit] turns it has returned, thrown or ended the process;
    what it returns has at most [limit] posts, and it has made at most
    [limit] requests, so none at all for a limit of 0 or less. *)
Theorem crawl_ends_within_limit (l : Z) (fuel : nat) (w : World) :
  Crawl.limit options = Some l ->
  (Z.to_nat l < fuel)%nat ->
  exists o w' printed,
    Crawl.fetchPosts self options fuel w = Some (o, w', printed)
    /\ (forall posts, o = Return posts -> (length posts <= Z.to_nat l)%nat)
    /\ (length (requests w') <= length (requests w) + Z.to_nat l)%nat.
Proof.
  intros Hl Hfuel. unfold Crawl.fetchPosts.
  destruct (pages_bounded l fuel Hl 1 [] w [Crawl.Fetching (Crawl.postType options)])
    as (o & w' & pr & E & Ho & Hreq); cbn [length]; [lia | lia |].
  exists o, w', pr. split; [exact E |]. split.
  - intros posts Hp. specialize (Ho posts Hp). lia.
  - cbn [length] in Hreq. rewrite Z.sub_0_r in Hreq. exact Hreq.
Qed.

(** The requests of the loop are for consecutive pages, each of 1 to 100
    posts. *)
Lemma pages_requests (fuel : nat) :
  forall page allPosts w printed o w' printed',
    Crawl.pages self options fuel page allPosts w printed = Some (o, w', printed') ->
    exists sizes,
      requests w'
      = requests w ++ imap (fun i perPage => Crawl.pageUrl self options (page + Z.of_nat i) perPage) sizes
      /\ Forall (fun perPage => 1 <= perPage <= 100) sizes.
Proof.
  induction fuel as [|fuel IH]; intros page allPosts w printed o w' printed'; [discriminate |].
  cbn [Crawl.pages].
  assert (Crawl.exhausted options allPosts = false ->
          1 <= Crawl.perPageFor options allPosts <= 100) as Hsize.
  { unfold Crawl.exhausted, Crawl.perPageFor. destruct (Crawl.limit options) as [l|]; [| lia].
    intros Hex. apply Z.leb_gt in Hex. lia. }
  assert (forall w1, requests w1 = requests w ++ [Crawl.pageUrl self options page (Crawl.perPageFor options allPosts)] ->
                     Crawl.exhausted options allPosts = false ->
                     exists sizes,
                       requests w1
                       = requests w
                           ++ imap (fun i perPage => Crawl.pageUrl self options (page + Z.of_nat i) perPage) sizes
                       /\ Forall (fun perPage => 1 <= perPage <= 100) sizes) as Hone.
  { intros w1 Hw1 Hex. exists [Crawl.perPageFor options allPosts]. split.
    - rewrite Hw1. cbn [imap]. rewrite Z.add_0_r. reflexivity.
    - constructor; [apply Hsize, Hex | constructor]. }
  destruct (iteration_cases page allPosts w) as [[Hex ->] | [Hex Hcases]].
  { intros [= _ <- _]. exists []. cbn. rewrite app_nil_r. split; [reflexivity | constructor]. }
  cbv zeta in Hcases.
  destruct Hcases as [(o1 & out & -> & Ho) | [-> | (posts & Hne & _ & [[Hr ->] | [Hr ->]])]].
  - intros [= _ <- _]. apply Hone; [reflexivity | exact Hex].
  - intros [= _ <- _]. apply Hone; [reflexivity | exact Hex].
  - intros [= _ <- _]. apply Hone; [reflexivity | exact Hex].
  - intros Hrest. apply IH in Hrest as (sizes & Hreq & Hsizes).
    exists (Crawl.perPageFor options allPosts :: sizes). split.
    + rewrite Hreq. cbn [requests asked imap]. rewrite <- app_assoc, Z.add_0_r.
      cbn [app]. do 2 f_equal. apply imap_ext. intros i x _. cbn. f_equal. lia.
    + constructor; [apply Hsize, Hex | exact Hsizes].
Qed.

(** X24. However the crawl ends, its requests were for the pages 1, 2,
    3 and so on in this order, one request each, every one asking for
    at least 1 and at most 100 posts. *)
Theorem crawl_asks_consecutive_pages
    (fuel : nat) (w w' : World) (o : Out (list Post)) (printed : list Crawl.line) :
  Crawl.fetchPosts self options fuel w = Some (o, w', printed) ->
  exists sizes,
    requests w'
    = requests w ++ imap (fun i perPage => Crawl.pageUrl self options (Z.of_nat (S i)) perPage) sizes
    /\ Forall (fun perPage => 1 <= perPage <= 100) sizes.
Proof.
  intros Hrun. apply pages_requests in Hrun as (sizes & Hreq & Hsizes).
  exists sizes. split; [| exact Hsizes]. rewrite Hreq. f_equal.
  apply imap_ext. intros i x _. cbn. f_equal. lia.
Qed.

(** The loop over pages that are all there. *)
Lemma pages_served (served : list (list Post)) :
  Crawl.limit options = None ->
  Crawl.serves self options served ->
  Crawl.endsAfter self options (length served) ->
  forall todo done allPosts w printed,
    served = done ++ todo ->
    exists w' printed',
      Crawl.pages self options (S (length todo)) (Z.of_nat (S (length done))) allPosts w printed
      = Some (Return (allPosts ++ concat todo), w', printed')
      /\ requests w'
         = requests w
             ++ map (fun i => Crawl.pageUrl self options (Z.of_nat (S i)) 100)
                  (seq (length done) (S (length todo))).
Proof.
  intros Hl Hserves Hends.
  assert (forall allPosts, Crawl.exhausted options allPosts = false) as Hex
      by (intros; unfold Crawl.exhausted; rewrite Hl; reflexivity).
  assert (forall allPosts, Crawl.perPageFor options allPosts = 100) as Hper
      by (intros; unfold Crawl.perPageFor; rewrite Hl; reflexivity).
  assert (forall allPosts, Crawl.reached options allPosts = false) as Hreached
      by (intros; unfold Crawl.reached; rewrite Hl; reflexivity).
  induction todo as [|posts todo IH]; intros done allPosts w printed Hsplit.
  - rewrite app_nil_r in Hsplit. subst done.
    destruct (Hends w) as (status & body & Hf & Hstatus).
    cbn [Crawl.pages length]. unfold Crawl.iteration.
    rewrite Hex, Hper. unfold doFetch, lift. rewrite Hf.
    destruct Hstatus as [-> | [Hok Hj]].
    + cbn. eexists _, _. split; [rewrite app_nil_r; reflexivity | reflexivity].
    + assert ((status =? 404) = false) as ->.
      { unfold ok in Hok. apply andb_true_iff in Hok as [_ Hok]. apply Z.leb_le in Hok.
        apply Z.eqb_neq. lia. }
      assert ((status =? 400) = false) as ->.
      { unfold ok in Hok. apply andb_true_iff in Hok as [_ Hok]. apply Z.leb_le in Hok.
        apply Z.eqb_neq. lia. }
      rewrite Hok, Hj. cbn. eexists _, _. split; [rewrite app_nil_r; reflexivity | reflexivity].
  - assert (served !! length done = Some posts) as Hlook.
    { rewrite Hsplit. rewrite lookup_app_r by lia. rewrite Nat.sub_diag. reflexivity. }
    destruct (Hserves _ _ w Hlook) as (Hne & status & body & Hf & Hok & Hj).
    cbn [Crawl.pages]. unfold Crawl.iteration at 1.
    rewrite Hex, Hper. unfold doFetch, lift. rewrite Hf.
    assert ((status =? 404) = false) as ->.
    { unfold ok in Hok. apply andb_true_iff in Hok as [_ Hok']. apply Z.leb_le in Hok'.
      apply Z.eqb_neq. lia. }
    assert ((status =? 400) = false) as ->.
    { unfold ok in Hok. apply andb_true_iff in Hok as [_ Hok']. apply Z.leb_le in Hok'.
      apply Z.eqb_neq. lia. }
    rewrite Hok, Hj. cbn [negb]. destruct posts as [|post posts]; [congruence |].
    rewrite Hreached.
    destruct (IH (done ++ [post :: posts]) (allPosts ++ post :: posts)
                {| requests := requests w ++ [Crawl.pageUrl self options (Z.of_nat (S (length done))) 100];
                   disk := disk w; console := console w |}
                (printed ++ [Crawl.Fetched (length (allPosts ++ post :: posts)) (Crawl.postType options)
                               (Crawl.limit options)]))
      as (w' & pr & E & Hreq).
    { rewrite <- app_assoc. exact Hsplit. }
    rewrite length_app in E. cbn [length] in E.
    replace (Z.of_nat (S (length done)) + 1) with (Z.of_nat (S (length done + 1))) by lia.
    change (length ((post :: posts) :: todo)) with (S (length todo)).
    rewrite E. eexists _, _. split.
    + cbn [concat]. rewrite app_assoc. reflexivity.
    + rewrite Hreq. cbn [requests]. rewrite <- app_assoc. f_equal.
      rewrite length_app. cbn [length]. cbn [seq map app].
      replace (length done + 1)%nat with (S (length done)) by lia. reflexivity.
Qed.

(** X25. Without a limit, from a site that has its posts on pages of 100
    and answers 400, or an empty list, for the page after the last, the
    crawl returns the posts of all pages in the order of the pages, after
    one request for each page and one for the page after the last. *)
Theorem crawl_gathers_every_page (served : list (list Post)) (w : World) :
  Crawl.limit options = None ->
  Crawl.serves self options served ->
  Crawl.endsAfter self options (length served) ->
  exists w' printed,
    Crawl.fetchPosts self options (S (length served)) w
    = Some (Return (concat served), w', printed)
    /\ requests w'
       = requests w
           ++ map (fun i => Crawl.pageUrl self options (Z.of_nat (S i)) 100) (seq 0 (S (length served))).
Proof.
  intros Hl Hserves Hends. unfold Crawl.fetchPosts.
  destruct (pages_served served Hl Hserves Hends served [] [] w [Crawl.Fetching (Crawl.postType options)] eq_refl)
    as (w' & pr & E & Hreq).
  exists w', pr. split; [exact E | exact Hreq].
Qed.

(** X26. An answer that is neither a success nor the status 400 ends the
    crawl without posts, also when it comes for a later page: the status
    404 ends the process with status 1, any other such status and a
    rejected request are thrown again after they were printed, and the
    posts of the pages before are not returned. *)
Theorem crawl_failure_is_fatal
    (fuel : nat) (page : Z) (allPosts : list Post) (w : World) (printed : list Crawl.line) :
  Crawl.exhausted options allPosts = false ->
  match fetch w (Crawl.pageUrl self options page (Crawl.perPageFor options allPosts)) with
  | Ok (status, _) => ok status = false /\ status <> 400
  | Throw _ => True
  end ->
  exists o line,
    Crawl.pages self options (S fuel) page allPosts w printed
    = Some (o, asked w (Crawl.pageUrl self options page (Crawl.perPageFor options allPosts)), printed ++ [line])
    /\ match fetch w (Crawl.pageUrl self options page (Crawl.perPageFor options allPosts)) with
       | Ok (status, _) =>
           if status =? 404 then o = Exit 1 /\ line = Crawl.ApiNotFound
           else o = Raise (HttpError status)
                /\ line = Crawl.FailedToFetch (Crawl.postType options) (HttpError status)
       | Throw e => o = Raise e /\ line = Crawl.FailedToFetch (Crawl.postType options) e
       end.
Proof.
  intros Hex Hfail. cbn [Crawl.pages]. unfold Crawl.iteration. rewrite Hex.
  unfold doFetch, lift, asked.
  destruct (fetch w _) as [[status body]|e].
  - destruct Hfail as [Hok Hne]. destruct (status =? 404) eqn:E404.
    + eexists _, _. split; [reflexivity | auto].
    + apply Z.eqb_neq in Hne. rewrite Hne, Hok. cbn [negb].
      eexists _, _. split; [reflexivity | auto].
  - eexists _, _. split; [reflexivity | auto].
Qed.

End CrawlClaims.

(** ** The code-block rule, once more *)

Section PrecedenceClaims.
Context `{LangDetector}.

(** X27. An element that is not blank and whose class attribute contains
    a marker class gets the code-block rule whatever rules were added to
    the service before it; a blank element never gets it. *)
Theorem codeBlocks_takes_precedence
    (codeClasses : list string) (rules : list Turndown.Rule) (n : node) (className : string) :
  In className codeClasses ->
  occursIn className (DOM.className n) ->
  codeBlocks_fires codeClasses rules false n
  /\ ~ codeBlocks_fires codeClasses rules true n.
Proof.
  intros Hin Hocc. split.
  - apply forNode_first. split; [reflexivity |].
    apply codeBlocks_filter_marker. exists className. split; assumption.
  - intros Hf. apply forNode_first in Hf as [Hb _]. discriminate.
Qed.

End PrecedenceClaims.

(** ** The end of a run *)

Section EndOfRun.
Context `{Jsdom} `{Paths} `{Env} `{LangDetector} `{TurndownService} `{Yaml} `{Sources}.

Lemma init_baseDir self self' w w0 :
  init self w = (Return self', w0) -> baseDir self' = baseDir self.
Proof.
  unfold init, bind.
  destruct (doFs (Mkdir (baseDir self)) w) as [[[]|e|c] w1]; try discriminate.
  destruct (doFs (Mkdir (imagesDir self)) w1) as [[[]|e|c] w2]; try discriminate.
  unfold _loadPlugins, bind.
  destruct (loadPlugins w2) as [[allPlugins|e|c] w3]; try discriminate.
  destruct (resolvePlugins allPlugins (plugins self)) as [[|m missing] found].
  - intros [= <- _]. reflexivity.
  - discriminate.
Qed.

(** X28. [exportPosts] never throws: an error thrown anywhere in it is
    printed as an export failure and ends the process with status 1; and
    when it returns, the last thing it printed is the number of posts
    exported and the output directory. *)
Theorem exportPosts_never_throws (self : Exporter) (w : World) :
  (forall e w', exportPosts self w <> (Raise e, w'))
  /\ (forall w',
         exportPosts self w = (Return tt, w') ->
         exists total, List.last (console w') ConvertingPosts = Exported total (baseDir self))
  /\ (forall e w1,
         bind (init self)
           (fun self' =>
              bind (fetchPosts self')
                (fun posts =>
                   bind (log ConvertingPosts)
                     (fun _ => forOf (exportPost self' (length posts)) posts 0%nat))) w
         = (Raise e, w1) ->
         exportPosts self w = (Exit 1, logged (ExportFailed e) w1)).
Proof.
  unfold exportPosts, tryCatch. repeat apply conj.
  - intros e w'.
    match goal with |- context [match ?m with _ => _ end] => destruct m as [[[]|e'|c] w1] end;
      discriminate.
  - intros w'. unfold bind at 1.
    destruct (init self w) as [[self'|e|c] w0] eqn:Einit; try discriminate.
    apply init_baseDir in Einit. rewrite <- Einit.
    unfold bind at 1. destruct (fetchPosts self' w0) as [[posts|e|c] w1]; try discriminate.
    unfold bind at 1. cbn [log]. unfold bind at 1.
    destruct (forOf _ posts 0%nat _) as [[k|e|c] w2]; try discriminate.
    cbn [log]. intros [= <-]. exists (length posts).
    cbn [console logged]. apply last_last.
  - intros e w1 Hraise.
    unfold bind at 1. unfold bind at 1 in Hraise.
    destruct (init self w) as [[self'|e'|c] w0]; [| injection Hraise as <- <-; reflexivity
                                                   | discriminate].
    unfold bind at 1. unfold bind at 1 in Hraise.
    destruct (fetchPosts self' w0) as [[posts|e'|c] w2];
      [| injection Hraise as <- <-; reflexivity | discriminate].
    unfold bind at 1. unfold bind at 1 in Hraise. cbn [log] in *.
    unfold bind at 1. rewrite Hraise. reflexivity.
Qed.

End EndOfRun.

(** * The exporter at work on explicit inputs *)

Import Sample.

(** ** Code blocks *)

(** C6, on the highlighter's [pre]: the rule is chosen, and the marker
    class is there. *)
Lemma codeBlocks_only_on_marker_class_witness :
  codeBlocks_fires ["EnlighterJSRAW"] [] false (pre "print('hi')")
  /\ exists className,
      In className ["EnlighterJSRAW"]
      /\ occursIn className (DOM.className (pre "print('hi')")).
Proof.
  assert (codeBlocks_fires ["EnlighterJSRAW"] [] false (pre "print('hi')")) as Hf
      by reflexivity.
  split; [exact Hf |].
  exact (proj1 (codeBlocks_only_on_marker_class ["EnlighterJSRAW"] [] false
                  (pre "print('hi')")) Hf).
Defined.

(** The scenario of the specification: a marked [pre] holding a Python
    call becomes a fence tagged [python]. *)
Example python_fence :
  codeBlocks_replacement EmptyString (pre ("  print('hi')" +:+ CRLF))
  = "```python" +:+ LF +:+ "print('hi')" +:+ LF +:+ "```" +:+ LF +:+ LF.
Proof. reflexivity. Qed.

(** Backslash-n first, CRLF next: CR, backslash, n is one line break. *)
Example normalisation_order :
  codeOf (pre ("a" +:+ CR +:+ "\n" +:+ "b")) = "a" +:+ LF +:+ "b".
Proof. reflexivity. Qed.

(** Neither detection nor the JSON probe answers: the fence has no tag. *)
Example plain_fence :
  codeBlocks_replacement EmptyString (pre "x = ")
  = "```" +:+ LF +:+ "x =" +:+ LF +:+ "```" +:+ LF +:+ LF.
Proof. reflexivity. Qed.

(** C10, for a bare number, a quoted string, [true], [false] and [null]. *)
Lemma json_probe_any_value_witness :
  codeBlocks_replacement EmptyString (pre "42") = spec_fence "json" "42"
  /\ codeBlocks_replacement EmptyString (pre (JS.DQUOTE +:+ "hi" +:+ JS.DQUOTE))
     = spec_fence "json" (JS.DQUOTE +:+ "hi" +:+ JS.DQUOTE)
  /\ codeBlocks_replacement EmptyString (pre "true") = spec_fence "json" "true"
  /\ codeBlocks_replacement EmptyString (pre "false") = spec_fence "json" "false"
  /\ codeBlocks_replacement EmptyString (pre " null ") = spec_fence "json" "null".
Proof.
  repeat apply conj.
  - exact (json_probe_any_value EmptyString (pre "42") JSON.KNumber eq_refl eq_refl).
  - exact (json_probe_any_value EmptyString (pre (JS.DQUOTE +:+ "hi" +:+ JS.DQUOTE))
             JSON.KString eq_refl eq_refl).
  - exact (json_probe_any_value EmptyString (pre "true") JSON.KTrue eq_refl eq_refl).
  - exact (json_probe_any_value EmptyString (pre "false") JSON.KFalse eq_refl eq_refl).
  - exact (json_probe_any_value EmptyString (pre " null ") JSON.KNull eq_refl eq_refl).
Defined.

(** ** Assets *)





(** What the rewritten markup of the linked picture looks like. *)
Example linked_picture_rewritten :
  exists urlMap w',
    processImages exporter linkedPicture "hello" emptyWorld
    = (Return (urlMap,
               "<a href=" +:+ JS.DQUOTE +:+ "blog_export/images/hello/pic.png" +:+ JS.DQUOTE
                 +:+ "><img src=" +:+ JS.DQUOTE +:+ "blog_export/images/hello/pic.png"
                 +:+ JS.DQUOTE +:+ "></a>"), w').
Proof. eexists _, _. vm_compute. reflexivity. Qed.

(** C5, as stated, fails: a paragraph left open has no image, and the
    markup that comes back has the paragraph closed. *)
Lemma no_images_markup_reserialised :
  Walk.elementsOf "img" (JSDOM "<p>hi") = []
  /\ exists urlMap w',
      processImages exporter "<p>hi" "hello" emptyWorld = (Return (urlMap, "<p>hi</p>"), w')
      /\ "<p>hi</p>" <> "<p>hi".
Proof.
  split; [reflexivity |]. eexists _, _. split; [vm_compute; reflexivity | discriminate].
Qed.

(** C5 (amended), on the same paragraph. *)
Lemma no_images_no_rewrite_witness :
  processImages exporter "<p>hi" "hello" emptyWorld
  = (Return (∅, innerHTML (JSDOM "<p>hi")),
     {| requests := []; disk := []; console := [DownloadedImages 0 "hello"] |}).
Proof.
  exact (no_images_no_rewrite exporter "<p>hi" "hello" emptyWorld eq_refl).
Defined.

(** ** A run over three posts *)

(** C1, as stated, fails: of three posts only the second throws; the run
    ends with status 1 after one document, and the third post is never
    started. *)
Lemma export_aborts_on_failing_post :
  (exists markdown w, convertPostToMarkdown loadedExporter (withYoast (post "a" "Alpha") "First")
                        emptyWorld = (Return markdown, w))
  /\ (exists e w, convertPostToMarkdown loadedExporter (post "b" "Beta") emptyWorld
                  = (Raise e, w))
  /\ (exists markdown w, convertPostToMarkdown loadedExporter
                           (withYoast (post "c" "Gamma") "Third") emptyWorld
                         = (Return markdown, w))
  /\ fst failingRun = Exit 1
  /\ map fst (documents (snd failingRun)) = ["blog_export/a.md"]
  /\ length (documents (snd failingRun)) <> 2%nat
  /\ In (ProcessingPost "b") (console (snd failingRun))
  /\ ~ In (ProcessingPost "c") (console (snd failingRun))
  /\ List.last (console (snd failingRun)) ConvertingPosts
     = ExportFailed
         (TypeError "Cannot read properties of undefined (reading 'description')").
Proof.
  repeat apply conj.
  - eexists _, _. vm_compute. reflexivity.
  - eexists _, _. vm_compute. reflexivity.
  - eexists _, _. vm_compute. reflexivity.
  - vm_compute. reflexivity.
  - vm_compute. reflexivity.
  - vm_compute. discriminate.
  - vm_compute. do 4 right. left. reflexivity.
  - vm_compute. intros Hin.
    repeat (destruct Hin as [Hin|Hin]; [discriminate |]). destruct Hin.
  - vm_compute. reflexivity.
Qed.

(** C1 (amended), on the same run. *)
Lemma export_stops_at_first_failure_witness :
  exists e w3,
    @exportPosts _ _ _ _ _ _ (sources threePosts) (exporterWith ["Yoast"]) emptyWorld
    = (Exit 1, logged (ExportFailed e) w3)
    /\ exists markdowns,
        length markdowns = 1%nat
        /\ documents (logged (ExportFailed e) w3)
           = [] ++ zip (map (documentPath loadedExporter)
                          [withYoast (post "a" "Alpha") "First"]) markdowns.
Proof.
  eexists _, _.
  refine (@export_stops_at_first_failure _ _ _ _ _ _ (sources threePosts)
            (exporterWith ["Yoast"]) loadedExporter
            [withYoast (post "a" "Alpha") "First"] (post "b" "Beta")
            [withYoast (post "c" "Gamma") "Third"] _ 1%nat emptyWorld
            {| requests := []; disk := [Mkdir "blog_export"; Mkdir "blog_export/images"];
               console := [] |}
            {| requests := []; disk := [Mkdir "blog_export"; Mkdir "blog_export/images"];
               console := [] |}
            _ _ _ _ _ _).
  - vm_compute. reflexivity.
  - vm_compute. reflexivity.
  - vm_compute. reflexivity.
  - vm_compute. reflexivity.
Defined.

(** ** Frontmatter *)

(** C8, on a post with a featured picture and on one without embedded
    data. *)
Lemma frontmatter_key_order_witness :
  Obj.keys (baseFrontMatter exporter (post "hello" "Hello")
              (Some "blog_export/images/hello/pic.png"))
  = fixedKeys ++ ["featured_image"]
  /\ Obj.keys (baseFrontMatter exporter (post "hello" "Hello") None) = fixedKeys
  /\ Obj.get "categories" (baseFrontMatter exporter (post "hello" "Hello") None) = VNames []
  /\ Obj.get "tags" (baseFrontMatter exporter (post "hello" "Hello") None) = VNames [].
Proof.
  pose proof (frontmatter_key_order exporter (post "hello" "Hello") None)
    as (_ & _ & _ & _ & Hterms).
  split; [reflexivity |]. split; [reflexivity |]. exact (Hterms eq_refl).
Defined.

(** The frontmatter of a post with two categories, one tag, an embedded
    author and no featured media, as [createFrontMatter] returns it. *)
Example frontmatter_sample :
  fst (createFrontMatter exporter
         {| slug := "hello"; title_rendered := "Hello"; date := "2023-01-18T13:31:19";
            modified := "2023-01-18T13:32:52"; status := "publish";
            content_rendered := "Hello"; excerpt_rendered := "Short";
            author := VNumber 7;
            _embedded :=
              Some {| wp_term := Some [[ {| term_name := "Automation" |};
                                          {| term_name := "Tools" |} ];
                                       [ {| term_name := "python" |} ]];
                      embedded_author := Some [ {| author_name := Some "David" |} ];
                      wp_featuredmedia := None |};
            yoast_head_json := None |} ∅ emptyWorld)
  = Return ("---" +:+ LF
              +:+ "title: Hello" +:+ LF
              +:+ "date: '2023-01-18T13:31:19'" +:+ LF
              +:+ "modified: '2023-01-18T13:32:52'" +:+ LF
              +:+ "slug: hello" +:+ LF
              +:+ "status: publish" +:+ LF
              +:+ "categories:" +:+ LF
              +:+ "  - Automation" +:+ LF
              +:+ "  - Tools" +:+ LF
              +:+ "tags:" +:+ LF
              +:+ "  - python" +:+ LF
              +:+ "author: David" +:+ LF
              +:+ "excerpt: Short" +:+ LF
              +:+ "original_url: https://example.com/hello" +:+ LF
              +:+ "---" +:+ LF +:+ LF).
Proof. vm_compute. reflexivity. Qed.

(** ** Further properties on explicit inputs *)

(** X2, for the names of the two bundled plugins. *)
Lemma listOption_reads_back_witness :
  CLI.listOption "Yoast,ExampleFixPaths" = ["Yoast"; "ExampleFixPaths"].
Proof.
  apply (listOption_reads_back ["Yoast"; "ExampleFixPaths"]).
  repeat constructor; try discriminate; intros c [= <-]; reflexivity.
Defined.

(** What is typed need not be tidy. *)
Example listOption_untidy :
  CLI.listOption " EnlighterJSRAW , ,code,, " = ["EnlighterJSRAW"; "code"]
  /\ CLI.listOption EmptyString = [].
Proof. split; reflexivity. Qed.

(** X3, on a paragraph without attributes. *)
Lemma no_class_no_code_block_witness :
  ~ codeBlocks_fires (CLI.listOption "EnlighterJSRAW,code") [] false
      (Element "p" [] [Text "plain"])
  /\ codeBlocks_fires [EmptyString] [] false (Element "p" [] [Text "plain"]).
Proof.
  exact (no_class_no_code_block "EnlighterJSRAW,code" [] false
           (Element "p" [] [Text "plain"]) eq_refl).
Defined.

(** X4, for the site of the examples given with its final slash. *)
Lemma site_url_trailing_slash_witness :
  wpUrl exporter = "https://example.com"
  /\ Obj.get "original_url" (baseFrontMatter exporter (post "hello" "Hello") None)
     = VString ("https://example.com" +:+ "/" +:+ "hello")
  /\ JS.stripTrailingSlash (("https://example.com" +:+ "/") +:+ "/")
     = "https://example.com" +:+ "/".
Proof.
  refine (site_url_trailing_slash _ "https://example.com" (post "hello" "Hello") None _ _).
  - vm_compute. discriminate.
  - right. reflexivity.
Defined.

(** X5, for the two bundled plugins asked for in the other order. *)
Lemma plugins_loaded_in_order_witness :
  exists found,
    @_loadPlugins (sources []) (exporterWith ["ExampleFixPaths"; "Yoast"]) emptyWorld
    = (Return (withLoaded (exporterWith ["ExampleFixPaths"; "Yoast"]) found), emptyWorld)
    /\ Forall2 (fun n p => firstNamed n [YoastPlugin; ExampleFixPathsPlugin.plugin] p)
         ["ExampleFixPaths"; "Yoast"] found.
Proof.
  refine (@plugins_loaded_in_order (sources []) (exporterWith ["ExampleFixPaths"; "Yoast"])
            [YoastPlugin; ExampleFixPathsPlugin.plugin] emptyWorld emptyWorld _ _).
  - reflexivity.
  - intros n [<- | [<- | []]].
    + exists ExampleFixPathsPlugin.plugin. split; [right; left |]; reflexivity.
    + exists YoastPlugin. split; [left |]; reflexivity.
Defined.

(** X6, for a plugin that does not exist. *)
Lemma missing_plugin_ends_run_witness :
  @exportPosts _ _ _ _ _ _ (sources threePosts) (exporterWith ["Yoast"; "Nope"]) emptyWorld
  = (Exit 1,
     logged (PluginsNotFound
               (missingFrom [YoastPlugin; ExampleFixPathsPlugin.plugin] ["Yoast"; "Nope"])
               (map name [YoastPlugin; ExampleFixPathsPlugin.plugin]))
       {| requests := []; disk := [Mkdir "blog_export"; Mkdir "blog_export/images"];
          console := [] |})
  /\ In "Nope" (missingFrom [YoastPlugin; ExampleFixPathsPlugin.plugin] ["Yoast"; "Nope"]).
Proof.
  refine (@missing_plugin_ends_run _ _ _ _ _ _ (sources threePosts)
            (exporterWith ["Yoast"; "Nope"]) [YoastPlugin; ExampleFixPathsPlugin.plugin]
            "Nope" emptyWorld _ _ _ _).
  - reflexivity.
  - right. left. reflexivity.
  - intros p [<- | [<- | []]]; discriminate.
Defined.

(** X8, in a working directory that has a Yoast plugin of its own, a text
    file and a script that is no plugin. *)
Lemma loaded_plugins_are_complete_witness :
  Forall (fun p => @Loader.exportedBy paths Cases.modules "/work" p
                   \/ @Loader.exportedBy paths Cases.modules "/app/lib/plugins" p)
    [Cases.myYoast; ExampleFixPathsPlugin.plugin; YoastPlugin]
  /\ Loader.accepted (Some Loader.YoastPlugin_processPostContent) = None.
Proof.
  exact (@loaded_plugins_are_complete paths Cases.modules
           [Cases.myYoast; ExampleFixPathsPlugin.plugin; YoastPlugin] [] eq_refl).
Defined.

(** The JavaScript files of that installation can be imported. *)
Lemma cwd_importable :
  @Loader.importable paths Cases.modules "/work" ["notes.txt"; "yoast.js"; "tool.js"].
Proof.
  intros file [<- | [<- | [<- | []]]] E; try discriminate E; eexists; reflexivity.
Defined.

Lemma bundled_importable :
  @Loader.importable paths Cases.modules "/app/lib/plugins" ["example-fix-paths.js"; "yoast.js"].
Proof.
  intros file [<- | [<- | []]] E; eexists; reflexivity.
Defined.

(** X9, in the same installation. *)
Lemma loadPlugins_both_directories_witness :
  @Loader.loadPlugins paths Cases.modules
  = (Return [Cases.myYoast; ExampleFixPathsPlugin.plugin; YoastPlugin], []).
Proof.
  exact (@loadPlugins_both_directories paths Cases.modules
           ["notes.txt"; "yoast.js"; "tool.js"] ["example-fix-paths.js"; "yoast.js"]
           eq_refl cwd_importable eq_refl bundled_importable).
Defined.

(** X11: the Yoast plugin of the working directory is the one found. *)
Lemma own_plugin_shadows_bundled_witness :
  resolvePlugins [Cases.myYoast; ExampleFixPathsPlugin.plugin; YoastPlugin] ["Yoast"]
  = ([], [Cases.myYoast]).
Proof.
  refine (@own_plugin_shadows_bundled paths Cases.modules
            ["notes.txt"; "yoast.js"; "tool.js"] "Yoast" Cases.myYoast _ []
            eq_refl cwd_importable _ eq_refl).
  exists [], []. repeat apply conj; [reflexivity | reflexivity | constructor].
Defined.

(** X10, from a working directory that is gone and from one that may not
    be read. *)
Lemma unreadable_working_directory_witness :
  @Loader.loadPlugins paths Cases.modulesNoCwd
  = (Return [ExampleFixPathsPlugin.plugin; YoastPlugin],
     [Loader.ErrorLoadingFrom "/gone"
        {| Loader.thrown := Rejected "no such file or directory";
           Loader.code := Some "ENOENT" |}])
  /\ @Loader.loadPlugins paths Cases.modulesDenied
     = (Exit 1, [Loader.ErrorLoadingFrom "/root" Cases.denied; Loader.ErrorLoading Cases.denied]).
Proof.
  split.
  - refine (@unreadable_working_directory paths Cases.modulesNoCwd _
              ["example-fix-paths.js"; "yoast.js"] eq_refl eq_refl _).
    intros file [<- | [<- | []]] E; eexists; reflexivity.
  - refine (@unreadable_working_directory paths Cases.modulesDenied Cases.denied
              ["example-fix-paths.js"; "yoast.js"] eq_refl eq_refl _).
    intros file [<- | [<- | []]] E; eexists; reflexivity.
Defined.

(** X15, for two pictures and no network. *)
Lemma processImages_offline_witness :
  exists w',
    @processImages jsdom paths Cases.offline exporter twoPictures "hello" emptyWorld
    = (Return (∅, "<img src=" +:+ JS.DQUOTE +:+ "http://x/pic.png" +:+ JS.DQUOTE +:+ ">"
                  +:+ "<img src=" +:+ JS.DQUOTE +:+ "http://x/pic.png" +:+ JS.DQUOTE +:+ ">"),
       w')
    /\ disk w' = []
    /\ requests w' = ["http://x/pic.png"; "http://x/pic.png"]
    /\ warnings w' = ["http://x/pic.png"; "http://x/pic.png"].
Proof.
  refine (@processImages_offline jsdom paths Cases.offline exporter "hello" twoPictures
            emptyWorld _).
  intros w0 url. exact I.
Defined.

(** X16, for a post whose featured image is the picture of its body. *)
Lemma featured_image_reuses_body_download_witness :
  (forall w2,
      extractFeaturedImage exporter
        (Cases.featuring pictureUrl "<img src='http://x/pic.png'>")
        {[ pictureUrl := "blog_export/images/hello/pic.png" ]} w2
      = (Return (Some "blog_export/images/hello/pic.png"), w2))
  /\ Obj.get "featured_image"
       (baseFrontMatter exporter (Cases.featuring pictureUrl "<img src='http://x/pic.png'>")
          (Some "blog_export/images/hello/pic.png"))
     = VString "blog_export/images/hello/pic.png"
  /\ "blog_export/images/hello/pic.png" = imagePathOf exporter pictureUrl "hello"
  /\ In pictureUrl
       (map (urlProperty "src") (Walk.elementsOf "img" (JSDOM "<img src='http://x/pic.png'>"))).
Proof.
  refine (featured_image_reuses_body_download exporter
            (Cases.featuring pictureUrl "<img src='http://x/pic.png'>")
            {| source_url := pictureUrl |}
            {[ pictureUrl := "blog_export/images/hello/pic.png" ]}
            _ "blog_export/images/hello/pic.png" emptyWorld _ _ eq_refl _).
  - vm_compute. reflexivity.
  - apply lookup_singleton_eq.
Defined.

(** X17, for the same post when the picture cannot be fetched. *)
Lemma featured_image_failure_is_not_fatal_witness :
  exists w',
    @extractFeaturedImage paths Cases.offline exporter
      (Cases.featuring pictureUrl "Hello") ∅ emptyWorld = (Return None, w')
    /\ requests w' = [pictureUrl]
    /\ warnings w' = [pictureUrl]
    /\ disk w' = [].
Proof.
  destruct (proj2 (@featured_image_failure_is_not_fatal paths Cases.offline yaml exporter
                     (Cases.featuring pictureUrl "Hello") ∅ emptyWorld)
              {| source_url := pictureUrl |} eq_refl (lookup_empty _) I)
    as (w' & E & Hr & Hw & Hd & _).
  exists w'. repeat apply conj; assumption.
Defined.

(** X18, for the document of a post with a Yoast description. *)
Lemma yoast_replaces_excerpt_only_witness :
  (exists frontMatter,
      processFrontMatter YoastPlugin
        (baseFrontMatter exporter (withYoast (post "hello" "Hello") "Short") None)
        (withYoast (post "hello" "Hello") "Short") = Ok frontMatter
      /\ Obj.keys frontMatter = fixedKeys
      /\ Obj.get "excerpt" frontMatter = VString "Short"
      /\ forall k, k <> "excerpt" ->
                   Obj.get k frontMatter
                   = Obj.get k (baseFrontMatter exporter
                                  (withYoast (post "hello" "Hello") "Short") None))
  /\ forall self featuredMediaUrl,
      In "excerpt" (Obj.keys (baseFrontMatter self (withYoast (post "hello" "Hello") "Short")
                                featuredMediaUrl)).
Proof.
  refine (yoast_replaces_excerpt_only
            (baseFrontMatter exporter (withYoast (post "hello" "Hello") "Short") None)
            (withYoast (post "hello" "Hello") "Short") _).
  vm_compute. do 8 right. left. reflexivity.
Defined.

(** X20, for a path below the default images directory. *)
Lemma fix_paths_without_pattern_witness :
  ExampleFixPathsPlugin._replaceUrl "blog_export/images/hello/pic.png"
  = "blog_export/images/hello/pic.png"
  /\ processMarkdown ExampleFixPathsPlugin.plugin "blog_export/images/hello/pic.png"
     = Ok "blog_export/images/hello/pic.png".
Proof.
  exact (fix_paths_without_pattern "blog_export/images/hello/pic.png" eq_refl).
Defined.

(** X21, for a post with a picture and a plugin whose HTML hook throws. *)
Lemma failed_conversion_keeps_images_witness :
  convertPostToMarkdown Cases.brokenExporter (post "hello" "<img src='http://x/pic.png'>")
    emptyWorld
  = (Raise (Rejected "html is not defined"),
     {| requests := [pictureUrl];
        disk := [Mkdir "blog_export/images/hello";
                 WriteFile "blog_export/images/hello/pic.png" (Binary pictureBytes)];
        console := [DownloadedImages 1 "hello"] |})
  /\ documents
       {| requests := [pictureUrl];
          disk := [Mkdir "blog_export/images/hello";
                   WriteFile "blog_export/images/hello/pic.png" (Binary pictureBytes)];
          console := [DownloadedImages 1 "hello"] |}
     = documents emptyWorld
  /\ forall url p,
      ({[ pictureUrl := "blog_export/images/hello/pic.png" ]} : gmap string string) !! url
      = Some p ->
      exists bytes,
        In (p, bytes)
          (imageFiles
             {| requests := [pictureUrl];
                disk := [Mkdir "blog_export/images/hello";
                         WriteFile "blog_export/images/hello/pic.png" (Binary pictureBytes)];
                console := [DownloadedImages 1 "hello"] |}).
Proof.
  refine (failed_conversion_keeps_images Cases.brokenExporter
            (post "hello" "<img src='http://x/pic.png'>")
            {[ pictureUrl := "blog_export/images/hello/pic.png" ]} _
            (Rejected "html is not defined") emptyWorld _ _ _).
  - vm_compute. reflexivity.
  - reflexivity.
Defined.

(** The stand-ins of the examples never fail. *)
Lemma sample_dependable : @dependable env service yaml.
Proof.
  repeat apply conj.
  - reflexivity.
  - intros keep rule html. eexists. reflexivity.
  - intros k [s|n|[|name names]| |]; eexists; reflexivity.
Defined.

(** X22, for two posts and no plugin. *)
Lemma export_completes_witness :
  exists w2 markdowns,
    @exportPosts _ _ _ _ _ _ (sources Cases.twoPosts) exporter emptyWorld
    = (Return tt, logged (Exported 2 "blog_export") w2)
    /\ length markdowns = 2%nat
    /\ documents w2
       = [] ++ zip ["blog_export/a.md"; "blog_export/b.md"] markdowns.
Proof.
  refine (@export_completes _ _ _ _ _ _ (sources Cases.twoPosts) sample_dependable
            exporter exporter Cases.twoPosts emptyWorld
            {| requests := []; disk := [Mkdir "blog_export"; Mkdir "blog_export/images"];
               console := [] |}
            {| requests := []; disk := [Mkdir "blog_export"; Mkdir "blog_export/images"];
               console := [] |} _ _ _).
  - vm_compute. reflexivity.
  - reflexivity.
  - constructor.
Defined.

(** X23, for a limit of three posts on the site with pages of two. *)
Lemma crawl_ends_within_limit_witness :
  exists o w' printed,
    @Crawl.fetchPosts Cases.siteEnv Cases.siteWire exporter (Cases.limited 3) 4 emptyWorld
    = Some (o, w', printed)
    /\ (forall posts, o = Return posts -> (length posts <= 3)%nat)
    /\ (length (requests w') <= 0 + 3)%nat.
Proof.
  refine (@crawl_ends_within_limit Cases.siteEnv Cases.siteWire exporter (Cases.limited 3)
            3 4 emptyWorld eq_refl _).
  vm_compute. lia.
Defined.

(** What that crawl returns and asks for. *)
Example crawl_with_limit :
  option_map (fun r => (fst (fst r), requests (snd (fst r))))
    (@Crawl.fetchPosts Cases.siteEnv Cases.siteWire exporter (Cases.limited 3) 4 emptyWorld)
  = Some (Return [Cases.numbered 1; Cases.numbered 2; Cases.numbered 3],
          ["https://example.com/wp-json/wp/v2/posts?page=1&per_page=3&_embed=1";
           "https://example.com/wp-json/wp/v2/posts?page=2&per_page=1&_embed=1"]).
Proof. vm_compute. reflexivity. Qed.

(** X24, for that crawl. *)
Lemma crawl_asks_consecutive_pages_witness :
  exists sizes,
    ["https://example.com/wp-json/wp/v2/posts?page=1&per_page=3&_embed=1";
     "https://example.com/wp-json/wp/v2/posts?page=2&per_page=1&_embed=1"]
    = [] ++ imap (fun i perPage =>
                    @Crawl.pageUrl exporter (Cases.limited 3) (Z.of_nat (S i)) perPage) sizes
    /\ Forall (fun perPage => 1 <= perPage <= 100) sizes.
Proof.
  refine (@crawl_asks_consecutive_pages Cases.siteEnv Cases.siteWire exporter (Cases.limited 3)
            4 emptyWorld
            {| requests :=
                 ["https://example.com/wp-json/wp/v2/posts?page=1&per_page=3&_embed=1";
                  "https://example.com/wp-json/wp/v2/posts?page=2&per_page=1&_embed=1"];
               disk := []; console := [] |} _ _ _).
  vm_compute. reflexivity.
Defined.

(** X25, for the whole site. *)
Lemma crawl_gathers_every_page_witness :
  exists w' printed,
    @Crawl.fetchPosts Cases.siteEnv Cases.siteWire exporter Cases.unlimited 4 emptyWorld
    = Some (Return (map Cases.numbered [1; 2; 3; 4; 5]%nat), w', printed)
    /\ requests w'
       = [] ++ map (fun i => @Crawl.pageUrl exporter Cases.unlimited (Z.of_nat (S i)) 100)
                 [0; 1; 2; 3]%nat.
Proof.
  refine (@crawl_gathers_every_page Cases.siteEnv Cases.siteWire exporter Cases.unlimited
            Cases.site emptyWorld eq_refl _ _).
  - intros [|[|[|i]]] posts w; intros [= <-]; (split; [discriminate |]);
      eexists _, _; repeat apply conj; vm_compute; reflexivity.
  - intros w. eexists _, _. split; [vm_compute; reflexivity | left; reflexivity].
Defined.

(** X26, for a site without the REST API. *)
Lemma crawl_failure_is_fatal_witness :
  exists o line,
    @Crawl.pages env Cases.siteWire exporter Cases.unlimited 1 1 [] emptyWorld
      [Crawl.Fetching "posts"]
    = Some (o, asked emptyWorld (@Crawl.pageUrl exporter Cases.unlimited 1 100),
            [Crawl.Fetching "posts"] ++ [line])
    /\ o = Exit 1 /\ line = Crawl.ApiNotFound.
Proof.
  destruct (@crawl_failure_is_fatal env Cases.siteWire exporter Cases.unlimited 0 1 []
              emptyWorld [Crawl.Fetching "posts"] eq_refl)
    as (o & line & E & Ho).
  - vm_compute. split; [reflexivity | discriminate].
  - exists o, line. split; [exact E | exact Ho].
Defined.

(** X27, on the highlighter's [pre]. *)
Lemma codeBlocks_takes_precedence_witness :
  codeBlocks_fires ["code"; "EnlighterJSRAW"] [] false (pre "x")
  /\ ~ codeBlocks_fires ["code"; "EnlighterJSRAW"] [] true (pre "x").
Proof.
  refine (codeBlocks_takes_precedence ["code"; "EnlighterJSRAW"] [] (pre "x")
            "EnlighterJSRAW" _ _).
  - right. left. reflexivity.
  - exists EmptyString, EmptyString. reflexivity.
Defined.
